(** * arlon: publishing a cluster's configuration to git

    A shallow embedding of [cmd/cluster] of arlon: [DeployToGit] with its
    helpers [copyManifests], [getInlineBundles] and [copyInlineBundles], and
    [ConstructRootApp]; and of [deleteBundle] of [cmd/bundle].  The Go
    library calls the code makes ([strings], [path], [text/template], the
    worktree filesystem of go-git, the Kubernetes client and the API server
    behind it) are modelled first, each from its documented behaviour; the
    functions of the packages follow, statement by statement. *)

From Stdlib Require Import String Ascii List ZArith Lia Bool.
From Stdlib.Strings Require Import Byte.
From stdpp Require Import base gmap sets list strings option.

Local Open Scope string_scope.
Local Open Scope list_scope.

(** A Go [[]byte] that is not nil.  A nil slice is [None] at the places where
    the code can see one (the result of indexing a map with a missing key). *)
Definition bytes := list byte.

#[global] Instance byte_eq_decision : EqDecision byte := Byte.byte_eq_dec.

(** [string(b)] for a possibly nil slice [b]. *)
Definition string_of_slice (b : option bytes) : string :=
  match b with
  | Some l => string_of_list_byte l
  | None => ""
  end.

(** Go's [(T, error)] results; an error is its message. *)
Inductive result (A : Type) : Type :=
  | Ok (a : A)
  | Error (msg : string).
Arguments Ok {A} a.
Arguments Error {A} msg.

Definition is_ok {A} (r : result A) : bool :=
  match r with Ok _ => true | Error _ => false end.

(** ** Package strings *)
Module gostrings.

(** [strings.Compare]: -1, 0 or +1 by lexicographic byte order. *)
Definition Compare (a b : string) : Z :=
  match String.compare a b with
  | Eq => 0
  | Lt => -1
  | Gt => 1
  end%Z.

(** [strings.Split(s, sep)] for a separator of one byte, which is what both
    call sites pass.  The result is never empty: [Split("", sep)] is
    [[""]]. *)
Fixpoint Split (s : string) (sep : ascii) : list string :=
  match s with
  | EmptyString => [EmptyString]
  | String c s' =>
      if decide (c = sep) then EmptyString :: Split s' sep
      else match Split s' sep with
           | h :: t => String c h :: t
           | [] => [String c EmptyString]
           end
  end.

(** [strings.Join(elems, sep)]. *)
Definition Join (elems : list string) (sep : string) : string :=
  String.concat sep elems.

End gostrings.

(** ** Package path *)
Module path.

Definition rooted (p : string) : bool :=
  match p with
  | String "/" _ => true
  | _ => false
  end.

(** One path element against the elements kept so far (last one first):
    empty and [.] elements vanish, [..] removes the element before it,
    stays when there is none to remove in a relative path, and vanishes at
    the root. *)
Definition elem_step (isRooted : bool) (kept : list string) (e : string)
  : list string :=
  if decide (e = "") then kept
  else if decide (e = ".") then kept
  else if decide (e = "..") then
    match kept with
    | [] => if isRooted then [] else [e]
    | top :: below => if decide (top = "..") then e :: kept else below
    end
  else e :: kept.

(** The elements of the cleaned path, first one first. *)
Definition elems (p : string) : list string :=
  rev (fold_left (elem_step (rooted p)) (gostrings.Split p "/") []).

(** [path.Clean]. *)
Definition Clean (p : string) : string :=
  let body := gostrings.Join (elems p) "/" in
  if rooted p then "/" +:+ body
  else if decide (body = "") then "." else body.

(** [path.Join(elem...)]: leading empty elements are skipped, the rest is
    joined with slashes and cleaned; all empty gives the empty string. *)
Fixpoint Join (elem : list string) : string :=
  match elem with
  | [] => ""
  | e :: rest =>
      if decide (e = "") then Join rest
      else Clean (gostrings.Join elem "/")
  end.

End path.

(** ** State and errors

    A Go function that mutates what it is handed and returns [(T, error)]:
    the state comes back in both cases, since an error does not undo the
    writes made before it. *)
Definition SE (S A : Type) : Type := S → result A * S.

Definition ret {S A} (a : A) : SE S A := λ s, (Ok a, s).
Definition fail {S A} (msg : string) : SE S A := λ s, (Error msg, s).
Definition bind {S A B} (m : SE S A) (k : A → SE S B) : SE S B :=
  λ s, match m s with
       | (Ok a, s') => k a s'
       | (Error msg, s') => (Error msg, s')
       end.

(** [x, err := m; if err != nil { return fmt.Errorf(..., err) }] *)
Definition orReturn {S A} (m : SE S A) (errorf : string → string) : SE S A :=
  λ s, match m s with
       | (Ok a, s') => (Ok a, s')
       | (Error err, s') => (Error (errorf err), s')
       end.

(** A call that cannot touch the state. *)
Definition pure_call {S A} (r : result A) : SE S A := λ s, (r, s).

Notation "'run' x <- m 'in' k" := (bind m (λ x, k))
  (at level 10, x name, m at level 100, k at level 200,
   format "'[v' 'run'  x  <-  m  'in' '/' k ']'").
Notation "'run_' m 'in' k" := (bind m (λ _, k))
  (at level 10, m at level 100, k at level 200,
   format "'[v' 'run_'  m  'in' '/' k ']'").

(** [for _, x := range l { body }], leaving at the first error. *)
Fixpoint forRange {S A} (l : list A) (body : A → SE S unit) : SE S unit :=
  match l with
  | [] => ret ()
  | x :: rest => run_ body x in forRange rest body
  end.

(** ** Calls that can panic

    A panic ends the run where it is raised; the state is what the steps
    before it left. *)
Inductive outcome (A : Type) : Type :=
  | Done (a : A)
  | Panic (msg : string).
Arguments Done {A} a.
Arguments Panic {A} msg.

(** ** The worktree filesystem (go-billy's osfs under a chroot)

    Files and directories are keyed by the elements of their cleaned path
    below the worktree root.  Only what the operating system decides from the
    tree itself is modelled: a path element that is a file cannot be entered,
    a directory cannot be opened as a file, and a path may not leave the
    root.  Faults of the disk and repository metadata are not. *)
Module billy.

Record Filesystem := {
  files : gmap (list string) bytes;
  dirs : gset (list string);
}.

(** An open file. *)
Definition File := list string.

Inductive Target :=
  | Inside (k : list string)
  | Parent      (* the path [..]: the directory that holds the root *)
  | Crossed.    (* a path starting with [../] *)

(** The chroot helper refuses a cleaned path that starts with [../] and
    resolves every other one below the root; an absolute path is taken
    relative to the root. *)
Definition locate (p : string) : Target :=
  match path.elems p with
  | [".."] => Parent
  | ".." :: _ => Crossed
  | k => Inside k
  end.

(** Every prefix of [k], [k] included. *)
Fixpoint prefixes (k : list string) : list (list string) :=
  match k with
  | [] => [[]]
  | x :: k' => [] :: map (cons x) (prefixes k')
  end.

(** [filepath.Dir] on keys. *)
Definition parent (k : list string) : list string := removelast k.

Definition is_file (fs : Filesystem) (k : list string) : bool :=
  bool_decide (is_Some (files fs !! k)).

Definition is_dir (fs : Filesystem) (k : list string) : bool :=
  bool_decide (k = [] ∨ k ∈ dirs fs).

(** [os.MkdirAll] below the root. *)
Definition mkdirAllAt (k : list string) : SE Filesystem unit :=
  λ fs, if existsb (is_file fs) (prefixes k)
        then (Error "not a directory", fs)
        else (Ok (), {| files := files fs;
                        dirs := list_to_set (prefixes k) ∪ dirs fs |}).

Definition MkdirAll (p : string) : SE Filesystem unit :=
  match locate p with
  | Inside k => mkdirAllAt k
  | Parent => ret ()
  | Crossed => fail "chroot boundary crossed"
  end.

(** [Create]: the directory of the file is made first, then the file is
    opened for writing, created or truncated.  What the host file system
    refuses beyond this (a name longer than it allows, a full disk) is not
    modelled: the theorems below speak of a [Create] that succeeded, or of
    the failures listed here. *)
Definition Create (p : string) : SE Filesystem File :=
  match locate p with
  | Inside k =>
      run_ mkdirAllAt (parent k) in
      λ fs, if is_dir fs k then (Error "is a directory", fs)
            else (Ok k, {| files := <[k := []]> (files fs);
                           dirs := dirs fs |})
  | Parent => fail "is a directory"
  | Crossed => fail "chroot boundary crossed"
  end.

(** Writing to an open file appends at its end. *)
Definition Write (f : File) (data : bytes) : SE Filesystem unit :=
  λ fs, (Ok (), {| files := <[f := default [] (files fs !! f) ++ data]>
                              (files fs);
                   dirs := dirs fs |}).

End billy.

(** ** Package embed: the files compiled into the program *)
Module embed.

#[warning="-register-all"]
Inductive DirEntry :=
  | RegularFile (Name : string) (contents : bytes)
  | Directory (Name : string) (entries : list DirEntry).

Definition Name (e : DirEntry) : string :=
  match e with
  | RegularFile n _ => n
  | Directory n _ => n
  end.

End embed.

(** ** Package text/template, for templates whose actions are fields of
    the data: [{{.Field}}] *)
Module template.

Inductive Node :=
  | TextNode (text : string)
  | FieldNode (field : string).

Definition textNode (buf : string) : list Node :=
  if decide (buf = "") then [] else [TextNode buf].

Definition fieldOfAction (buf : string) : option string :=
  match buf with
  | String "." name => if decide (name = "") then None else Some name
  | _ => None
  end.

Definition consNodes (ns : list Node) (r : result (list Node))
  : result (list Node) :=
  match r with
  | Ok rest => Ok (ns ++ rest)
  | Error msg => Error msg
  end.

Definition snoc (buf : string) (c : ascii) : string :=
  buf +:+ String c EmptyString.

(** The lexer and parser in one pass: [buf] holds the text, or the inside
    of the action, read so far. *)
Fixpoint parseFrom (s : string) (inAction : bool) (buf : string)
  : result (list Node) :=
  match s with
  | EmptyString =>
      if inAction then Error "unclosed action" else Ok (textNode buf)
  | String c rest =>
      match rest with
      | EmptyString =>
          if inAction then Error "unclosed action"
          else Ok (textNode (snoc buf c))
      | String c2 rest2 =>
          if inAction then
            if decide (c = "}"%char ∧ c2 = "}"%char) then
              match fieldOfAction buf with
              | Some name =>
                  consNodes [FieldNode name] (parseFrom rest2 false "")
              | None => Error ("unexpected action " +:+ buf)
              end
            else parseFrom rest true (snoc buf c)
          else
            if decide (c = "{"%char ∧ c2 = "{"%char) then
              consNodes (textNode buf) (parseFrom rest2 true "")
            else parseFrom rest false (snoc buf c)
      end
  end.

Definition Parse (text : string) : result (list Node) :=
  parseFrom text false "".

(** [Execute] writes the nodes to [w] one after the other; [data] gives
    the value of a field by its name. *)
Definition Execute (t : list Node) (w : billy.File)
    (data : string → option string) : SE billy.Filesystem unit :=
  forRange t (λ n,
    match n with
    | TextNode text => billy.Write w (list_byte_of_string text)
    | FieldNode field =>
        match data field with
        | Some v => billy.Write w (list_byte_of_string v)
        | None => fail ("can't evaluate field " +:+ field)
        end
    end).

End template.

(** ** The Kubernetes client, as far as the package reads from it *)
Module kubernetes.

Record Secret := {
  SecretLabels : gmap string string;
  SecretData : gmap string bytes;
}.

Record ConfigMap := {
  ConfigMapLabels : gmap string string;
  ConfigMapData : gmap string string;
}.

(** [List] and [Get] of the typed clients, by namespace; the store does not
    change while one call of the package runs. *)
Record Clientset := {
  SecretsList : string → string → result (list Secret);
  SecretsGet : string → string → result Secret;
  ConfigMapsGet : string → string → result ConfigMap;
}.

(** [m[key]] on a [map[string]string]: a missing key reads as the empty
    string. *)
Definition index (m : gmap string string) (key : string) : string :=
  default "" (m !! key).

End kubernetes.

(** ** The API server, for the one call that writes to it

    The secrets and config maps of the cluster by namespace and name, and
    the two calls on one object that the packages make: [Get] and
    [Delete].  An object is deleted at once (finalizers are not modelled),
    and a request either reaches the store or fails before it. *)
Module apiserver.
Import kubernetes.

Record Cluster := {
  secrets : gmap (string * string) Secret;
  configMaps : gmap (string * string) ConfigMap;
}.

(** [rest.Config], by what comes of it: the error for which
    [kubernetes.NewForConfig] refuses it, and the error that a request
    sent with its client meets on the way to the server. *)
Record Config := {
  invalid : option string;
  unreachable : option string;
}.

(** [kubernetes.NewForConfigOrDie]: the client is the configuration it
    was made from. *)
Definition NewForConfigOrDie (config : Config) : outcome Config :=
  match invalid config with
  | Some err => Panic err
  | None => Done config
  end.

Definition quote : string := String "034"%char EmptyString.

(** [errors.NewNotFound]: the resource, the quoted name, [not found]. *)
Definition NewNotFound (resource name : string) : string :=
  resource +:+ " " +:+ quote +:+ name +:+ quote +:+ " not found".

(** What a request for the object [name] of the namespace [ns] meets
    before the store is looked at: the client refuses an empty name, the
    transport may fail, and with an empty namespace the request is for a
    path that the server does not serve. *)
Definition refused (kubeClient : Config) (ns name : string) : option string :=
  if decide (name = "") then Some "resource name may not be empty"
  else match unreachable kubeClient with
       | Some err => Some err
       | None =>
           if decide (ns = "")
           then Some "the server could not find the requested resource"
           else None
       end.

(** [Secrets(ns).Get] *)
Definition getSecret (kubeClient : Config) (ns name : string) (c : Cluster)
  : result Secret :=
  match refused kubeClient ns name with
  | Some err => Error err
  | None =>
      match secrets c !! (ns, name) with
      | Some secr => Ok secr
      | None => Error (NewNotFound "secrets" name)
      end
  end.

(** [ConfigMaps(ns).Get] *)
Definition getConfigMap (kubeClient : Config) (ns name : string) (c : Cluster)
  : result ConfigMap :=
  match refused kubeClient ns name with
  | Some err => Error err
  | None =>
      match configMaps c !! (ns, name) with
      | Some cm => Ok cm
      | None => Error (NewNotFound "configmaps" name)
      end
  end.

(** [Secrets(ns).Delete] *)
Definition deleteSecret (kubeClient : Config) (ns name : string)
  : SE Cluster unit :=
  λ c, match refused kubeClient ns name with
       | Some err => (Error err, c)
       | None =>
           match secrets c !! (ns, name) with
           | Some _ =>
               (Ok (), {| secrets := delete (ns, name) (secrets c);
                          configMaps := configMaps c |})
           | None => (Error (NewNotFound "secrets" name), c)
           end
       end.

(** The client that the package [cluster] reads with, on the cluster as
    it is; the listing by label is taken as given. *)
Definition clientset (kubeClient : Config)
    (list : string → string → result (list Secret)) (c : Cluster)
  : Clientset :=
  {| SecretsList := list;
     SecretsGet := λ ns name, getSecret kubeClient ns name c;
     ConfigMapsGet := λ ns name, getConfigMap kubeClient ns name c |}.

End apiserver.

(** ** go-git: a remote, a clone of one branch, its worktree and a push

    A commit is the tree it records; a branch is its commits, newest first. *)
Module gogit.

Definition Tree := gmap (list string) bytes.

Record BasicAuth := {
  Username : string;
  Password : string;
}.

Record Repository := {
  origin : string;
  branch : string;
  commits : list Tree;
  Filesystem : billy.Filesystem;
}.

(** What the calls that leave the process did, in order. *)
Inductive Event :=
  | Cloned (dir url ref : string) (auth : BasicAuth)
  | Pushed (url ref : string) (auth : BasicAuth).

(** The remote repositories by URL and reference, the calls made so far,
    and the clone in the directory of this run. *)
Record Session := {
  remote : gmap (string * string) (list Tree);
  events : list Event;
  repo : option Repository;
}.

(** What the operating system and the transport answer during one run:
    the result of [os.MkdirTemp] and the faults of the remote calls. *)
Record Host := {
  MkdirTemp : string * option string;
  cloneFault : option string;
  worktreeFault : option string;
  pushFault : option string;
}.

(** [plumbing.NewBranchReferenceName] *)
Definition NewBranchReferenceName (name : string) : string :=
  "refs/heads/" +:+ name.

(** The directories a checkout of [t] makes: those above its files. *)
Definition checkoutDirs (t : Tree) : gset (list string) :=
  ⋃ ((λ k, list_to_set (billy.prefixes (billy.parent k)))
       <$> elements (dom t)).

Definition checkout (t : Tree) : billy.Filesystem :=
  {| billy.files := t; billy.dirs := checkoutDirs t |}.

(** [PlainCloneContext] of a single branch with checkout.  The directory is
    recorded with the call; where on the disk the clone lands has no part in
    what the remote answers. *)
Definition PlainCloneContext (host : Host) (dir url : string)
    (auth : BasicAuth) (ref : string) : SE Session unit :=
  λ s,
    let called := events s ++ [Cloned dir url ref auth] in
    match cloneFault host with
    | Some err =>
        (Error err, {| remote := remote s; events := called; repo := repo s |})
    | None =>
        match remote s !! (url, ref) with
        | Some (head :: older) =>
            (Ok (), {| remote := remote s; events := called;
                       repo := Some {| origin := url; branch := ref;
                                       commits := head :: older;
                                       Filesystem := checkout head |} |})
        | _ =>
            (Error "reference not found",
             {| remote := remote s; events := called; repo := repo s |})
        end
    end.

(** [repo.Worktree()] *)
Definition Worktree (host : Host) : SE Session unit :=
  λ s, match worktreeFault host with
       | Some err => (Error err, s)
       | None => (Ok (), s)
       end.

(** [repo.Push] to the remote the clone came from. *)
Definition Push (host : Host) (auth : BasicAuth) : SE Session unit :=
  λ s,
    match repo s with
    | None => (Error "repository does not exist", s)
    | Some r =>
        let called := events s ++ [Pushed (origin r) (branch r) auth] in
        match pushFault host with
        | Some err =>
            (Error err,
             {| remote := remote s; events := called; repo := repo s |})
        | None =>
            if decide (remote s !! (origin r, branch r) = Some (commits r))
            then (Error "already up-to-date",
                  {| remote := remote s; events := called; repo := repo s |})
            else (Ok (),
                  {| remote := <[(origin r, branch r) := commits r]> (remote s);
                     events := called; repo := repo s |})
        end
    end.

(** A step on the clone of this run. *)
Definition onRepository {A} (m : SE Repository A) : SE Session A :=
  λ s, match repo s with
       | None => (Error "repository does not exist", s)
       | Some r =>
           let '(res, r') := m r in
           (res, {| remote := remote s; events := events s;
                    repo := Some r' |})
       end.

(** A step on the files of its worktree. *)
Definition onWorktree {A} (m : SE billy.Filesystem A) : SE Repository A :=
  λ r, let '(res, fs') := m (Filesystem r) in
       (res, {| origin := origin r; branch := branch r;
                commits := commits r; Filesystem := fs' |}).

End gogit.

(** * Package cluster *)
Module cluster.
Import embed kubernetes.

Record RepoCreds := {
  Url : string;
  Username : string;
  Password : string;
}.

Record inlineBundle := {
  name : string;
  data : option bytes;
}.

(** The loop of [DeployToGit] over [secrets.Items], left at the first
    secret whose [url] compares equal to [repoUrl]; [None] is the nil
    [creds] after a loop that never broke. *)
Fixpoint findRepoCreds (repoUrl : string) (items : list Secret)
  : option RepoCreds :=
  match items with
  | [] => None
  | repoSecret :: rest =>
      if decide (gostrings.Compare repoUrl
                   (string_of_slice (SecretData repoSecret !! "url")) = 0%Z)
      then Some {| Url := string_of_slice (SecretData repoSecret !! "url");
                   Username :=
                     string_of_slice (SecretData repoSecret !! "username");
                   Password :=
                     string_of_slice (SecretData repoSecret !! "password") |}
      else findRepoCreds repoUrl rest
  end.

(** The loop of [getInlineBundles] over [bundleItems]. *)
Fixpoint rangeBundleItems (secretsApi : string → result Secret)
    (bundleItems : list string) (inlineBundles : list inlineBundle)
  : result (list inlineBundle) :=
  match bundleItems with
  | [] => Ok inlineBundles
  | bundleName :: rest =>
      match secretsApi bundleName with
      | Error err =>
          Error ("failed to get bundle secret " +:+ bundleName +:+ ": "
                 +:+ err)
      | Ok secr =>
          if decide (index (SecretLabels secr) "bundle-type" ≠ "inline")
          then rangeBundleItems secretsApi rest inlineBundles
          else rangeBundleItems secretsApi rest
                 (inlineBundles ++ [{| name := bundleName;
                                       data := SecretData secr !! "data" |}])
      end
  end.

Definition getInlineBundles (profileName : string) (corev1 : Clientset)
    (arlonNs : string) : result (list inlineBundle) :=
  if decide (profileName = "") then Ok []
  else
    let configMapsApi := ConfigMapsGet corev1 arlonNs in
    let secretsApi := SecretsGet corev1 arlonNs in
    match configMapsApi profileName with
    | Error err => Error ("failed to get profile configmap: " +:+ err)
    | Ok profileConfigMap =>
        if decide (index (ConfigMapLabels profileConfigMap) "arlon-type"
                   ≠ "profile")
        then Error "profile configmap does not have expected label"
        else
          let bundles := index (ConfigMapData profileConfigMap) "bundles" in
          if decide (bundles = "") then Error "profile has no bundles"
          else
            let bundleItems := gostrings.Split bundles "," in
            rangeBundleItems secretsApi bundleItems []
    end.

Definition appTmpl : string := "
apiVersion: argoproj.io/v1alpha1
kind: Application
metadata:
  name: {{.ClusterName}}-{{.BundleName}}
  namespace: {{.AppNamespace}}
spec:
  syncPolicy:
    automated:
      prune: true
  destination:
    name: {{.ClusterName}}
    namespace: {{.DestinationNamespace}}
  project: default
  source:
    repoURL: {{.RepoUrl}}
    path: {{.WorkloadPath}}/{{.BundleName}}
    targetRevision: HEAD
".

Record AppSettings := {
  ClusterName : string;
  BundleName : string;
  WorkloadPath : string;
  AppNamespace : string;
  DestinationNamespace : string;
  RepoUrl : string;
}.

(** The exported fields of [AppSettings] by name, as the template engine
    finds them. *)
Definition AppSettings_field (app : AppSettings) (field : string)
  : option string :=
  if decide (field = "ClusterName") then Some (ClusterName app)
  else if decide (field = "BundleName") then Some (BundleName app)
  else if decide (field = "WorkloadPath") then Some (WorkloadPath app)
  else if decide (field = "AppNamespace") then Some (AppNamespace app)
  else if decide (field = "DestinationNamespace")
       then Some (DestinationNamespace app)
  else if decide (field = "RepoUrl") then Some (RepoUrl app)
  else None.

(** The body of the loop of [copyInlineBundles]. *)
Definition copyInlineBundle (tmpl : list template.Node)
    (clusterName repoUrl mgmtPath workloadPath : string)
    (bundle : inlineBundle) : SE billy.Filesystem unit :=
  let dirPath := path.Join [workloadPath; name bundle] in
  run_ orReturn (billy.MkdirAll dirPath)
         (λ err, "failed to create directory in working tree: " +:+ err) in
  let bundleFileName := name bundle +:+ ".yaml" in
  let bundlePath := path.Join [dirPath; bundleFileName] in
  run dst <- orReturn (billy.Create bundlePath)
               (λ err, "failed to create file in working tree: " +:+ err) in
  match data bundle with
  | None => fail ("inline bundle " +:+ name bundle +:+ " has no data")
  | Some payload =>
      run_ orReturn (billy.Write dst payload)
             (λ err, "failed to copy inline bundle " +:+ name bundle
                     +:+ ": " +:+ err) in
      let appPath := path.Join [mgmtPath; "templates"; bundleFileName] in
      run dst <- orReturn (billy.Create appPath)
                   (λ err, "failed to create application file " +:+ appPath
                           +:+ ": " +:+ err) in
      let app := {| ClusterName := clusterName; BundleName := name bundle;
                    WorkloadPath := workloadPath; AppNamespace := "argocd";
                    DestinationNamespace := "default";
                    RepoUrl := repoUrl |} in
      orReturn (template.Execute tmpl dst (AppSettings_field app))
        (λ err, "failed to render application template " +:+ appPath
                +:+ ": " +:+ err)
  end.

Definition copyInlineBundles
    (clusterName repoUrl mgmtPath workloadPath : string)
    (bundles : list inlineBundle) : SE billy.Filesystem unit :=
  if decide (length bundles = 0) then ret ()
  else
    run tmpl <- orReturn (pure_call (template.Parse appTmpl))
                  (λ err, "failed to create app template: " +:+ err) in
    forRange bundles
      (copyInlineBundle tmpl clusterName repoUrl mgmtPath workloadPath).

(** [copyManifests(wt, root, mgmtPath)], with [items] the listing
    [content.ReadDir(root)] of the embedded directory being visited and
    [contents] what [content.Open(filePath)] reads; neither call can fail
    on entries that the listing itself gave. *)
Fixpoint copyManifest (root mgmtPath : string) (item : DirEntry)
  : SE billy.Filesystem unit :=
  let filePath := path.Join [root; Name item] in
  match item with
  | Directory _ entries =>
      (fix range (items : list DirEntry) : SE billy.Filesystem unit :=
         match items with
         | [] => ret ()
         | i :: rest => run_ copyManifest filePath mgmtPath i in range rest
         end) entries
  | RegularFile _ contents =>
      (* remove manifests/ prefix *)
      let components := gostrings.Split filePath "/" in
      let dstPath := path.Join (tail components) in
      let dstPath := path.Join [mgmtPath; dstPath] in
      run dst <- orReturn (billy.Create dstPath)
                   (λ err, "failed to create destination file " +:+ dstPath
                           +:+ ": " +:+ err) in
      orReturn (billy.Write dst contents)
        (λ err, "failed to copy embedded file: " +:+ err)
  end.

Definition copyManifests (items : list DirEntry) (root mgmtPath : string)
  : SE billy.Filesystem unit :=
  forRange items (copyManifest root mgmtPath).

Section Deploy.

(** [//go:embed manifests/*]: the entries of the directory [manifests]
    that the build compiled in. *)
Variable manifests : list DirEntry.

(** [gitutils.CommitChanges(tmpDir, wt)] *)
Variable CommitChanges : string → SE gogit.Repository bool.

(** [content.ReadDir(".")] *)
Definition content : list DirEntry := [Directory "manifests" manifests].

Definition DeployToGit (kubeClient : Clientset) (host : gogit.Host)
    (argocdNs arlonNs clusterName repoUrl repoBranch basePath
       profileName : string) : SE gogit.Session unit :=
  run secrets <-
    orReturn (pure_call (SecretsList kubeClient argocdNs
                           "argocd.argoproj.io/secret-type=repository"))
      (λ err, "failed to list secrets: " +:+ err) in
  match findRepoCreds repoUrl secrets with
  | None =>
      fail ("did not find argocd repository matching " +:+ repoUrl
            +:+ " (did you register it?)")
  | Some creds =>
      run inlineBundles <-
        orReturn (pure_call (getInlineBundles profileName kubeClient
                               arlonNs))
          (λ err, "failed to get inline bundles: " +:+ err) in
      (* the error of MkdirTemp is assigned and never read *)
      let '(tmpDir, _) := gogit.MkdirTemp host in
      let branchRef := gogit.NewBranchReferenceName repoBranch in
      let auth := {| gogit.Username := Username creds;
                     gogit.Password := Password creds |} in
      run_ orReturn (gogit.PlainCloneContext host tmpDir repoUrl auth
                       branchRef)
             (λ err, "failed to clone repository: " +:+ err) in
      let mgmtPath := path.Join [basePath; clusterName; "mgmt"] in
      let workloadPath := path.Join [basePath; clusterName; "workload"] in
      run_ orReturn (gogit.Worktree host)
             (λ err, "failed to get repo worktree: " +:+ err) in
      run_ orReturn (gogit.onRepository (gogit.onWorktree
                       (copyManifests content "." mgmtPath)))
             (λ err, "failed to copy embedded content: " +:+ err) in
      run_ orReturn (gogit.onRepository (gogit.onWorktree
                       (copyInlineBundles clusterName repoUrl mgmtPath
                          workloadPath inlineBundles)))
             (λ err, "failed to copy inline bundles: " +:+ err) in
      run changed <-
        orReturn (gogit.onRepository (CommitChanges tmpDir))
          (λ err, "failed to commit changes: " +:+ err) in
      if negb changed then ret ()
      else
        orReturn (gogit.Push host auth)
          (λ err, "failed to push to remote repository: " +:+ err)
  end.

End Deploy.

(** The fields of argo-cd's [Application] that [ConstructRootApp] sets. *)
Record HelmParameter := {
  Name : string;
  Value : string;
}.

Record ResourceIgnoreDifferences := {
  Group : string;
  Kind : string;
  JSONPointers : list string;
}.

Record Application := {
  TypeMeta_Kind : string;
  TypeMeta_APIVersion : string;
  ObjectMeta_Name : string;
  ObjectMeta_Namespace : string;
  Source_Helm_Parameters : list HelmParameter;
  Source_RepoURL : string;
  Source_TargetRevision : string;
  Source_Path : string;
  Destination_Server : string;
  Destination_Namespace : string;
  SyncPolicy_Automated_Prune : bool;
  SyncPolicy_SyncOptions : list string;
  IgnoreDifferences : list ResourceIgnoreDifferences;
}.

Definition keys : list string :=
  ["region"; "sshKeyName"; "kubernetesVersion"; "podCidrBlock"; "nodeCount";
   "nodeType"].

Definition ConstructRootApp (kubeClient : Clientset)
    (argocdNs arlonNs clusterName repoUrl repoBranch basePath
       clusterSpecName : string) : result Application :=
  let configMapsApi := ConfigMapsGet kubeClient arlonNs in
  match configMapsApi clusterSpecName with
  | Error err => Error ("failed to get clusterspec configmap: " +:+ err)
  | Ok cm =>
      let helmParams := [{| Name := "clusterName"; Value := clusterName |}] in
      let helmParams :=
        fold_left
          (λ helmParams key,
             let val := index (ConfigMapData cm) key in
             if decide (val ≠ "")
             then helmParams ++ [{| Name := key; Value := val |}]
             else helmParams)
          keys helmParams in
      Ok {| TypeMeta_Kind := "Application";
            TypeMeta_APIVersion := "argoproj.io" +:+ "/v1alpha1";
            ObjectMeta_Name := clusterName;
            ObjectMeta_Namespace := argocdNs;
            Source_Helm_Parameters := helmParams;
            Source_RepoURL := repoUrl;
            Source_TargetRevision := repoBranch;
            Source_Path := path.Join [basePath; clusterName; "mgmt"];
            Destination_Server := "https://kubernetes.default.svc";
            Destination_Namespace := "default";
            SyncPolicy_Automated_Prune := true;
            SyncPolicy_SyncOptions := ["Prune=true"];
            IgnoreDifferences :=
              [{| Group := "controlplane.cluster.x-k8s.io";
                  Kind := "AWSManagedControlPlane";
                  JSONPointers := ["/spec/version"] |}] |}
  end.

End cluster.

(** ** Package gitutils *)
Module gitutils.

(** Modelled from the spec: [gitutils.CommitChanges], whose source is not
    part of the files at hand.  The spec's words: compare the working
    tree's current state against the cloned HEAD commit; if identical,
    report no change and perform no commit; if different, stage all changes
    and create a single commit; return whether a commit was created. *)
Definition CommitChanges (tmpDir : string) : SE gogit.Repository bool :=
  λ r,
    let head := default ∅ (head (gogit.commits r)) in
    let current := billy.files (gogit.Filesystem r) in
    if decide (current = head) then (Ok false, r)
    else (Ok true, {| gogit.origin := gogit.origin r;
                      gogit.branch := gogit.branch r;
                      gogit.commits := current :: gogit.commits r;
                      gogit.Filesystem := gogit.Filesystem r |}).

End gitutils.

(** * Package bundle *)
Module bundle.
Import kubernetes apiserver.

Definition deleteBundle (config : Config) (ns bundleName : string)
  : Cluster → outcome (result unit) * Cluster :=
  λ c, match NewForConfigOrDie config with
       | Panic msg => (Panic msg, c)
       | Done kubeClient =>
           let secretsApi := deleteSecret kubeClient ns in
           let '(err, c') :=
             orReturn (secretsApi bundleName)
               (λ err, "failed to delete bundle: " +:+ err) c in
           (Done err, c')
       end.

End bundle.

(** * Specification-side definitions *)
Import embed kubernetes cluster.

(** From the spec's words: the sizing keys that are present and non-empty in
    the cluster-specification record, in the fixed order of the whitelist. *)
Definition sizingParameters (cm : ConfigMap) : list HelmParameter :=
  omap (λ key,
          match ConfigMapData cm !! key with
          | Some val =>
              if decide (val = "") then None
              else Some {| Name := key; Value := val |}
          | None => None
          end)
       ["region"; "sshKeyName"; "kubernetesVersion"; "podCidrBlock";
        "nodeCount"; "nodeType"].

(** The record's [url] field as the deploy reads it. *)
Definition urlField (s : Secret) : string :=
  string_of_slice (SecretData s !! "url").

Definition credsOf (s : Secret) : RepoCreds :=
  {| Url := urlField s;
     Username := string_of_slice (SecretData s !! "username");
     Password := string_of_slice (SecretData s !! "password") |}.

Definition notFound (repoUrl : string) : string :=
  "did not find argocd repository matching " +:+ repoUrl
  +:+ " (did you register it?)".

(** From the spec's words: a bundle carries the inline marker. *)
Definition isInline (secretsApi : string → result Secret) (bundleName : string)
  : Prop :=
  ∃ secr, secretsApi bundleName = Ok secr
          ∧ SecretLabels secr !! "bundle-type" = Some "inline".

#[global] Instance isInline_dec secretsApi bundleName :
  Decision (isInline secretsApi bundleName).
Proof.
  unfold isInline. destruct (secretsApi bundleName) as [secr|msg].
  - destruct (decide (SecretLabels secr !! "bundle-type" = Some "inline")).
    + left. eauto.
    + right. intros (secr' & [= <-] & ?). done.
  - right. intros (secr' & [=] & _).
Defined.

(** The payload the store holds for a bundle. *)
Definition payloadOf (secretsApi : string → result Secret)
    (bundleName : string) : option bytes :=
  match secretsApi bundleName with
  | Ok secr => SecretData secr !! "data"
  | Error _ => None
  end.

(** The steps of [DeployToGit] before change detection, with the directory
    and the credentials that the later steps use. *)
Definition buildWorkingTree (manifests : list DirEntry)
    (kubeClient : Clientset) (host : gogit.Host)
    (argocdNs arlonNs clusterName repoUrl repoBranch basePath
       profileName : string) : SE gogit.Session (string * gogit.BasicAuth) :=
  run secrets <-
    orReturn (pure_call (SecretsList kubeClient argocdNs
                           "argocd.argoproj.io/secret-type=repository"))
      (λ err, "failed to list secrets: " +:+ err) in
  match findRepoCreds repoUrl secrets with
  | None => fail (notFound repoUrl)
  | Some creds =>
      run inlineBundles <-
        orReturn (pure_call (getInlineBundles profileName kubeClient arlonNs))
          (λ err, "failed to get inline bundles: " +:+ err) in
      let tmpDir := (gogit.MkdirTemp host).1 in
      let auth := {| gogit.Username := Username creds;
                     gogit.Password := Password creds |} in
      let mgmtPath := path.Join [basePath; clusterName; "mgmt"] in
      let workloadPath := path.Join [basePath; clusterName; "workload"] in
      run_ orReturn (gogit.PlainCloneContext host tmpDir repoUrl auth
                       (gogit.NewBranchReferenceName repoBranch))
             (λ err, "failed to clone repository: " +:+ err) in
      run_ orReturn (gogit.Worktree host)
             (λ err, "failed to get repo worktree: " +:+ err) in
      run_ orReturn (gogit.onRepository (gogit.onWorktree
                       (copyManifests (content manifests) "." mgmtPath)))
             (λ err, "failed to copy embedded content: " +:+ err) in
      run_ orReturn (gogit.onRepository (gogit.onWorktree
                       (copyInlineBundles clusterName repoUrl mgmtPath
                          workloadPath inlineBundles)))
             (λ err, "failed to copy inline bundles: " +:+ err) in
      ret (tmpDir, auth)
  end.

(** From the spec's words: the declared bundles that carry the inline
    marker, in the order they were declared, each with its payload. *)
Definition declaredInline (secretsApi : string → result Secret)
    (declared : list string) : list inlineBundle :=
  (λ bundleName, {| name := bundleName;
                    data := payloadOf secretsApi bundleName |})
    <$> filter (isInline secretsApi) declared.

(** Error messages

    Every error that [DeployToGit] passes on from a step is wrapped in a
    message that starts with the word [failed]; the one error it raises
    itself, for a repository that is not registered, does not. *)
Definition startsFailed {A} (r : result A) : Prop :=
  match r with
  | Ok _ => True
  | Error msg => ∃ rest, msg = "failed " +:+ rest
  end.

(** The pushes among the calls that left the process. *)
Definition isPush (e : gogit.Event) : bool :=
  match e with
  | gogit.Pushed _ _ _ => true
  | gogit.Cloned _ _ _ _ => false
  end.

Definition pushes (l : list gogit.Event) : list gogit.Event :=
  List.filter isPush l.

(** The filesystem once the file at [k] was created and holds [d]. *)
Definition putAt (k : list string) (d : bytes) (fs : billy.Filesystem)
  : billy.Filesystem :=
  {| billy.files := <[k := d]> (billy.files fs);
     billy.dirs := list_to_set (billy.prefixes (billy.parent k))
                   ∪ billy.dirs fs |}.

(** What a build asks of the filesystem: make a directory, or create a file
    and write its contents. *)
Inductive Op :=
  | Mkdir (p : string)
  | Put (p : string) (d : bytes).

Definition execOp (op : Op) (fs : billy.Filesystem) : option billy.Filesystem :=
  match op with
  | Mkdir p =>
      match billy.MkdirAll p fs with
      | (Ok _, fs') => Some fs'
      | (Error _, _) => None
      end
  | Put p d =>
      match billy.Create p fs with
      | (Ok dst, fs') => Some (billy.Write dst d fs').2
      | (Error _, _) => None
      end
  end.

Fixpoint execOps (ops : list Op) (fs : billy.Filesystem)
  : option billy.Filesystem :=
  match ops with
  | [] => Some fs
  | op :: rest =>
      match execOp op fs with
      | Some fs' => execOps rest fs'
      | None => None
      end
  end.

(** The text a node of a template stands for. *)
Definition nodeText (data : string → option string) (n : template.Node)
  : option string :=
  match n with
  | template.TextNode text => Some text
  | template.FieldNode field => data field
  end.

Definition appendAll (texts : list string) : string :=
  foldr String.append "" texts.

(** The reconciliation stub of a bundle, as text. *)
Definition stubText (clusterName bundleName workloadPath repoUrl : string)
  : string :=
"
apiVersion: argoproj.io/v1alpha1
kind: Application
metadata:
  name: " +:+ clusterName +:+ "-" +:+ bundleName +:+ "
  namespace: argocd
spec:
  syncPolicy:
    automated:
      prune: true
  destination:
    name: " +:+ clusterName +:+ "
    namespace: default
  project: default
  source:
    repoURL: " +:+ repoUrl +:+ "
    path: " +:+ workloadPath +:+ "/" +:+ bundleName +:+ "
    targetRevision: HEAD
".

(** Where the payload and the stub of a bundle go. *)
Definition bundlePathOf (workloadPath bundleName : string) : string :=
  path.Join [path.Join [workloadPath; bundleName]; bundleName +:+ ".yaml"].

Definition appPathOf (mgmtPath bundleName : string) : string :=
  path.Join [mgmtPath; "templates"; bundleName +:+ ".yaml"].

Definition bundleOps (clusterName repoUrl mgmtPath workloadPath : string)
    (bundleName : string) (payload : bytes) : list Op :=
  [Mkdir (path.Join [workloadPath; bundleName]);
   Put (bundlePathOf workloadPath bundleName) payload;
   Put (appPathOf mgmtPath bundleName)
     (list_byte_of_string
        (stubText clusterName bundleName workloadPath repoUrl))].

(** The parsed template of the stub. *)
Definition appNodes : list template.Node :=
  match template.Parse appTmpl with
  | Ok nodes => nodes
  | Error _ => []
  end.

(** The requests of [copyInlineBundles] for bundles that all have a
    payload. *)
Definition bundlesOps (clusterName repoUrl mgmtPath workloadPath : string)
    (bundles : list inlineBundle) : list Op :=
  flat_map (λ b, bundleOps clusterName repoUrl mgmtPath workloadPath (name b)
                   (default [] (data b))) bundles.

(** The requests of [copyManifests] for one entry of the directory [root],
    with the paths as the code computes them. *)
Fixpoint manifestOps (root mgmtPath : string) (item : DirEntry) : list Op :=
  let filePath := path.Join [root; embed.Name item] in
  match item with
  | Directory _ entries => flat_map (manifestOps filePath mgmtPath) entries
  | RegularFile _ contents =>
      [Put (path.Join [mgmtPath;
                       path.Join (tail (gostrings.Split filePath "/"))])
         contents]
  end.

Definition isError {A} (r : result A) : Prop :=
  match r with
  | Ok _ => False
  | Error _ => True
  end.

(** The names that the embedded tree can hold: not empty, not [.] or [..],
    and without a slash. *)
Fixpoint noSlash (s : string) : bool :=
  match s with
  | EmptyString => true
  | String c s' => bool_decide (c ≠ "/"%char) && noSlash s'
  end.

Definition validName (n : string) : bool :=
  bool_decide (n ≠ "" ∧ n ≠ "." ∧ n ≠ "..") && noSlash n.

Fixpoint validEntry (e : DirEntry) : bool :=
  validName (embed.Name e)
  && match e with
     | Directory _ entries => forallb validEntry entries
     | RegularFile _ _ => true
     end.

(** From the spec's words: the base artifacts, each with its path relative to
    the embedded directory, element by element. *)
Fixpoint artifactsOf (item : DirEntry) : list (list string * bytes) :=
  match item with
  | RegularFile n contents => [([n], contents)]
  | Directory n entries =>
      (λ a, (n :: a.1, a.2)) <$> flat_map artifactsOf entries
  end.

(** From the spec's words: the base artifacts under the management path,
    with their relative directory structure. *)
Definition baseLayout (mgmtPath : string) (manifests : list DirEntry)
  : list (string * bytes) :=
  (λ a, (path.Join [mgmtPath; gostrings.Join a.1 "/"], a.2))
    <$> flat_map artifactsOf manifests.

(** From the spec's words: the payload of a bundle in the workload path and
    its stub among the templates of the management path. *)
Definition bundleLayout (clusterName repoUrl mgmtPath workloadPath : string)
    (b : inlineBundle) : list (string * bytes) :=
  [(bundlePathOf workloadPath (name b), default [] (data b));
   (appPathOf mgmtPath (name b),
    list_byte_of_string
      (stubText clusterName (name b) workloadPath repoUrl))].

(** Files written one after the other; a later one replaces an earlier one
    at the same place. *)
Definition writeAll (l : list (string * bytes))
    (m : gmap (list string) bytes) : gmap (list string) bytes :=
  fold_left (λ m e,
               match billy.locate e.1 with
               | billy.Inside k => <[k := e.2]> m
               | _ => m
               end) l m.

Definition putsOf (ops : list Op) : list (string * bytes) :=
  omap (λ op, match op with
              | Put p d => Some (p, d)
              | Mkdir _ => None
              end) ops.

#[global] Instance Target_eq_dec : EqDecision billy.Target.
Proof. solve_decision. Defined.

(** A tree that git can hold: no file at the root, and no file above
    another file. *)
Definition validTree (t : gogit.Tree) : Prop :=
  map_Forall (λ k _, k ≠ [] ∧ Forall (λ p, t !! p = None)
                                (billy.prefixes (billy.parent k))) t.

#[global] Instance validTree_dec (t : gogit.Tree) : Decision (validTree t).
Proof. unfold validTree. apply _. Defined.

(** A worktree in a state that a filesystem can be in: no place is a file
    and a directory, the root is no file, and every file lies in
    directories. *)
Definition wellFormed (fs : billy.Filesystem) : Prop :=
  ∀ k, is_Some (billy.files fs !! k) →
       k ≠ [] ∧ (k ∉ billy.dirs fs)
       ∧ (∀ p, p ∈ billy.prefixes (billy.parent k) → p ∈ billy.dirs fs).

(** Files and directories only come, never go. *)
Definition grows (fs fs' : billy.Filesystem) : Prop :=
  billy.dirs fs ⊆ billy.dirs fs'
  ∧ ∀ k, is_Some (billy.files fs !! k) → is_Some (billy.files fs' !! k).

(** What a request that was served has left in the filesystem. *)
Definition settled (fs : billy.Filesystem) (op : Op) : Prop :=
  match op with
  | Mkdir p =>
      match billy.locate p with
      | billy.Inside k => ∀ q, q ∈ billy.prefixes k → q ∈ billy.dirs fs
      | billy.Parent => True
      | billy.Crossed => False
      end
  | Put p _ =>
      ∃ k, billy.locate p = billy.Inside k
           ∧ is_Some (billy.files fs !! k)
           ∧ (∀ q, q ∈ billy.prefixes (billy.parent k) → q ∈ billy.dirs fs)
  end.

(** A filesystem with the files of [final] and no directory that [final]
    does not have. *)
Definition within (final fs : billy.Filesystem) : Prop :=
  (∀ k, is_Some (billy.files fs !! k) ↔ is_Some (billy.files final !! k))
  ∧ billy.dirs fs ⊆ billy.dirs final.

(** The session after a clone into [tmpDir], with [fs] in the worktree. *)
Definition clonedSession (s : gogit.Session) (tmpDir repoUrl ref : string)
    (auth : gogit.BasicAuth) (history : list gogit.Tree)
    (fs : billy.Filesystem) : gogit.Session :=
  {| gogit.remote := gogit.remote s;
     gogit.events := gogit.events s ++ [gogit.Cloned tmpDir repoUrl ref auth];
     gogit.repo := Some {| gogit.origin := repoUrl; gogit.branch := ref;
                           gogit.commits := history;
                           gogit.Filesystem := fs |} |}.

(** All requests of a build, in order. *)
Definition buildOps (manifests : list DirEntry)
    (clusterName repoUrl mgmtPath workloadPath : string)
    (bundles : list inlineBundle) : list Op :=
  flat_map (manifestOps "manifests" mgmtPath) manifests
  ++ bundlesOps clusterName repoUrl mgmtPath workloadPath bundles.

(** The stack of path elements that cleaning keeps, last one first: names
    over [..] elements, which only a path that is not rooted keeps. *)
Definition keptStack (isRooted : bool) (kept : list string) : Prop :=
  ∃ n names,
    kept = names ++ replicate n ".."
    ∧ Forall (λ e, validName e = true) names
    ∧ (isRooted = true → n = 0).

(** What stops the copy of one bundle. *)
Definition stopsAt (mgmtPath : string) (bundle : inlineBundle) (msg : string)
  : Prop :=
  (∃ err, msg = "failed to create directory in working tree: " +:+ err)
  ∨ (∃ err, msg = "failed to create file in working tree: " +:+ err)
  ∨ (data bundle = None
     ∧ msg = "inline bundle " +:+ name bundle +:+ " has no data")
  ∨ (∃ err, msg = "failed to create application file "
                  +:+ appPathOf mgmtPath (name bundle) +:+ ": " +:+ err).

(** * A small installation, to run the code on *)
Module Sample.

Definition text (s : string) : bytes := list_byte_of_string s.

Definition url : string := "https://git.example/fleet.git".

(** The embedded directory [manifests]. *)
Definition manifests : list DirEntry :=
  [RegularFile "Chart.yaml" (text "name: arlon");
   Directory "templates" [RegularFile "cluster.yaml" (text "kind: Cluster")]].

Definition repoSecret : Secret :=
  {| SecretLabels := {["argocd.argoproj.io/secret-type" := "repository"]};
     SecretData := {["url" := text url; "username" := text "bot";
                     "password" := text "hunter2"]} |}.

(** An inline bundle with the payload [X], an external bundle, and an
    inline bundle whose payload is there and has no byte. *)
Definition bundleA : Secret :=
  {| SecretLabels := {["bundle-type" := "inline"]};
     SecretData := {["data" := text "X"]} |}.

Definition bundleB : Secret :=
  {| SecretLabels := {["bundle-type" := "ref"]}; SecretData := ∅ |}.

Definition bundleE : Secret :=
  {| SecretLabels := {["bundle-type" := "inline"]};
     SecretData := {["data" := []]} |}.

Definition profile (bundles : string) : ConfigMap :=
  {| ConfigMapLabels := {["arlon-type" := "profile"]};
     ConfigMapData := {["bundles" := bundles]} |}.

Definition client : Clientset :=
  {| SecretsList := λ ns selector,
       if decide (ns = "argocd") then Ok [repoSecret]
       else Error "namespace not found";
     SecretsGet := λ ns secretName,
       if decide (secretName = "a") then Ok bundleA
       else if decide (secretName = "b") then Ok bundleB
       else if decide (secretName = "e") then Ok bundleE
       else Error "secret not found";
     ConfigMapsGet := λ ns configMapName,
       if decide (configMapName = "p1") then Ok (profile "a,b")
       else if decide (configMapName = "p2") then Ok (profile "e")
       else Error "configmap not found" |}.

Definition host : gogit.Host :=
  {| gogit.MkdirTemp := ("/tmp/arlon-1", None);
     gogit.cloneFault := None;
     gogit.worktreeFault := None;
     gogit.pushFault := None |}.

Definition readme : gogit.Tree := {[ ["README.md"] := text "fleet" ]}.

Definition session : gogit.Session :=
  {| gogit.remote := {[ (url, "refs/heads/main") := [readme] ]};
     gogit.events := [];
     gogit.repo := None |}.

(** A deploy of the cluster [c1] to the branch [main], and its build. *)
Abbreviation deploy :=
  (DeployToGit manifests gitutils.CommitChanges client host "argocd" "arlon"
     "c1" url "main" "clusters").

Abbreviation build :=
  (buildWorkingTree manifests client host "argocd" "arlon" "c1" url "main"
     "clusters").

(** The session after a first deploy of the profile [p1]. *)
Abbreviation deployed := ((deploy "p1" session).2).

(** The tree that this deploy pushed. *)
Definition pushed : gogit.Tree :=
  default ∅ (head (default [] (gogit.remote deployed
                                 !! (url, "refs/heads/main")))).

Definition repository (s : gogit.Session) : gogit.Repository :=
  default {| gogit.origin := ""; gogit.branch := ""; gogit.commits := [];
             gogit.Filesystem := gogit.checkout ∅ |} (gogit.repo s).

Definition worktree (s : gogit.Session) : gmap (list string) bytes :=
  billy.files (gogit.Filesystem (repository s)).

Abbreviation mgmtPath := (path.Join ["clusters"; "c1"; "mgmt"]).
Abbreviation workloadPath := (path.Join ["clusters"; "c1"; "workload"]).

Definition inlineA : inlineBundle := {| name := "a"; data := Some (text "X") |}.
Definition noPayload : inlineBundle := {| name := "n"; data := None |}.

End Sample.

(** * A small cluster, to run the bundle command on *)
Module Fleet.
Import apiserver.

Definition config : Config := {| invalid := None; unreachable := None |}.

(** The bundles [a] and [b] and two profiles, one of which ends its bundle
    list with a comma. *)
Definition cluster : Cluster :=
  {| secrets := {[ ("arlon", "a") := Sample.bundleA;
                   ("arlon", "b") := Sample.bundleB;
                   ("argocd", "fleet") := Sample.repoSecret ]};
     configMaps := {[ ("arlon", "p1") := Sample.profile "a,b";
                      ("arlon", "p4") := Sample.profile "a," ]} |}.

Definition list : string → string → result (list Secret) :=
  SecretsList Sample.client.

(** The cluster once the bundle [a] was deleted. *)
Abbreviation deleted := ((bundle.deleteBundle config "arlon" "a" cluster).2).

(** A profile that declares a bundle that no secret stands for. *)
Definition client : Clientset :=
  {| SecretsList := SecretsList Sample.client;
     SecretsGet := SecretsGet Sample.client;
     ConfigMapsGet := λ ns configMapName,
       if decide (configMapName = "p3") then Ok (Sample.profile "a,b,x,e")
       else ConfigMapsGet Sample.client ns configMapName |}.

(** A host from which the remote cannot be reached. *)
Definition offline : gogit.Host :=
  {| gogit.MkdirTemp := ("/tmp/arlon-2", None);
     gogit.cloneFault := Some "authentication required";
     gogit.worktreeFault := None;
     gogit.pushFault := None |}.


(** A repository with a file where the clusters' directory would go. *)
Definition taken : gogit.Tree := {[ ["clusters"] := Sample.text "taken" ]}.

End Fleet.

(** * Theorems *)

(** ** Strings *)

Lemma Compare_eq_0 (a b : string) : gostrings.Compare a b = 0%Z ↔ a = b.
Proof.
  unfold gostrings.Compare. split.
  - destruct (String.compare a b) eqn:E; try discriminate.
    intros _. by apply String.compare_eq_iff.
  - intros ->. assert (String.compare b b = Eq) as ->; [|done].
    induction b as [|c b IH]; simpl; [done|].
    rewrite IH. unfold Ascii.compare. by rewrite N.compare_refl.
Qed.

Lemma append_cons (c : ascii) (a b : string) :
  String c a +:+ b = String c (a +:+ b).
Proof. reflexivity. Qed.

Lemma length_append (a b : string) :
  String.length (a +:+ b) = String.length a + String.length b.
Proof.
  induction a as [|c a IH]; [done|].
  rewrite append_cons. simpl. by rewrite IH.
Qed.

Lemma append_assoc (a b c : string) : (a +:+ b) +:+ c = a +:+ (b +:+ c).
Proof.
  induction a as [|x a IH]; [done|]. rewrite !append_cons. by rewrite IH.
Qed.

Lemma append_nil_r (a : string) : a +:+ "" = a.
Proof.
  induction a as [|x a IH]; [done|]. rewrite append_cons. by rewrite IH.
Qed.

Lemma append_slash_ne (u : string) : u +:+ "/" ≠ u.
Proof.
  intros E. apply (f_equal String.length) in E.
  rewrite length_append in E. simpl in E. lia.
Qed.

(** ** ConstructRootApp *)

Lemma helmParams_loop (cm : ConfigMap) (ks : list string)
    (acc : list HelmParameter) :
  fold_left
    (λ helmParams key,
       let val := index (ConfigMapData cm) key in
       if decide (val ≠ "")
       then helmParams ++ [{| Name := key; Value := val |}]
       else helmParams) ks acc
  = acc ++ omap (λ key,
                   match ConfigMapData cm !! key with
                   | Some val =>
                       if decide (val = "") then None
                       else Some {| Name := key; Value := val |}
                   | None => None
                   end) ks.
Proof.
  revert acc. induction ks as [|k ks IH]; intros acc; simpl.
  - by rewrite app_nil_r.
  - rewrite IH. unfold index.
    destruct (ConfigMapData cm !! k) as [v|]; simpl.
    + destruct (decide (v = "")), (decide (v ≠ "")); try done.
      by rewrite <- app_assoc.
    + by destruct (decide ("" ≠ "")).
Qed.

Lemma omap_keyed_sublist (f : string → option HelmParameter) (ks : list string) :
  (∀ k p, f k = Some p → Name p = k) →
  sublist (Name <$> omap f ks) ks.
Proof.
  intros Hf. induction ks as [|k ks IH]; simpl; [constructor|].
  destruct (f k) as [p|] eqn:E; simpl.
  - rewrite (Hf _ _ E). by constructor.
  - by constructor.
Qed.

(** C3: the parameter list of the root application starts with
    [clusterName = <clusterName>] and goes on with exactly the whitelisted
    keys whose value in the cluster-specification record is present and not
    empty, in the order of the whitelist; a missing or empty key is left out,
    never passed on with an empty value. *)
Theorem ConstructRootApp_helm_parameters (kubeClient : Clientset)
    (argocdNs arlonNs clusterName repoUrl repoBranch basePath
       clusterSpecName : string) :
  match ConfigMapsGet kubeClient arlonNs clusterSpecName with
  | Ok cm =>
      ∃ app,
        ConstructRootApp kubeClient argocdNs arlonNs clusterName repoUrl
          repoBranch basePath clusterSpecName = Ok app
        ∧ Source_Helm_Parameters app
          = {| Name := "clusterName"; Value := clusterName |}
            :: sizingParameters cm
        ∧ sublist (Name <$> sizingParameters cm) keys
        ∧ Forall (λ p, Value p ≠ ""
                       ∧ ConfigMapData cm !! Name p = Some (Value p))
            (sizingParameters cm)
        ∧ (∀ key val, key ∈ keys → ConfigMapData cm !! key = Some val →
             val ≠ "" →
             {| Name := key; Value := val |} ∈ sizingParameters cm)
        ∧ (∀ key, ConfigMapData cm !! key = None
                  ∨ ConfigMapData cm !! key = Some "" →
             Forall (λ p, Name p ≠ key) (sizingParameters cm))
  | Error err =>
      ConstructRootApp kubeClient argocdNs arlonNs clusterName repoUrl
        repoBranch basePath clusterSpecName
      = Error ("failed to get clusterspec configmap: " +:+ err)
  end.
Proof.
  unfold ConstructRootApp.
  destruct (ConfigMapsGet kubeClient arlonNs clusterSpecName) as [cm|err];
    [|done].
  eexists. split; [reflexivity|]. cbn [Source_Helm_Parameters].
  assert (Forall (λ p, Value p ≠ ""
                       ∧ ConfigMapData cm !! Name p = Some (Value p))
            (sizingParameters cm)) as Hall.
  { unfold sizingParameters. apply Forall_forall. intros p Hp.
    apply list_elem_of_In, list_elem_of_omap in Hp as (k & _ & Hk).
    destruct (ConfigMapData cm !! k) as [v|] eqn:E; [|done].
    destruct (decide (v = "")); [done|]. by injection Hk as <-. }
  split; [|split; [|split; [done|split]]].
  - rewrite helmParams_loop. reflexivity.
  - apply omap_keyed_sublist. intros k p Hp.
    destruct (ConfigMapData cm !! k) as [v|]; [|done].
    destruct (decide (v = "")); [done|]. by injection Hp as <-.
  - intros key val Hkey Hval Hne. unfold sizingParameters.
    apply list_elem_of_omap. exists key. split; [done|].
    rewrite Hval. by destruct (decide (val = "")).
  - intros key Hkey. eapply Forall_impl; [|exact Hall].
    intros p [Hne Hp] E. rewrite E in Hp.
    destruct Hkey as [Hk|Hk]; rewrite Hk in Hp.
    + done.
    + injection Hp as Hp. by symmetry in Hp.
Qed.


Lemma startsFailed_orReturn {S A} (m : SE S A) (errorf : string → string)
    (s : S) :
  (∀ err, ∃ rest, errorf err = "failed " +:+ rest) →
  startsFailed (orReturn m errorf s).1.
Proof.
  intros H. unfold orReturn. destruct (m s) as [[a|err] s']; simpl; [done|].
  apply H.
Qed.

Lemma startsFailed_bind {S A B} (m : SE S A) (k : A → SE S B) (s : S) :
  startsFailed (m s).1 →
  (∀ a s', startsFailed (k a s').1) →
  startsFailed (bind m k s).1.
Proof.
  intros Hm Hk. unfold bind. destruct (m s) as [[a|err] s']; simpl in *.
  - apply Hk.
  - done.
Qed.

Lemma notFound_not_failed (repoUrl rest : string) :
  notFound repoUrl ≠ "failed " +:+ rest.
Proof. unfold notFound. rewrite !append_cons. discriminate. Qed.

Ltac failed_prefix :=
  repeat first
    [ apply startsFailed_bind; [|intros ? ?]
    | apply startsFailed_orReturn; intros ?; eexists;
      rewrite ?append_assoc; reflexivity
    | match goal with
      | |- context [if negb ?b then _ else _] => destruct b; simpl
      end
    | exact I ].

(** ** Credential resolution *)

Lemma findRepoCreds_spec (repoUrl : string) (items : list Secret) :
  match findRepoCreds repoUrl items with
  | Some creds =>
      ∃ before repoSecret after,
        items = before ++ repoSecret :: after
        ∧ Forall (λ s, urlField s ≠ repoUrl) before
        ∧ urlField repoSecret = repoUrl
        ∧ creds = credsOf repoSecret
  | None => Forall (λ s, urlField s ≠ repoUrl) items
  end.
Proof.
  induction items as [|s items IH]; simpl; [constructor|].
  fold (urlField s).
  destruct (decide (gostrings.Compare repoUrl (urlField s) = 0%Z)) as [E|E].
  - apply Compare_eq_0 in E. exists [], s, items. by repeat split.
  - assert (urlField s ≠ repoUrl) as Hne.
    { intros <-. apply E. by apply Compare_eq_0. }
    destruct (findRepoCreds repoUrl items) as [creds|].
    + destruct IH as (before & r & after & -> & Hb & Hr & ->).
      exists (s :: before), r, after. repeat split; [|done]. by constructor.
    + by constructor.
Qed.

Lemma findRepoCreds_None (repoUrl : string) (items : list Secret) :
  findRepoCreds repoUrl items = None
  ↔ Forall (λ s, urlField s ≠ repoUrl) items.
Proof.
  split.
  - intros E. pose proof (findRepoCreds_spec repoUrl items) as H.
    by rewrite E in H.
  - intros Hall. pose proof (findRepoCreds_spec repoUrl items) as H.
    destruct (findRepoCreds repoUrl items) as [creds|]; [|done].
    destruct H as (before & r & after & -> & _ & Hr & _).
    apply Forall_app in Hall as [_ Hall]. by inversion Hall.
Qed.

Section Deploy.

Variable manifests : list DirEntry.
Variable CommitChanges : string → SE gogit.Repository bool.

(** C5: credential resolution takes the first record whose [url] is the
    target URL, byte for byte; a record whose URL has one more slash at
    its end is not taken; and the deploy stops with the error for a
    repository that is not registered, before any other step, exactly
    when the listing holds no record with that URL. *)
Theorem credentials_first_exact_match (kubeClient : Clientset)
    (host : gogit.Host)
    (argocdNs arlonNs clusterName repoUrl repoBranch basePath
       profileName : string) (s : gogit.Session) (other : Secret) :
  (urlField other = repoUrl +:+ "/" → findRepoCreds repoUrl [other] = None)
  ∧ match SecretsList kubeClient argocdNs
            "argocd.argoproj.io/secret-type=repository" with
    | Error _ => True
    | Ok items =>
        match findRepoCreds repoUrl items with
        | Some creds =>
            ∃ before repoSecret after,
              items = before ++ repoSecret :: after
              ∧ Forall (λ r, urlField r ≠ repoUrl) before
              ∧ urlField repoSecret = repoUrl
              ∧ creds = credsOf repoSecret
        | None => Forall (λ r, urlField r ≠ repoUrl) items
        end
        ∧ (Forall (λ r, urlField r ≠ repoUrl) items
           ↔ (DeployToGit manifests CommitChanges kubeClient host argocdNs
                arlonNs clusterName repoUrl repoBranch basePath profileName
                s).1 = Error (notFound repoUrl))
        ∧ (Forall (λ r, urlField r ≠ repoUrl) items
           → (DeployToGit manifests CommitChanges kubeClient host argocdNs
                arlonNs clusterName repoUrl repoBranch basePath profileName
                s).2 = s)
    end.
Proof.
  split.
  { intros Hr. apply findRepoCreds_None.
    constructor; [|constructor]. rewrite Hr. apply append_slash_ne. }
  destruct (SecretsList kubeClient argocdNs
              "argocd.argoproj.io/secret-type=repository")
    as [items|err] eqn:Hlist; [|done].
  split; [apply findRepoCreds_spec|].
  assert (∀ A (k : list Secret → SE gogit.Session A),
            bind (orReturn (pure_call (SecretsList kubeClient argocdNs
                      "argocd.argoproj.io/secret-type=repository"))
                    (λ err, "failed to list secrets: " +:+ err)) k s
            = k items s) as Hstart.
  { intros A k. unfold bind, orReturn, pure_call. by rewrite Hlist. }
  unfold DeployToGit. rewrite Hstart. split.
  - split.
    + intros Hall. apply findRepoCreds_None in Hall. by rewrite Hall.
    + intros Herr. apply findRepoCreds_None.
      destruct (findRepoCreds repoUrl items) as [creds|]; [|done].
      exfalso.
      assert (startsFailed (A:=unit) (Error (notFound repoUrl)))
        as [rest Hrest]; [|by apply notFound_not_failed in Hrest].
      rewrite <- Herr. destruct (gogit.MkdirTemp host) as [tmpDir mkErr].
      failed_prefix.
  - intros Hall. apply findRepoCreds_None in Hall. by rewrite Hall.
Qed.

End Deploy.

(** ** Bundle collection *)


Lemma index_eq_Some (m : gmap string string) (key v : string) :
  v ≠ "" → (index m key = v ↔ m !! key = Some v).
Proof.
  intros Hv. unfold index. destruct (m !! key) as [w|]; simpl.
  - split; [by intros ->|by intros [= ->]].
  - split; [by intros <-|done].
Qed.

Lemma rangeBundleItems_resolved (secretsApi : string → result Secret)
    (bundleItems : list string) (inlineBundles : list inlineBundle) :
  Forall (λ n, is_ok (secretsApi n) = true) bundleItems →
  rangeBundleItems secretsApi bundleItems inlineBundles
  = Ok (inlineBundles ++ declaredInline secretsApi bundleItems).
Proof.
  revert inlineBundles.
  induction bundleItems as [|n rest IH]; intros acc Hall; simpl.
  - unfold declaredInline. simpl. by rewrite app_nil_r.
  - inversion Hall as [|? ? Hn Hrest]; subst.
    unfold declaredInline. rewrite filter_cons.
    destruct (secretsApi n) as [secr|err] eqn:Hget; [|done].
    destruct (decide (index (SecretLabels secr) "bundle-type" ≠ "inline"))
      as [Hl|Hl].
    + rewrite decide_False.
      * by apply IH.
      * intros (secr' & Hs & Hm). rewrite Hget in Hs. injection Hs as <-.
        apply Hl. by apply index_eq_Some.
    + rewrite decide_True.
      * rewrite IH by done. unfold declaredInline. simpl.
        unfold payloadOf at 2. rewrite Hget. by rewrite <- app_assoc.
      * exists secr. split; [done|]. apply index_eq_Some; [done|].
        by destruct (decide (index (SecretLabels secr) "bundle-type"
                             = "inline")).
Qed.

(** C7: for a profile that declares the bundles [b1, ..., bn], each of which
    the store resolves, the collector returns those that carry the inline
    marker, in the order of the declaration and each with its payload; a
    bundle without the marker is left out and is no error. *)
Theorem getInlineBundles_declared_order (corev1 : Clientset)
    (arlonNs profileName bundles : string) (profile : ConfigMap) :
  profileName ≠ "" →
  ConfigMapsGet corev1 arlonNs profileName = Ok profile →
  ConfigMapLabels profile !! "arlon-type" = Some "profile" →
  ConfigMapData profile !! "bundles" = Some bundles →
  bundles ≠ "" →
  Forall (λ b, is_ok (SecretsGet corev1 arlonNs b) = true)
    (gostrings.Split bundles ",") →
  ∃ inlineBundles,
    getInlineBundles profileName corev1 arlonNs = Ok inlineBundles
    ∧ name <$> inlineBundles
      = filter (isInline (SecretsGet corev1 arlonNs))
          (gostrings.Split bundles ",")
    ∧ Forall (λ b, data b = payloadOf (SecretsGet corev1 arlonNs) (name b))
        inlineBundles.
Proof.
  intros Hname Hget Hlabel Hdata Hne Hall.
  exists (declaredInline (SecretsGet corev1 arlonNs)
            (gostrings.Split bundles ",")).
  split; [|split].
  - unfold getInlineBundles. rewrite decide_False by done. rewrite Hget.
    rewrite decide_False.
    2:{ intros H. apply H. by apply index_eq_Some. }
    assert (index (ConfigMapData profile) "bundles" = bundles) as ->.
    { by apply index_eq_Some. }
    rewrite decide_False by done.
    by rewrite rangeBundleItems_resolved.
  - unfold declaredInline. rewrite <- list_fmap_compose.
    by rewrite list_fmap_id.
  - unfold declaredInline. apply Forall_fmap. by apply Forall_true.
Qed.

(** C8: with the empty profile name the collector returns no bundle and no
    error. *)
Theorem getInlineBundles_empty_profile (corev1 : Clientset) (arlonNs : string) :
  getInlineBundles "" corev1 arlonNs = Ok [].
Proof. reflexivity. Qed.

(** ** The monad of state and errors *)

Lemma bind_assoc {S A B C} (m : SE S A) (k : A → SE S B) (k' : B → SE S C)
    (s : S) :
  bind (bind m k) k' s = bind m (λ a, bind (k a) k') s.
Proof. unfold bind. by destruct (m s) as [[a|err] s']. Qed.

Lemma bind_ext {S A B} (m : SE S A) (k k' : A → SE S B) (s : S) :
  (∀ a s', k a s' = k' a s') → bind m k s = bind m k' s.
Proof. intros H. unfold bind. by destruct (m s) as [[a|err] s']. Qed.

Lemma bind_Ok {S A B} (m : SE S A) (k : A → SE S B) (s s' : S) (a : A) :
  m s = (Ok a, s') → bind m k s = k a s'.
Proof. intros H. unfold bind. by rewrite H. Qed.

Lemma bind_Error {S A B} (m : SE S A) (k : A → SE S B) (s s' : S)
    (msg : string) :
  m s = (Error msg, s') → bind m k s = (Error msg, s').
Proof. intros H. unfold bind. by rewrite H. Qed.

Lemma orReturn_Ok {S A} (m : SE S A) (errorf : string → string) (s s' : S)
    (a : A) :
  m s = (Ok a, s') → orReturn m errorf s = (Ok a, s').
Proof. intros H. unfold orReturn. by rewrite H. Qed.

Lemma orReturn_Error {S A} (m : SE S A) (errorf : string → string) (s s' : S)
    (msg : string) :
  m s = (Error msg, s') → orReturn m errorf s = (Error (errorf msg), s').
Proof. intros H. unfold orReturn. by rewrite H. Qed.

Lemma bind_inv_Ok {S A B} (m : SE S A) (k : A → SE S B) (s s2 : S) (b : B) :
  bind m k s = (Ok b, s2) → ∃ a s1, m s = (Ok a, s1) ∧ k a s1 = (Ok b, s2).
Proof.
  unfold bind. destruct (m s) as [[a|err] s1]; [|done]. intros H. eauto.
Qed.

Lemma orReturn_inv_Ok {S A} (m : SE S A) (errorf : string → string)
    (s s' : S) (a : A) :
  orReturn m errorf s = (Ok a, s') → m s = (Ok a, s').
Proof. unfold orReturn. by destruct (m s) as [[a'|err] s1]. Qed.

Lemma forRange_app {S A} (l1 l2 : list A) (body : A → SE S unit) (s : S) :
  forRange (l1 ++ l2) body s
  = (run_ forRange l1 body in forRange l2 body) s.
Proof.
  revert s. induction l1 as [|x l1 IH]; intros s; simpl; [done|].
  rewrite bind_assoc. apply bind_ext. intros _ s'. apply IH.
Qed.

(** ** The stages of a deploy *)
Section Stages.

Variable manifests : list DirEntry.
Variable CommitChanges : string → SE gogit.Repository bool.
Variable kubeClient : Clientset.
Variable host : gogit.Host.
Variables argocdNs arlonNs clusterName repoUrl repoBranch basePath
  profileName : string.

Lemma DeployToGit_stages (s : gogit.Session) :
  DeployToGit manifests CommitChanges kubeClient host argocdNs arlonNs
    clusterName repoUrl repoBranch basePath profileName s
  = (run built <- buildWorkingTree manifests kubeClient host argocdNs
                    arlonNs clusterName repoUrl repoBranch basePath
                    profileName in
     run changed <- orReturn (gogit.onRepository (CommitChanges built.1))
                      (λ err, "failed to commit changes: " +:+ err) in
     if negb changed then ret ()
     else orReturn (gogit.Push host built.2)
            (λ err, "failed to push to remote repository: " +:+ err)) s.
Proof.
  unfold DeployToGit, buildWorkingTree.
  rewrite bind_assoc. apply bind_ext. intros secrets s1.
  destruct (findRepoCreds repoUrl secrets) as [creds|]; [|done].
  rewrite bind_assoc. apply bind_ext. intros inlineBundles s2.
  destruct (gogit.MkdirTemp host) as [tmpDir mkErr]. cbn [fst snd].
  do 4 (rewrite bind_assoc; apply bind_ext; intros _ ?).
  reflexivity.
Qed.

End Stages.


Lemma pushes_app (l1 l2 : list gogit.Event) :
  pushes (l1 ++ l2) = pushes l1 ++ pushes l2.
Proof. apply List.filter_app. Qed.

Lemma onRepository_session {A} (m : SE gogit.Repository A)
    (s : gogit.Session) :
  gogit.remote (gogit.onRepository m s).2 = gogit.remote s
  ∧ gogit.events (gogit.onRepository m s).2 = gogit.events s.
Proof.
  unfold gogit.onRepository. destruct (gogit.repo s) as [r|]; [|done].
  by destruct (m r).
Qed.

Lemma PlainCloneContext_session (host : gogit.Host) (dir url ref : string)
    (auth : gogit.BasicAuth) (s : gogit.Session) :
  gogit.remote (gogit.PlainCloneContext host dir url auth ref s).2
  = gogit.remote s
  ∧ gogit.events (gogit.PlainCloneContext host dir url auth ref s).2
    = gogit.events s ++ [gogit.Cloned dir url ref auth].
Proof.
  unfold gogit.PlainCloneContext.
  destruct (gogit.cloneFault host); [done|].
  destruct (gogit.remote s !! (url, ref)) as [[|head older]|]; done.
Qed.

Lemma Worktree_session (host : gogit.Host) (s : gogit.Session) :
  (gogit.Worktree host s).2 = s.
Proof. unfold gogit.Worktree. by destruct (gogit.worktreeFault host). Qed.

Lemma orReturn_state {S A} (m : SE S A) (errorf : string → string) (s : S) :
  (orReturn m errorf s).2 = (m s).2.
Proof. unfold orReturn. by destruct (m s) as [[a|err] s']. Qed.

(** A property of the state that every step keeps is kept by the whole. *)
Lemma bind_keeps {S A B} (P : S → Prop) (m : SE S A) (k : A → SE S B) (s : S) :
  P (m s).2 → (∀ a s', P s' → P (k a s').2) → P (bind m k s).2.
Proof.
  intros Hm Hk. unfold bind. destruct (m s) as [[a|err] s']; simpl in *.
  - by apply Hk.
  - done.
Qed.

Section Publish.

Variable manifests : list DirEntry.
Variable CommitChanges : string → SE gogit.Repository bool.
Variable kubeClient : Clientset.
Variable host : gogit.Host.
Variables argocdNs arlonNs clusterName repoUrl repoBranch basePath
  profileName : string.

(** Up to change detection a deploy has pushed nothing and has left the
    remote as it was. *)
Lemma buildWorkingTree_quiet (s : gogit.Session) :
  let s1 := (buildWorkingTree manifests kubeClient host argocdNs arlonNs
               clusterName repoUrl repoBranch basePath profileName s).2 in
  gogit.remote s1 = gogit.remote s
  ∧ pushes (gogit.events s1) = pushes (gogit.events s).
Proof.
  set (P := λ s1, gogit.remote s1 = gogit.remote s
                  ∧ pushes (gogit.events s1) = pushes (gogit.events s)).
  change (P (buildWorkingTree manifests kubeClient host argocdNs arlonNs
               clusterName repoUrl repoBranch basePath profileName s).2).
  unfold buildWorkingTree.
  apply bind_keeps.
  { rewrite orReturn_state. by split. }
  intros secrets s1 H1.
  destruct (findRepoCreds repoUrl secrets) as [creds|]; [|done].
  apply bind_keeps.
  { by rewrite orReturn_state. }
  intros inlineBundles s2 H2. apply bind_keeps.
  { rewrite orReturn_state. destruct H2 as [Hr He].
    match goal with
    | |- context [gogit.PlainCloneContext ?h ?d ?u ?a ?r ?s] =>
        destruct (PlainCloneContext_session h d u r a s) as [Hr' He']
    end.
    split; [congruence|]. rewrite He', pushes_app, He. simpl.
    by rewrite app_nil_r. }
  intros _ s3 H3. apply bind_keeps.
  { by rewrite orReturn_state, Worktree_session. }
  intros _ s4 H4. apply bind_keeps.
  { rewrite orReturn_state. destruct H4 as [Hr He].
    match goal with
    | |- context [gogit.onRepository ?m ?s] =>
        destruct (onRepository_session m s) as [Hr' He']
    end.
    split; congruence. }
  intros _ s5 H5. apply bind_keeps.
  { rewrite orReturn_state. destruct H5 as [Hr He].
    match goal with
    | |- context [gogit.onRepository ?m ?s] =>
        destruct (onRepository_session m s) as [Hr' He']
    end.
    split; congruence. }
  intros _ s6 H6. done.
Qed.

(** C6: when change detection reports that the working tree is the cloned
    HEAD, the deploy returns success, the remote is what it was and no push
    was made; and whenever a deploy did make a push, change detection had
    reported a change before. *)
Theorem no_change_no_push (s s1 : gogit.Session)
    (built : string * gogit.BasicAuth) (r r' : gogit.Repository) :
  buildWorkingTree manifests kubeClient host argocdNs arlonNs clusterName
    repoUrl repoBranch basePath profileName s = (Ok built, s1) →
  gogit.repo s1 = Some r →
  CommitChanges built.1 r = (Ok false, r') →
  (DeployToGit manifests CommitChanges kubeClient host argocdNs arlonNs
     clusterName repoUrl repoBranch basePath profileName s
   = (Ok (), {| gogit.remote := gogit.remote s;
                gogit.events := gogit.events s1;
                gogit.repo := Some r' |})
   ∧ pushes (gogit.events s1) = pushes (gogit.events s))
  ∧ ∀ t : gogit.Session,
      pushes (gogit.events
                (DeployToGit manifests CommitChanges kubeClient host
                   argocdNs arlonNs clusterName repoUrl repoBranch basePath
                   profileName t).2)
      ≠ pushes (gogit.events t) →
      ∃ built1 t1 r1 r1',
        buildWorkingTree manifests kubeClient host argocdNs arlonNs
          clusterName repoUrl repoBranch basePath profileName t
        = (Ok built1, t1)
        ∧ gogit.repo t1 = Some r1
        ∧ CommitChanges built1.1 r1 = (Ok true, r1').
Proof.
  intros Hbuild Hrepo Hcommit. split.
  - pose proof (buildWorkingTree_quiet s) as [Hr He].
    rewrite Hbuild in Hr, He. simpl in Hr, He. split; [|done].
    rewrite DeployToGit_stages. rewrite (bind_Ok _ _ _ _ _ Hbuild).
    erewrite bind_Ok.
    2:{ apply orReturn_Ok. unfold gogit.onRepository.
        rewrite Hrepo, Hcommit. reflexivity. }
    simpl. by rewrite Hr.
  - intros t Hpush. rewrite DeployToGit_stages in Hpush.
    pose proof (buildWorkingTree_quiet t) as [_ He]. simpl in He.
    unfold bind at 1 in Hpush.
    destruct (buildWorkingTree manifests kubeClient host argocdNs arlonNs
                clusterName repoUrl repoBranch basePath profileName t)
      as [[built1|err] t1] eqn:Hb; simpl in *; [|congruence].
    unfold bind, orReturn, gogit.onRepository in Hpush.
    destruct (gogit.repo t1) as [r1|] eqn:Hr1; simpl in *; [|congruence].
    destruct (CommitChanges built1.1 r1) as [[[|]|err] r1'] eqn:Hc;
      simpl in *; try congruence.
    by exists built1, t1, r1, r1'.
Qed.

(** C10: the error of [os.MkdirTemp] is never read.  A deploy on a host
    where the call fails runs exactly as on one where it succeeds with the
    same path: once the credentials and the bundles are there, the next
    thing it does is clone into that path. *)
Theorem MkdirTemp_error_unread (s : gogit.Session) (items : list Secret)
    (creds : RepoCreds) (inlineBundles : list inlineBundle)
    (mkErr : string) :
  SecretsList kubeClient argocdNs
    "argocd.argoproj.io/secret-type=repository" = Ok items →
  findRepoCreds repoUrl items = Some creds →
  getInlineBundles profileName kubeClient arlonNs = Ok inlineBundles →
  let failing :=
    {| gogit.MkdirTemp := ((gogit.MkdirTemp host).1, Some mkErr);
       gogit.cloneFault := gogit.cloneFault host;
       gogit.worktreeFault := gogit.worktreeFault host;
       gogit.pushFault := gogit.pushFault host |} in
  let working :=
    {| gogit.MkdirTemp := ((gogit.MkdirTemp host).1, None);
       gogit.cloneFault := gogit.cloneFault host;
       gogit.worktreeFault := gogit.worktreeFault host;
       gogit.pushFault := gogit.pushFault host |} in
  DeployToGit manifests CommitChanges kubeClient failing argocdNs arlonNs
    clusterName repoUrl repoBranch basePath profileName s
  = DeployToGit manifests CommitChanges kubeClient working argocdNs arlonNs
      clusterName repoUrl repoBranch basePath profileName s
  ∧ ∃ later,
      gogit.events
        (DeployToGit manifests CommitChanges kubeClient failing argocdNs
           arlonNs clusterName repoUrl repoBranch basePath profileName s).2
      = gogit.events s
        ++ gogit.Cloned (gogit.MkdirTemp host).1 repoUrl
             (gogit.NewBranchReferenceName repoBranch)
             {| gogit.Username := Username creds;
                gogit.Password := Password creds |}
           :: later.
Proof.
  intros Hlist Hcreds Hbundles failing working. split; [reflexivity|].
  unfold DeployToGit.
  erewrite bind_Ok.
  2:{ apply orReturn_Ok. unfold pure_call. by rewrite Hlist. }
  rewrite Hcreds.
  erewrite bind_Ok.
  2:{ apply orReturn_Ok. unfold pure_call. by rewrite Hbundles. }
  cbn [gogit.MkdirTemp failing].
  set (P := λ s1 : gogit.Session, ∃ later,
              gogit.events s1
              = gogit.events s
                ++ gogit.Cloned (gogit.MkdirTemp host).1 repoUrl
                     (gogit.NewBranchReferenceName repoBranch)
                     {| gogit.Username := Username creds;
                        gogit.Password := Password creds |} :: later).
  match goal with |- ∃ later, gogit.events ?x = _ => change (P x) end.
  apply bind_keeps.
  { rewrite orReturn_state.
    match goal with
    | |- context [gogit.PlainCloneContext ?h ?d ?u ?a ?r ?s] =>
        destruct (PlainCloneContext_session h d u r a s) as [_ He]
    end.
    exists []. exact He. }
  intros _ s3 H3. apply bind_keeps.
  { by rewrite orReturn_state, Worktree_session. }
  intros _ s4 H4. apply bind_keeps.
  { rewrite orReturn_state. destruct H4 as [later He].
    match goal with
    | |- context [gogit.onRepository ?m ?s] =>
        destruct (onRepository_session m s) as [_ He']
    end.
    exists later. congruence. }
  intros _ s5 H5. apply bind_keeps.
  { rewrite orReturn_state. destruct H5 as [later He].
    match goal with
    | |- context [gogit.onRepository ?m ?s] =>
        destruct (onRepository_session m s) as [_ He']
    end.
    exists later. congruence. }
  intros _ s6 H6. apply bind_keeps.
  { rewrite orReturn_state. destruct H6 as [later He].
    match goal with
    | |- context [gogit.onRepository ?m ?s] =>
        destruct (onRepository_session m s) as [_ He']
    end.
    exists later. congruence. }
  intros changed s7 [later He]. destruct changed; simpl; [|by exists later].
  rewrite orReturn_state. unfold gogit.Push.
  destruct (gogit.repo s7) as [r|]; [|by exists later].
  destruct (gogit.pushFault host); simpl.
  - eexists. rewrite He. rewrite <- app_assoc. reflexivity.
  - case_decide; simpl; eexists; rewrite He, <- app_assoc; reflexivity.
Qed.

End Publish.

(** ** The worktree filesystem *)

Lemma list_byte_of_string_append (a b : string) :
  list_byte_of_string (a +:+ b)
  = list_byte_of_string a ++ list_byte_of_string b.
Proof.
  unfold list_byte_of_string. induction a as [|c a IH]; [done|].
  rewrite append_cons. simpl. by rewrite IH.
Qed.

Lemma elem_of_prefixes (k p : list string) :
  p ∈ billy.prefixes k ↔ p `prefix_of` k.
Proof.
  revert p. induction k as [|x k IH]; intros p; simpl.
  - rewrite list_elem_of_singleton. split.
    + intros ->. done.
    + intros H. by apply prefix_nil_inv in H.
  - rewrite elem_of_cons, list_elem_of_fmap. split.
    + intros [->|(q & -> & Hq)].
      * apply prefix_nil.
      * apply prefix_cons. by apply IH.
    + destruct p as [|y p]; [by left|]. intros H. right.
      pose proof (prefix_cons_inv_1 _ _ _ _ H) as ->.
      exists p. split; [done|]. apply IH.
      by apply prefix_cons_inv_2 in H.
Qed.

Lemma parent_length (k : list string) :
  k ≠ [] → length (billy.parent k) < length k.
Proof.
  intros Hk. unfold billy.parent. rewrite removelast_firstn_len.
  rewrite length_take. destruct k; [done|]. simpl. lia.
Qed.

Lemma self_not_above (k : list string) :
  k ≠ [] → k ∉ billy.prefixes (billy.parent k).
Proof.
  intros Hk Hin. apply elem_of_prefixes, prefix_length in Hin.
  pose proof (parent_length k Hk). lia.
Qed.

Lemma is_dir_mkdirs (k : list string) (fs : billy.Filesystem) :
  billy.is_dir {| billy.files := billy.files fs;
                  billy.dirs := list_to_set (billy.prefixes (billy.parent k))
                                ∪ billy.dirs fs |} k
  = billy.is_dir fs k.
Proof.
  unfold billy.is_dir. simpl. apply bool_decide_ext.
  split; (intros [->|H]; [by left|]).
  - destruct (decide (k = [])) as [->|Hk]; [by left|]. right.
    apply elem_of_union in H as [H|H]; [|done].
    apply elem_of_list_to_set in H. by apply self_not_above in H.
  - right. apply elem_of_union. by right.
Qed.

Lemma Create_Ok_iff (p : string) (fs fs' : billy.Filesystem)
    (dst : list string) :
  billy.Create p fs = (Ok dst, fs')
  ↔ billy.locate p = billy.Inside dst
    ∧ existsb (billy.is_file fs) (billy.prefixes (billy.parent dst)) = false
    ∧ billy.is_dir fs dst = false
    ∧ fs' = putAt dst [] fs.
Proof.
  unfold billy.Create.
  destruct (billy.locate p) as [k| |]; unfold fail.
  2,3: split; [done|by intros [? _]].
  unfold bind, billy.mkdirAllAt.
  destruct (existsb (billy.is_file fs) (billy.prefixes (billy.parent k)))
    eqn:Hfile.
  { split; [done|]. intros ([= <-] & H & _). congruence. }
  rewrite is_dir_mkdirs. destruct (billy.is_dir fs k) eqn:Hdir.
  { split; [done|]. intros ([= <-] & _ & H & _). congruence. }
  split.
  - intros [= <- <-]. done.
  - intros ([= <-] & _ & _ & ->). done.
Qed.

Lemma Write_putAt (dst : list string) (d d0 : bytes) (fs : billy.Filesystem) :
  billy.Write dst d (putAt dst d0 fs) = (Ok (), putAt dst (d0 ++ d) fs).
Proof.
  unfold billy.Write, putAt. simpl.
  rewrite lookup_insert_eq. simpl. by rewrite insert_insert_eq.
Qed.

Lemma execOp_Put (p : string) (d : bytes) (fs : billy.Filesystem) :
  execOp (Put p d) fs
  = match billy.Create p fs with
    | (Ok dst, _) => Some (putAt dst d fs)
    | (Error _, _) => None
    end.
Proof.
  unfold execOp.
  destruct (billy.Create p fs) as [[dst|msg] fs'] eqn:Hc; [|done].
  apply Create_Ok_iff in Hc as (_ & _ & _ & ->). by rewrite Write_putAt.
Qed.

(** ** Rendering the stub *)

Lemma Execute_created (nodes : list template.Node) (dst : list string)
    (data : string → option string) (texts : list string) (d0 : bytes)
    (fs : billy.Filesystem) :
  mapM (nodeText data) nodes = Some texts →
  template.Execute nodes dst data (putAt dst d0 fs)
  = (Ok (), putAt dst (d0 ++ list_byte_of_string (appendAll texts)) fs).
Proof.
  unfold template.Execute. revert texts d0.
  induction nodes as [|n nodes IH]; intros texts d0 Hm.
  - injection Hm as <-. simpl. by rewrite app_nil_r.
  - simpl in Hm. destruct (nodeText data n) as [t|] eqn:Ht; [|done].
    simpl in Hm.
    destruct (mapM (nodeText data) nodes) as [ts|] eqn:Hts; [|done].
    injection Hm as <-. simpl forRange.
    assert ((match n with
             | template.TextNode text =>
                 billy.Write dst (list_byte_of_string text)
             | template.FieldNode field =>
                 match data field with
                 | Some v => billy.Write dst (list_byte_of_string v)
                 | None => fail ("can't evaluate field " +:+ field)
                 end
             end) = billy.Write dst (list_byte_of_string t)) as ->.
    { destruct n as [text|field]; simpl in Ht.
      - by injection Ht as ->.
      - by rewrite Ht. }
    erewrite bind_Ok by apply Write_putAt.
    rewrite (IH ts) by done.
    simpl appendAll. by rewrite list_byte_of_string_append, app_assoc.
Qed.

Lemma Parse_appNodes : template.Parse appTmpl = Ok appNodes.
Proof. vm_compute. reflexivity. Qed.

Lemma appNodes_texts (clusterName bundleName workloadPath repoUrl : string) :
  ∃ texts,
    mapM (nodeText (AppSettings_field
            {| ClusterName := clusterName; BundleName := bundleName;
               WorkloadPath := workloadPath; AppNamespace := "argocd";
               DestinationNamespace := "default"; RepoUrl := repoUrl |}))
      appNodes = Some texts
    ∧ appendAll texts = stubText clusterName bundleName workloadPath repoUrl.
Proof. eexists. split; [vm_compute; reflexivity|reflexivity]. Qed.

(** ** Errors that stop a run *)

Lemma isError_bind_l {S A B} (m : SE S A) (k : A → SE S B) (s : S) :
  isError (m s).1 → isError (bind m k s).1 ∧ (bind m k s).2 = (m s).2.
Proof. unfold bind. by destruct (m s) as [[a|err] s']. Qed.

Lemma isError_bind_r {S A B} (m : SE S A) (k : A → SE S B) (s : S) :
  (∀ a s', isError (k a s').1) → isError (bind m k s).1.
Proof.
  intros Hk. unfold bind. destruct (m s) as [[a|err] s']; [apply Hk|done].
Qed.

Lemma execOps_app (ops1 ops2 : list Op) (fs : billy.Filesystem) :
  execOps (ops1 ++ ops2) fs
  = match execOps ops1 fs with
    | Some fs' => execOps ops2 fs'
    | None => None
    end.
Proof.
  revert fs. induction ops1 as [|op ops1 IH]; intros fs; simpl; [done|].
  destruct (execOp op fs); [apply IH|done].
Qed.

(** ** copyInlineBundles *)
Section Bundles.

Variables clusterName repoUrl mgmtPath workloadPath : string.

Let body : inlineBundle → SE billy.Filesystem unit :=
  copyInlineBundle appNodes clusterName repoUrl mgmtPath workloadPath.

Lemma copyInlineBundles_forRange (bundles : list inlineBundle)
    (fs : billy.Filesystem) :
  copyInlineBundles clusterName repoUrl mgmtPath workloadPath bundles fs
  = forRange bundles body fs.
Proof.
  unfold copyInlineBundles. destruct bundles as [|b bundles]; [done|].
  rewrite decide_False by done.
  erewrite bind_Ok; [reflexivity|].
  apply orReturn_Ok. unfold pure_call. by rewrite Parse_appNodes.
Qed.

(** A bundle with a payload: a directory and two files, or an error. *)
Lemma copyInlineBundle_ops (bundle : inlineBundle) (payload : bytes)
    (fs : billy.Filesystem) :
  data bundle = Some payload →
  match execOps (bundleOps clusterName repoUrl mgmtPath workloadPath
                   (name bundle) payload) fs with
  | Some fs' => body bundle fs = (Ok (), fs')
  | None => isError (body bundle fs).1
  end.
Proof.
  intros Hdata. unfold body, copyInlineBundle, bundleOps. cbn [execOps].
  unfold execOp at 1.
  destruct (billy.MkdirAll (path.Join [workloadPath; name bundle]) fs)
    as [[[]|msg] fs1] eqn:H1.
  2:{ erewrite bind_Error; [done|]. by apply orReturn_Error. }
  erewrite bind_Ok by (by apply orReturn_Ok).
  rewrite execOp_Put. fold (bundlePathOf workloadPath (name bundle)).
  destruct (billy.Create (bundlePathOf workloadPath (name bundle)) fs1)
    as [[dst|msg] fs2] eqn:H2.
  2:{ erewrite bind_Error; [done|]. by apply orReturn_Error. }
  erewrite bind_Ok by (by apply orReturn_Ok).
  apply Create_Ok_iff in H2 as (_ & _ & _ & ->). rewrite Hdata.
  erewrite bind_Ok by (apply orReturn_Ok, Write_putAt).
  rewrite app_nil_l. rewrite execOp_Put.
  fold (appPathOf mgmtPath (name bundle)).
  destruct (billy.Create (appPathOf mgmtPath (name bundle))
              (putAt dst payload fs1)) as [[dst2|msg] fs4] eqn:H4.
  2:{ erewrite bind_Error; [done|]. by apply orReturn_Error. }
  erewrite bind_Ok by (by apply orReturn_Ok).
  apply Create_Ok_iff in H4 as (_ & _ & _ & ->).
  destruct (appNodes_texts clusterName (name bundle) workloadPath repoUrl)
    as (texts & Hm & Ht).
  erewrite orReturn_Ok; [reflexivity|].
  rewrite (Execute_created _ _ _ _ _ _ Hm). by rewrite Ht.
Qed.

(** A bundle whose payload is nil: an error in every case, and the error
    that names the bundle once its file was created. *)
Lemma copyInlineBundle_nil (bundle : inlineBundle) (fs : billy.Filesystem) :
  data bundle = None →
  isError (body bundle fs).1
  ∧ ∀ fs1 fs2 dst,
      billy.MkdirAll (path.Join [workloadPath; name bundle]) fs = (Ok (), fs1) →
      billy.Create (bundlePathOf workloadPath (name bundle)) fs1
      = (Ok dst, fs2) →
      body bundle fs
      = (Error ("inline bundle " +:+ name bundle +:+ " has no data"), fs2).
Proof.
  intros Hdata. unfold body, copyInlineBundle.
  fold (bundlePathOf workloadPath (name bundle)). rewrite Hdata. split.
  - apply isError_bind_r. intros _ fs1. by apply isError_bind_r.
  - intros fs1 fs2 dst H1 H2.
    erewrite bind_Ok by (by apply orReturn_Ok).
    erewrite bind_Ok by (by apply orReturn_Ok). done.
Qed.

Lemma forRange_bundles_ops (bundles : list inlineBundle)
    (fs : billy.Filesystem) :
  Forall (λ b, is_Some (data b)) bundles →
  match execOps (bundlesOps clusterName repoUrl mgmtPath workloadPath bundles)
          fs with
  | Some fs' => forRange bundles body fs = (Ok (), fs')
  | None => isError (forRange bundles body fs).1
  end.
Proof.
  revert fs. induction bundles as [|b bundles IH]; intros fs Hall; [done|].
  inversion Hall as [|? ? [payload Hb] Hrest]; subst.
  unfold bundlesOps. cbn [flat_map]. rewrite execOps_app. rewrite Hb.
  change (default [] (Some payload)) with payload. cbn [forRange].
  pose proof (copyInlineBundle_ops b payload fs Hb) as Hone.
  destruct (execOps (bundleOps clusterName repoUrl mgmtPath workloadPath
                       (name b) payload) fs) as [fs1|].
  - rewrite (bind_Ok _ _ _ _ _ Hone). by apply IH.
  - by apply isError_bind_l.
Qed.

Lemma forRange_bundles_nil (bundles : list inlineBundle)
    (fs : billy.Filesystem) :
  Exists (λ b, data b = None) bundles →
  isError (forRange bundles body fs).1.
Proof.
  revert fs. induction bundles as [|b bundles IH]; intros fs Hex.
  - inversion Hex.
  - cbn [forRange]. destruct (data b) as [payload|] eqn:Hb.
    + inversion Hex as [? ? Hnil|? ? Hlater]; subst; [congruence|].
      apply isError_bind_r. intros _ fs1. by apply IH.
    + apply isError_bind_l. by apply copyInlineBundle_nil.
Qed.

Lemma copyInlineBundles_Ok_payloads (bundles : list inlineBundle)
    (fs fs' : billy.Filesystem) :
  copyInlineBundles clusterName repoUrl mgmtPath workloadPath bundles fs
  = (Ok (), fs') →
  Forall (λ b, is_Some (data b)) bundles.
Proof.
  rewrite copyInlineBundles_forRange. intros Hok.
  apply Forall_forall. intros b Hb.
  destruct (data b) as [payload|] eqn:Hdata; [done|].
  assert (isError (forRange bundles body fs).1) as Herr.
  { apply forRange_bundles_nil. apply List.Exists_exists. eauto. }
  by rewrite Hok in Herr.
Qed.

Lemma copyInlineBundles_Ok_iff (bundles : list inlineBundle)
    (fs fs' : billy.Filesystem) :
  copyInlineBundles clusterName repoUrl mgmtPath workloadPath bundles fs
  = (Ok (), fs')
  ↔ Forall (λ b, is_Some (data b)) bundles
    ∧ execOps (bundlesOps clusterName repoUrl mgmtPath workloadPath bundles)
        fs = Some fs'.
Proof.
  split.
  - intros Hok. pose proof (copyInlineBundles_Ok_payloads _ _ _ Hok) as Hall.
    split; [done|]. rewrite copyInlineBundles_forRange in Hok.
    pose proof (forRange_bundles_ops bundles fs Hall) as Hops.
    destruct (execOps _ fs) as [fs1|].
    + congruence.
    + by rewrite Hok in Hops.
  - intros [Hall Hops]. rewrite copyInlineBundles_forRange.
    pose proof (forRange_bundles_ops bundles fs Hall) as H.
    by rewrite Hops in H.
Qed.

End Bundles.

(** ** Requests and the files they leave *)

Lemma forRange_execOps {A} (body : A → SE billy.Filesystem unit)
    (ops : A → list Op) (l : list A) :
  Forall (λ x, ∀ fs, match execOps (ops x) fs with
                     | Some fs' => body x fs = (Ok (), fs')
                     | None => isError (body x fs).1
                     end) l →
  ∀ fs, match execOps (flat_map ops l) fs with
        | Some fs' => forRange l body fs = (Ok (), fs')
        | None => isError (forRange l body fs).1
        end.
Proof.
  induction l as [|x l IH]; intros Hall fs; [done|].
  inversion Hall as [|? ? Hx Hl]; subst.
  cbn [flat_map forRange]. rewrite execOps_app. specialize (Hx fs).
  destruct (execOps (ops x) fs) as [fs1|].
  - rewrite (bind_Ok _ _ _ _ _ Hx). by apply IH.
  - by apply isError_bind_l.
Qed.

Lemma MkdirAll_files (p : string) (fs fs' : billy.Filesystem) (r : result unit) :
  billy.MkdirAll p fs = (r, fs') → billy.files fs' = billy.files fs.
Proof.
  unfold billy.MkdirAll, billy.mkdirAllAt, ret, fail.
  destruct (billy.locate p); [case_match|..]; by intros [= <- <-].
Qed.

Lemma execOps_files (ops : list Op) (fs fs' : billy.Filesystem) :
  execOps ops fs = Some fs' →
  billy.files fs' = writeAll (putsOf ops) (billy.files fs).
Proof.
  revert fs. induction ops as [|op ops IH]; intros fs; simpl.
  - by intros [= <-].
  - destruct (execOp op fs) as [fs1|] eqn:Hop; [|done]. intros Hrest.
    rewrite (IH _ Hrest). destruct op as [p|p d]; simpl.
    + unfold execOp in Hop.
      destruct (billy.MkdirAll p fs) as [[[]|msg] fs2] eqn:Hm; [|done].
      injection Hop as <-. by rewrite (MkdirAll_files _ _ _ _ Hm).
    + rewrite execOp_Put in Hop.
      destruct (billy.Create p fs) as [[dst|msg] fs2] eqn:Hc; [|done].
      injection Hop as <-.
      apply Create_Ok_iff in Hc as (Hloc & _). unfold writeAll. simpl.
      by rewrite Hloc.
Qed.

Lemma execOps_located (ops : list Op) (fs fs' : billy.Filesystem) :
  execOps ops fs = Some fs' →
  Forall (λ e, ∃ k, billy.locate e.1 = billy.Inside k) (putsOf ops).
Proof.
  revert fs. induction ops as [|op ops IH]; intros fs; simpl.
  - constructor.
  - destruct (execOp op fs) as [fs1|] eqn:Hop; [|done]. intros Hrest.
    destruct op as [p|p d]; simpl; [by eapply IH|].
    constructor; [|by eapply IH].
    rewrite execOp_Put in Hop.
    destruct (billy.Create p fs) as [[dst|msg] fs2] eqn:Hc; [|done].
    apply Create_Ok_iff in Hc as (Hloc & _). by exists dst.
Qed.

Lemma writeAll_app (l1 l2 : list (string * bytes))
    (m : gmap (list string) bytes) :
  writeAll (l1 ++ l2) m = writeAll l2 (writeAll l1 m).
Proof. apply fold_left_app. Qed.

Lemma writeAll_other (l : list (string * bytes)) (k : list string)
    (m : gmap (list string) bytes) :
  Forall (λ e, billy.locate e.1 ≠ billy.Inside k) l →
  writeAll l m !! k = m !! k.
Proof.
  revert m. induction l as [|e l IH]; intros m Hall; [done|].
  inversion Hall as [|? ? He Hl]; subst. simpl. rewrite IH by done.
  destruct (billy.locate e.1) as [k'| |]; [|done..].
  apply lookup_insert_ne. congruence.
Qed.

(** The last file written to a place is the one that stays there. *)
Lemma writeAll_last (before after : list (string * bytes))
    (e : string * bytes) (k : list string) (m : gmap (list string) bytes) :
  billy.locate e.1 = billy.Inside k →
  Forall (λ e', billy.locate e'.1 ≠ billy.Inside k) after →
  writeAll (before ++ e :: after) m !! k = Some e.2.
Proof.
  intros Hk Hafter. rewrite writeAll_app. simpl. rewrite Hk.
  rewrite writeAll_other by done. apply lookup_insert_eq.
Qed.

(** ** copyManifests *)

Fixpoint DirEntry_tree_ind (P : DirEntry → Prop)
    (Hfile : ∀ n contents, P (RegularFile n contents))
    (Hdir : ∀ n entries, Forall P entries → P (Directory n entries))
    (e : DirEntry) : P e :=
  match e with
  | RegularFile n contents => Hfile n contents
  | Directory n entries =>
      Hdir n entries
        ((fix all (l : list DirEntry) : Forall P l :=
            match l with
            | [] => Forall_nil P
            | x :: l' =>
                Forall_cons P x l' (DirEntry_tree_ind P Hfile Hdir x) (all l')
            end) entries)
  end.

(** The loop over a directory is the recursive call of the source. *)
Lemma copyManifest_Directory (root mgmtPath n : string)
    (entries : list DirEntry) :
  copyManifest root mgmtPath (Directory n entries)
  = copyManifests entries (path.Join [root; n]) mgmtPath.
Proof.
  unfold copyManifests. cbn [copyManifest embed.Name].
  induction entries as [|i rest IH]; [done|].
  cbn [forRange]. by rewrite <- IH.
Qed.

Lemma copyManifest_ops (mgmtPath : string) (item : DirEntry) :
  ∀ root fs,
    match execOps (manifestOps root mgmtPath item) fs with
    | Some fs' => copyManifest root mgmtPath item fs = (Ok (), fs')
    | None => isError (copyManifest root mgmtPath item fs).1
    end.
Proof.
  induction item as [n contents|n entries IH] using DirEntry_tree_ind;
    intros root fs.
  - cbn [manifestOps copyManifest embed.Name execOps]. rewrite execOp_Put.
    set (dstPath := path.Join [mgmtPath; _]).
    destruct (billy.Create dstPath fs) as [[dst|msg] fs1] eqn:Hc.
    + erewrite bind_Ok by (by apply orReturn_Ok).
      apply Create_Ok_iff in Hc as (_ & _ & _ & ->).
      erewrite orReturn_Ok; [reflexivity|]. by rewrite Write_putAt.
    + erewrite bind_Error; [done|]. by apply orReturn_Error.
  - rewrite copyManifest_Directory. cbn [manifestOps embed.Name].
    unfold copyManifests. apply forRange_execOps.
    eapply Forall_impl; [|exact IH]. intros e He fs'. apply He.
Qed.

Lemma copyManifests_ops (manifests : list DirEntry) (mgmtPath : string)
    (fs : billy.Filesystem) :
  match execOps (flat_map (manifestOps "manifests" mgmtPath) manifests) fs with
  | Some fs' =>
      copyManifests (content manifests) "." mgmtPath fs = (Ok (), fs')
  | None => isError (copyManifests (content manifests) "." mgmtPath fs).1
  end.
Proof.
  pose proof (copyManifest_ops mgmtPath (Directory "manifests" manifests)
                "." fs) as H.
  cbn [manifestOps embed.Name] in H.
  change (path.Join ["."; "manifests"]) with "manifests" in H.
  unfold copyManifests, content. cbn [forRange].
  destruct (execOps _ fs) as [fs1|].
  - by erewrite bind_Ok by exact H.
  - by apply isError_bind_l.
Qed.

Lemma copyManifests_Ok_iff (manifests : list DirEntry) (mgmtPath : string)
    (fs fs' : billy.Filesystem) :
  copyManifests (content manifests) "." mgmtPath fs = (Ok (), fs')
  ↔ execOps (flat_map (manifestOps "manifests" mgmtPath) manifests) fs
    = Some fs'.
Proof.
  pose proof (copyManifests_ops manifests mgmtPath fs) as H.
  destruct (execOps _ fs) as [fs1|].
  - rewrite H. split; congruence.
  - split; [|done]. intros Hok. by rewrite Hok in H.
Qed.

(** ** Paths of valid names *)

Lemma Join_cons_cons (x y : string) (l : list string) (sep : string) :
  gostrings.Join (x :: y :: l) sep
  = x +:+ sep +:+ gostrings.Join (y :: l) sep.
Proof. reflexivity. Qed.

Lemma Join_snoc (l : list string) (n : string) :
  l ≠ [] →
  gostrings.Join (l ++ [n]) "/" = gostrings.Join l "/" +:+ "/" +:+ n.
Proof.
  induction l as [|x l IH]; [done|]. intros _.
  destruct l as [|y l]; [done|].
  change ((x :: y :: l) ++ [n]) with (x :: y :: (l ++ [n])).
  rewrite !Join_cons_cons.
  change (y :: l ++ [n]) with ((y :: l) ++ [n]).
  rewrite IH by done. by rewrite !append_assoc.
Qed.

Lemma Split_noSlash (x : string) :
  noSlash x = true → gostrings.Split x "/" = [x].
Proof.
  induction x as [|c x IH]; [done|]. simpl.
  intros [Hc Hx]%andb_prop. apply bool_decide_eq_true in Hc.
  rewrite decide_False by done. by rewrite IH.
Qed.

Lemma Split_append_slash (x rest : string) :
  noSlash x = true →
  gostrings.Split (x +:+ "/" +:+ rest) "/" = x :: gostrings.Split rest "/".
Proof.
  induction x as [|c x IH]; [done|]. simpl noSlash.
  intros [Hc Hx]%andb_prop. apply bool_decide_eq_true in Hc.
  rewrite append_cons. cbn [gostrings.Split].
  rewrite decide_False by done. by rewrite IH.
Qed.

Lemma validName_noSlash (n : string) : validName n = true → noSlash n = true.
Proof. unfold validName. by intros [_ H]%andb_prop. Qed.

Lemma validName_ne (n : string) :
  validName n = true → n ≠ "" ∧ n ≠ "." ∧ n ≠ "..".
Proof.
  unfold validName. intros [H _]%andb_prop. by apply bool_decide_eq_true in H.
Qed.

Lemma Split_Join (es : list string) :
  es ≠ [] → Forall (λ e, validName e = true) es →
  gostrings.Split (gostrings.Join es "/") "/" = es.
Proof.
  induction es as [|x es IH]; [done|]. intros _ Hall.
  inversion Hall as [|? ? Hx Hes]; subst.
  destruct es as [|y es].
  - by apply Split_noSlash, validName_noSlash.
  - rewrite Join_cons_cons.
    rewrite Split_append_slash by by apply validName_noSlash.
    by rewrite IH.
Qed.

Lemma elem_steps_valid (isRooted : bool) (es kept : list string) :
  Forall (λ e, validName e = true) es →
  fold_left (path.elem_step isRooted) es kept = rev es ++ kept.
Proof.
  revert kept. induction es as [|e es IH]; intros kept Hall; [done|].
  inversion Hall as [|? ? He Hes]; subst. simpl.
  rewrite IH by done. rewrite <- app_assoc. simpl.
  apply validName_ne in He as (H1 & H2 & H3).
  unfold path.elem_step. by rewrite !decide_False by done.
Qed.

Lemma Join_head (x : string) (l : list string) :
  ∃ rest, gostrings.Join (x :: l) "/" = x +:+ rest.
Proof.
  destruct l as [|y l].
  - exists "". by rewrite append_nil_r.
  - eexists. apply Join_cons_cons.
Qed.

Lemma rooted_Join (x : string) (l : list string) :
  validName x = true → path.rooted (gostrings.Join (x :: l) "/") = false.
Proof.
  intros Hx. destruct (Join_head x l) as [rest ->].
  pose proof (validName_ne _ Hx) as (Hne & _).
  apply validName_noSlash in Hx.
  destruct x as [|c x]; [done|]. simpl in Hx.
  apply andb_prop in Hx as [Hc _]. apply bool_decide_eq_true in Hc.
  rewrite append_cons. unfold path.rooted.
  destruct c as [[] [] [] [] [] [] [] []]; try done.
Qed.

Lemma Join_nonempty (x : string) (l : list string) :
  x ≠ "" → gostrings.Join (x :: l) "/" ≠ "".
Proof.
  intros Hx. destruct (Join_head x l) as [rest ->].
  destruct x as [|c x]; [done|]. by rewrite append_cons.
Qed.

Lemma elems_Join (es : list string) :
  es ≠ [] → Forall (λ e, validName e = true) es →
  path.elems (gostrings.Join es "/") = es.
Proof.
  intros Hne Hall. unfold path.elems. rewrite Split_Join by done.
  rewrite elem_steps_valid by done. rewrite app_nil_r. apply rev_involutive.
Qed.

Lemma Clean_Join (es : list string) :
  es ≠ [] → Forall (λ e, validName e = true) es →
  path.Clean (gostrings.Join es "/") = gostrings.Join es "/".
Proof.
  intros Hne Hall. unfold path.Clean. rewrite elems_Join by done.
  destruct es as [|x es]; [done|].
  inversion Hall as [|? ? Hx Hes]; subst.
  rewrite rooted_Join by done.
  rewrite decide_False; [done|].
  apply Join_nonempty. by apply validName_ne in Hx as (? & _).
Qed.

Lemma path_Join_valid (es : list string) :
  es ≠ [] → Forall (λ e, validName e = true) es →
  path.Join es = gostrings.Join es "/".
Proof.
  intros Hne Hall. destruct es as [|x es]; [done|].
  inversion Hall as [|? ? Hx Hes]; subst. cbn [path.Join].
  rewrite decide_False by (by apply validName_ne in Hx as (? & _)).
  by apply Clean_Join.
Qed.

Lemma path_Join_below (es : list string) (n : string) :
  es ≠ [] → Forall (λ e, validName e = true) es → validName n = true →
  path.Join [gostrings.Join es "/"; n] = gostrings.Join (es ++ [n]) "/".
Proof.
  intros Hne Hall Hn. cbn [path.Join].
  destruct es as [|x es]; [done|].
  rewrite decide_False.
  2:{ apply Join_nonempty. inversion Hall; subst.
      by apply validName_ne in H1 as (? & _). }
  change (gostrings.Join [gostrings.Join (x :: es) "/"; n] "/")
    with (gostrings.Join (x :: es) "/" +:+ "/" +:+ n).
  rewrite <- Join_snoc by done. apply Clean_Join; [by destruct es|].
  apply Forall_app. split; [done|]. by constructor.
Qed.

Lemma flat_map_fmap {A B C} (f : A → list C) (g : B → C) (h : A → list B)
    (l : list A) :
  Forall (λ x, f x = g <$> h x) l → flat_map f l = g <$> flat_map h l.
Proof.
  induction 1 as [|x l Hx Hl IH]; [done|].
  cbn [flat_map]. by rewrite fmap_app, Hx, IH.
Qed.

(** For a tree of valid names the code's paths are the artifact's own path
    below the management path. *)
Lemma manifestOps_artifacts (mgmtPath : string) (item : DirEntry) :
  validEntry item = true →
  ∀ (m : string) (ds : list string),
    Forall (λ e, validName e = true) (m :: ds) →
    manifestOps (gostrings.Join (m :: ds) "/") mgmtPath item
    = (λ a, Put (path.Join [mgmtPath; gostrings.Join (ds ++ a.1) "/"]) a.2)
        <$> artifactsOf item.
Proof.
  induction item as [n contents|n entries IH] using DirEntry_tree_ind;
    intros Hvalid m ds Hds; cbn [validEntry embed.Name] in Hvalid;
    apply andb_prop in Hvalid as [Hn Hentries].
  - cbn [manifestOps embed.Name artifactsOf].
    rewrite path_Join_below by done.
    assert (Forall (λ e, validName e = true) ((m :: ds) ++ [n])) as Hall.
    { apply Forall_app. split; [done|]. by constructor. }
    rewrite Split_Join by done. cbn [tail app].
    rewrite (path_Join_valid (ds ++ [n])); [done|by destruct ds|].
    by inversion Hall.
  - cbn [manifestOps embed.Name artifactsOf].
    rewrite path_Join_below by done.
    assert (Forall (λ e, validName e = true) (m :: (ds ++ [n]))) as Hall.
    { change (m :: (ds ++ [n])) with ((m :: ds) ++ [n]).
      apply Forall_app. split; [done|]. by constructor. }
    change ((m :: ds) ++ [n]) with (m :: (ds ++ [n])).
    rewrite <- list_fmap_compose. apply flat_map_fmap.
    apply Forall_forall. intros e He.
    apply forallb_forall with (x := e) in Hentries; [|done].
    rewrite List.Forall_forall in IH.
    rewrite (IH e He Hentries m (ds ++ [n]) Hall).
    apply list_fmap_ext. intros i a _. simpl. by rewrite <- app_assoc.
Qed.

Lemma putsOf_app (ops1 ops2 : list Op) :
  putsOf (ops1 ++ ops2) = putsOf ops1 ++ putsOf ops2.
Proof. apply omap_app. Qed.

Lemma putsOf_Put {A} (p : A → string) (d : A → bytes) (l : list A) :
  putsOf ((λ a, Put (p a) (d a)) <$> l) = (λ a, (p a, d a)) <$> l.
Proof.
  induction l as [|a l IH]; [done|].
  unfold putsOf in *. simpl in *. f_equal. exact IH.
Qed.

Lemma putsOf_manifests (mgmtPath : string) (manifests : list DirEntry) :
  forallb validEntry manifests = true →
  putsOf (flat_map (manifestOps "manifests" mgmtPath) manifests)
  = baseLayout mgmtPath manifests.
Proof.
  unfold baseLayout. induction manifests as [|e rest IH]; [done|].
  cbn [forallb flat_map]. intros [He Hrest]%andb_prop.
  rewrite putsOf_app, fmap_app, IH by done. f_equal.
  pose proof (manifestOps_artifacts mgmtPath e He "manifests" []) as H.
  change (gostrings.Join ["manifests"] "/") with "manifests" in H.
  rewrite H by (by repeat constructor).
  apply (putsOf_Put (λ a, path.Join [mgmtPath; gostrings.Join a.1 "/"]) snd).
Qed.

Lemma putsOf_bundles (clusterName repoUrl mgmtPath workloadPath : string)
    (bundles : list inlineBundle) :
  putsOf (bundlesOps clusterName repoUrl mgmtPath workloadPath bundles)
  = flat_map (bundleLayout clusterName repoUrl mgmtPath workloadPath) bundles.
Proof.
  unfold bundlesOps. induction bundles as [|b rest IH]; [done|].
  cbn [flat_map]. rewrite putsOf_app, IH. done.
Qed.

(** ** Running the same requests again *)

Lemma existsb_is_file_false (fs : billy.Filesystem) (l : list (list string)) :
  existsb (billy.is_file fs) l = false
  ↔ ∀ q, q ∈ l → billy.files fs !! q = None.
Proof.
  unfold billy.is_file. induction l as [|x l IH]; simpl.
  - split; [|done]. intros _ q Hq. by apply elem_of_nil in Hq.
  - rewrite orb_false_iff, IH, bool_decide_eq_false. split.
    + intros [Hx Hl] q [->|Hq]%elem_of_cons.
      * destruct (billy.files fs !! x) eqn:E; [|done]. destruct Hx. eauto.
      * by apply Hl.
    + intros H. split.
      * rewrite H; [by intros [? ?]|]. by left.
      * intros q Hq. apply H. by right.
Qed.

Lemma is_dir_false (fs : billy.Filesystem) (k : list string) :
  billy.is_dir fs k = false ↔ k ≠ [] ∧ k ∉ billy.dirs fs.
Proof.
  unfold billy.is_dir. rewrite bool_decide_eq_false. tauto.
Qed.

Lemma MkdirAll_Ok_iff (p : string) (fs fs' : billy.Filesystem) :
  billy.MkdirAll p fs = (Ok (), fs')
  ↔ match billy.locate p with
    | billy.Inside k =>
        (∀ q, q ∈ billy.prefixes k → billy.files fs !! q = None)
        ∧ fs' = {| billy.files := billy.files fs;
                   billy.dirs := list_to_set (billy.prefixes k)
                                 ∪ billy.dirs fs |}
    | billy.Parent => fs' = fs
    | billy.Crossed => False
    end.
Proof.
  unfold billy.MkdirAll, billy.mkdirAllAt, ret, fail.
  destruct (billy.locate p) as [k| |].
  - destruct (existsb (billy.is_file fs) (billy.prefixes k)) eqn:E.
    + split; [done|]. intros [H _].
      apply (proj2 (existsb_is_file_false _ _)) in H. congruence.
    + rewrite existsb_is_file_false in E. split.
      * by intros [= <-].
      * by intros [_ ->].
  - split; [by intros [= <-]|by intros ->].
  - done.
Qed.

Lemma execOp_Put_Some (p : string) (d : bytes) (fs fs' : billy.Filesystem) :
  execOp (Put p d) fs = Some fs'
  ↔ ∃ k, billy.locate p = billy.Inside k
         ∧ (∀ q, q ∈ billy.prefixes (billy.parent k) →
              billy.files fs !! q = None)
         ∧ k ≠ [] ∧ (k ∉ billy.dirs fs)
         ∧ fs' = putAt k d fs.
Proof.
  rewrite execOp_Put. split.
  - destruct (billy.Create p fs) as [[dst|msg] fs1] eqn:Hc; [|done].
    intros [= <-]. apply Create_Ok_iff in Hc as (Hloc & Hfile & Hdir & _).
    exists dst. rewrite existsb_is_file_false in Hfile.
    apply is_dir_false in Hdir as [? ?]. done.
  - intros (k & Hloc & Hfile & Hk & Hdir & ->).
    assert (billy.Create p fs = (Ok k, putAt k [] fs)) as ->; [|done].
    apply Create_Ok_iff. split; [done|]. split.
    + by apply existsb_is_file_false.
    + split; [|done]. by apply is_dir_false.
Qed.

Lemma execOp_Mkdir_Some (p : string) (fs fs' : billy.Filesystem) :
  execOp (Mkdir p) fs = Some fs' ↔ billy.MkdirAll p fs = (Ok (), fs').
Proof.
  unfold execOp.
  destruct (billy.MkdirAll p fs) as [[[]|msg] fs1]; split; congruence.
Qed.

Lemma grows_refl (fs : billy.Filesystem) : grows fs fs.
Proof. by split. Qed.

Lemma grows_trans (fs1 fs2 fs3 : billy.Filesystem) :
  grows fs1 fs2 → grows fs2 fs3 → grows fs1 fs3.
Proof.
  intros [Hd1 Hf1] [Hd2 Hf2]. split; [set_solver|]. intros k Hk. eauto.
Qed.

Lemma settled_grows (fs fs' : billy.Filesystem) (op : Op) :
  grows fs fs' → settled fs op → settled fs' op.
Proof.
  intros [Hd Hf]. destruct op as [p|p d]; simpl.
  - destruct (billy.locate p); [|done..]. intros H q Hq. apply Hd. eauto.
  - intros (k & Hloc & Hk & Hq). exists k. split; [done|]. split; [eauto|].
    intros q Hin. apply Hd. eauto.
Qed.

Lemma execOp_wellFormed (op : Op) (fs fs' : billy.Filesystem) :
  wellFormed fs → execOp op fs = Some fs' →
  wellFormed fs' ∧ grows fs fs' ∧ settled fs' op.
Proof.
  intros Hwf Hop. destruct op as [p|p d].
  - apply execOp_Mkdir_Some, MkdirAll_Ok_iff in Hop. simpl.
    destruct (billy.locate p) as [k| |];
      [|subst; split; [done|split; [apply grows_refl|done]]|done].
    destruct Hop as [Hfree ->]. split; [|split].
    + intros k' Hk'. simpl in *. destruct (Hwf k' Hk') as (Hne & Hnd & Hup).
      split; [done|]. split.
      * intros [Hin|Hin]%elem_of_union; [|done].
        apply elem_of_list_to_set in Hin. rewrite (Hfree _ Hin) in Hk'.
        by destruct Hk'.
      * intros q Hq. apply elem_of_union. right. eauto.
    + split; simpl; [set_solver|done].
    + simpl. intros q Hq. apply elem_of_union. left.
      by apply elem_of_list_to_set.
  - apply execOp_Put_Some in Hop as (k & Hloc & Hfree & Hk & Hdir & ->).
    split; [|split].
    + intros k' Hk'. unfold putAt in *. simpl in *.
      destruct (decide (k' = k)) as [->|Hne].
      * split; [done|]. split.
        -- intros [Hin|Hin]%elem_of_union; [|done].
           apply elem_of_list_to_set in Hin. by apply self_not_above in Hin.
        -- intros q Hq. apply elem_of_union. left.
           by apply elem_of_list_to_set.
      * rewrite lookup_insert_ne in Hk' by done.
        destruct (Hwf k' Hk') as (Hne' & Hnd & Hup).
        split; [done|]. split.
        -- intros [Hin|Hin]%elem_of_union; [|done].
           apply elem_of_list_to_set in Hin. rewrite (Hfree _ Hin) in Hk'.
           by destruct Hk'.
        -- intros q Hq. apply elem_of_union. right. eauto.
    + split; unfold putAt; simpl; [set_solver|].
      intros k' Hk'. destruct (decide (k = k')) as [->|Hne].
      * rewrite lookup_insert_eq. eauto.
      * by rewrite lookup_insert_ne.
    + simpl. exists k. split; [done|]. unfold putAt. simpl. split.
      * rewrite lookup_insert_eq. eauto.
      * intros q Hq. apply elem_of_union. left.
        by apply elem_of_list_to_set.
Qed.

Lemma execOps_wellFormed (ops : list Op) (fs fs' : billy.Filesystem) :
  wellFormed fs → execOps ops fs = Some fs' →
  wellFormed fs' ∧ grows fs fs' ∧ Forall (settled fs') ops.
Proof.
  revert fs. induction ops as [|op ops IH]; intros fs Hwf; simpl.
  - intros [= <-]. split; [done|]. split; [apply grows_refl|constructor].
  - destruct (execOp op fs) as [fs1|] eqn:Hop; [|done]. intros Hrest.
    destruct (execOp_wellFormed _ _ _ Hwf Hop) as (Hwf1 & Hg1 & Hs1).
    destruct (IH _ Hwf1 Hrest) as (Hwf' & Hg' & Hs').
    split; [done|]. split; [by eapply grows_trans|].
    constructor; [|done]. by eapply settled_grows.
Qed.

Lemma replay_op (final fs : billy.Filesystem) (op : Op) :
  wellFormed final → settled final op → within final fs →
  ∃ fs', execOp op fs = Some fs' ∧ within final fs'.
Proof.
  intros Hwf Hs [Hfiles Hdirs].
  assert (∀ q, q ∈ billy.dirs final → billy.files fs !! q = None) as Hfree.
  { intros q Hq. destruct (billy.files fs !! q) eqn:E; [|done].
    assert (is_Some (billy.files final !! q)) as Hf by (apply Hfiles; eauto).
    by destruct (Hwf q Hf) as (_ & Hnd & _). }
  destruct op as [p|p d]; simpl in Hs.
  - destruct (billy.locate p) as [k| |] eqn:Hloc; [| |done].
    + eexists. split.
      * apply execOp_Mkdir_Some, MkdirAll_Ok_iff. rewrite Hloc.
        split; [|reflexivity]. intros q Hq. apply Hfree. eauto.
      * split; simpl; [done|].
        intros q [Hq|Hq]%elem_of_union; [|by apply Hdirs].
        apply elem_of_list_to_set in Hq. eauto.
    + exists fs. split; [|done].
      apply execOp_Mkdir_Some, MkdirAll_Ok_iff. by rewrite Hloc.
  - destruct Hs as (k & Hloc & Hk & Hup).
    destruct (Hwf k Hk) as (Hne & Hnd & _).
    exists (putAt k d fs). split.
    + apply execOp_Put_Some. exists k. split; [done|].
      split; [intros q Hq; apply Hfree; eauto|].
      split; [done|]. split; [|done]. intros Hin. apply Hnd. by apply Hdirs.
    + split; unfold putAt; simpl.
      * intros k'. destruct (decide (k = k')) as [->|Hkk].
        -- rewrite lookup_insert_eq. split; [done|eauto].
        -- rewrite lookup_insert_ne by done. apply Hfiles.
      * intros q [Hq|Hq]%elem_of_union; [|by apply Hdirs].
        apply elem_of_list_to_set in Hq. eauto.
Qed.

Lemma replay_ops (final fs : billy.Filesystem) (ops : list Op) :
  wellFormed final → Forall (settled final) ops → within final fs →
  ∃ fs', execOps ops fs = Some fs' ∧ within final fs'.
Proof.
  intros Hwf Hall. revert fs.
  induction Hall as [|op ops Hop Hops IH]; intros fs Hin; simpl.
  - by exists fs.
  - destruct (replay_op final fs op Hwf Hop Hin) as (fs1 & -> & Hin1).
    by apply IH.
Qed.

(** ** Writing the same files again *)

Lemma writeAll_lookup (l : list (string * bytes)) (k : list string)
    (m : gmap (list string) bytes) :
  writeAll l m !! k
  = fold_left (λ acc e, if decide (billy.locate e.1 = billy.Inside k)
                        then Some e.2 else acc) l (m !! k).
Proof.
  revert m. induction l as [|e l IH]; intros m; [done|]. simpl.
  rewrite IH. f_equal. destruct (billy.locate e.1) as [k'| |].
  - destruct (decide (k' = k)) as [->|Hne].
    + rewrite decide_True by done. apply lookup_insert_eq.
    + rewrite decide_False by congruence. by apply lookup_insert_ne.
  - by rewrite decide_False.
  - by rewrite decide_False.
Qed.

Lemma overwrite_twice {A B} (f : B → option A) (l : list B) (x y : option A) :
  let step := λ acc e, match f e with Some d => Some d | None => acc end in
  fold_left step l x = fold_left step l y
  ∨ (fold_left step l x = x ∧ fold_left step l y = y).
Proof.
  intros step. revert x y. induction l as [|e l IH]; intros x y; simpl.
  - by right.
  - destruct (f e) as [d|] eqn:E.
    + left. assert (step x e = Some d) as -> by (unfold step; by rewrite E).
      by assert (step y e = Some d) as -> by (unfold step; by rewrite E).
    + assert (step x e = x) as -> by (unfold step; by rewrite E).
      assert (step y e = y) as -> by (unfold step; by rewrite E).
      apply IH.
Qed.

Lemma writeAll_idempotent (l : list (string * bytes))
    (m : gmap (list string) bytes) :
  writeAll l (writeAll l m) = writeAll l m.
Proof.
  apply map_eq. intros k. rewrite !writeAll_lookup.
  set (f := λ e : string * bytes,
              if decide (billy.locate e.1 = billy.Inside k)
              then Some e.2 else None).
  assert (∀ x, fold_left (λ acc e,
                            if decide (billy.locate e.1 = billy.Inside k)
                            then Some e.2 else acc) l x
               = fold_left (λ acc e, match f e with
                                     | Some d => Some d
                                     | None => acc
                                     end) l x) as Hf.
  { intros x. revert x. induction l as [|e l IH]; intros x; [done|]. simpl.
    rewrite IH. f_equal. unfold f. by case_decide. }
  rewrite !Hf.
  destruct (overwrite_twice f l
              (fold_left (λ acc e, match f e with
                                   | Some d => Some d
                                   | None => acc
                                   end) l (m !! k)) (m !! k)) as [H|[H _]];
    exact H.
Qed.

(** ** A checkout *)

Lemma elem_of_checkoutDirs (t : gogit.Tree) (q : list string) :
  q ∈ gogit.checkoutDirs t
  ↔ ∃ k, is_Some (t !! k) ∧ q ∈ billy.prefixes (billy.parent k).
Proof.
  unfold gogit.checkoutDirs. rewrite elem_of_union_list. split.
  - intros (X & HX & Hq). apply list_elem_of_fmap in HX as (k & -> & Hk).
    apply elem_of_elements, elem_of_dom in Hk.
    apply elem_of_list_to_set in Hq. eauto.
  - intros (k & Hk & Hq). eexists. split.
    + apply list_elem_of_fmap. exists k. split; [reflexivity|].
      by apply elem_of_elements, elem_of_dom.
    + by apply elem_of_list_to_set.
Qed.

Lemma checkout_wellFormed (t : gogit.Tree) :
  validTree t → wellFormed (gogit.checkout t).
Proof.
  intros Hvalid k [d Hk]. change (t !! k = Some d) in Hk.
  destruct (Hvalid k d Hk) as [Hne Hup]. split; [done|]. split.
  - intros (k' & [d' Hk'] & Hin)%elem_of_checkoutDirs.
    destruct (Hvalid k' d' Hk') as [_ Hup'].
    rewrite List.Forall_forall in Hup'.
    apply list_elem_of_In in Hin. specialize (Hup' _ Hin). congruence.
  - intros p Hp. apply elem_of_checkoutDirs. exists k. eauto.
Qed.

Lemma checkout_within (final : billy.Filesystem) :
  wellFormed final → within final (gogit.checkout (billy.files final)).
Proof.
  intros Hwf. split; [done|]. simpl.
  intros q (k & Hk & Hq)%elem_of_checkoutDirs.
  destruct (Hwf k Hk) as (_ & _ & Hup). eauto.
Qed.

(** The same requests on a checkout of what they left: all are served
    again, and the files are what they were. *)
Lemma replay_checkout (ops : list Op) (t : gogit.Tree)
    (final : billy.Filesystem) :
  validTree t →
  execOps ops (gogit.checkout t) = Some final →
  ∃ again,
    execOps ops (gogit.checkout (billy.files final)) = Some again
    ∧ billy.files again = billy.files final.
Proof.
  intros Hvalid Hrun.
  destruct (execOps_wellFormed _ _ _ (checkout_wellFormed t Hvalid) Hrun)
    as (Hwf & _ & Hsettled).
  destruct (replay_ops final _ ops Hwf Hsettled (checkout_within final Hwf))
    as (again & Hagain & _).
  exists again. split; [done|].
  rewrite (execOps_files _ _ _ Hagain). simpl.
  rewrite (execOps_files _ _ _ Hrun). simpl. apply writeAll_idempotent.
Qed.

(** ** A build, step by step *)

Lemma onRepository_run {A} (m : SE gogit.Repository A) (s : gogit.Session)
    (r r' : gogit.Repository) (res : result A) :
  gogit.repo s = Some r → m r = (res, r') →
  gogit.onRepository m s
  = (res, {| gogit.remote := gogit.remote s; gogit.events := gogit.events s;
             gogit.repo := Some r' |}).
Proof. intros Hr Hm. unfold gogit.onRepository. by rewrite Hr, Hm. Qed.

Lemma onWorktree_run {A} (m : SE billy.Filesystem A) (r : gogit.Repository)
    (fs' : billy.Filesystem) (res : result A) :
  m (gogit.Filesystem r) = (res, fs') →
  gogit.onWorktree m r
  = (res, {| gogit.origin := gogit.origin r; gogit.branch := gogit.branch r;
             gogit.commits := gogit.commits r; gogit.Filesystem := fs' |}).
Proof. intros Hm. unfold gogit.onWorktree. by rewrite Hm. Qed.

Lemma CommitChanges_same (tmpDir : string) (r : gogit.Repository)
    (head : gogit.Tree) (older : list gogit.Tree) :
  gogit.commits r = head :: older →
  billy.files (gogit.Filesystem r) = head →
  gitutils.CommitChanges tmpDir r = (Ok false, r).
Proof.
  intros Hc Hf. unfold gitutils.CommitChanges. rewrite Hc. simpl head.
  by rewrite decide_True.
Qed.

Lemma CommitChanges_differ (tmpDir : string) (r : gogit.Repository)
    (head : gogit.Tree) (older : list gogit.Tree) :
  gogit.commits r = head :: older →
  billy.files (gogit.Filesystem r) ≠ head →
  gitutils.CommitChanges tmpDir r
  = (Ok true, {| gogit.origin := gogit.origin r;
                 gogit.branch := gogit.branch r;
                 gogit.commits := billy.files (gogit.Filesystem r)
                                  :: head :: older;
                 gogit.Filesystem := gogit.Filesystem r |}).
Proof.
  intros Hc Hf. unfold gitutils.CommitChanges. rewrite Hc. simpl head.
  by rewrite decide_False.
Qed.

Section Build.

Variable manifests : list DirEntry.
Variable kubeClient : Clientset.
Variables argocdNs arlonNs clusterName repoUrl repoBranch basePath
  profileName : string.

Let mgmtPath := path.Join [basePath; clusterName; "mgmt"].
Let workloadPath := path.Join [basePath; clusterName; "workload"].
Let ref := gogit.NewBranchReferenceName repoBranch.
Let auth (creds : RepoCreds) : gogit.BasicAuth :=
  {| gogit.Username := Username creds; gogit.Password := Password creds |}.

Lemma buildWorkingTree_cloned (host : gogit.Host) (s : gogit.Session)
    (items : list Secret) (creds : RepoCreds) (bundles : list inlineBundle)
    (head : gogit.Tree) (older : list gogit.Tree) :
  SecretsList kubeClient argocdNs
    "argocd.argoproj.io/secret-type=repository" = Ok items →
  findRepoCreds repoUrl items = Some creds →
  getInlineBundles profileName kubeClient arlonNs = Ok bundles →
  gogit.cloneFault host = None →
  gogit.remote s !! (repoUrl, ref) = Some (head :: older) →
  gogit.worktreeFault host = None →
  let cloned :=
    clonedSession s (gogit.MkdirTemp host).1 repoUrl ref (auth creds)
      (head :: older) in
  buildWorkingTree manifests kubeClient host argocdNs arlonNs clusterName
    repoUrl repoBranch basePath profileName s
  = match copyManifests (content manifests) "." mgmtPath (gogit.checkout head)
    with
    | (Error err, fs1) =>
        (Error ("failed to copy embedded content: " +:+ err), cloned fs1)
    | (Ok _, fs1) =>
        match copyInlineBundles clusterName repoUrl mgmtPath workloadPath
                bundles fs1 with
        | (Error err, fs2) =>
            (Error ("failed to copy inline bundles: " +:+ err), cloned fs2)
        | (Ok _, fs2) => (Ok ((gogit.MkdirTemp host).1, auth creds), cloned fs2)
        end
    end.
Proof.
  intros Hlist Hcreds Hbundles Hcf Hremote Hwf cloned.
  unfold buildWorkingTree.
  erewrite bind_Ok.
  2:{ apply orReturn_Ok. unfold pure_call. by rewrite Hlist. }
  rewrite Hcreds.
  erewrite bind_Ok.
  2:{ apply orReturn_Ok. unfold pure_call. by rewrite Hbundles. }
  cbn zeta.
  erewrite bind_Ok.
  2:{ apply orReturn_Ok. unfold gogit.PlainCloneContext.
      rewrite Hcf. fold ref. rewrite Hremote. reflexivity. }
  erewrite bind_Ok.
  2:{ apply orReturn_Ok. unfold gogit.Worktree. by rewrite Hwf. }
  fold mgmtPath workloadPath.
  destruct (copyManifests (content manifests) "." mgmtPath
              (gogit.checkout head)) as [[[]|err] fs1] eqn:Hm.
  2:{ erewrite bind_Error.
      2:{ apply orReturn_Error. eapply onRepository_run; [reflexivity|].
          apply onWorktree_run. exact Hm. }
      reflexivity. }
  erewrite bind_Ok.
  2:{ apply orReturn_Ok. eapply onRepository_run; [reflexivity|].
      apply onWorktree_run. exact Hm. }
  destruct (copyInlineBundles clusterName repoUrl mgmtPath workloadPath
              bundles fs1) as [[[]|err] fs2] eqn:Hb.
  2:{ erewrite bind_Error.
      2:{ apply orReturn_Error. eapply onRepository_run; [reflexivity|].
          apply onWorktree_run. exact Hb. }
      reflexivity. }
  erewrite bind_Ok.
  2:{ apply orReturn_Ok. eapply onRepository_run; [reflexivity|].
      apply onWorktree_run. exact Hb. }
  reflexivity.
Qed.

Lemma buildWorkingTree_Ok_inv (host : gogit.Host) (s s1 : gogit.Session)
    (built : string * gogit.BasicAuth) :
  buildWorkingTree manifests kubeClient host argocdNs arlonNs clusterName
    repoUrl repoBranch basePath profileName s = (Ok built, s1) →
  ∃ items creds bundles head older fs1 fs2,
    SecretsList kubeClient argocdNs
      "argocd.argoproj.io/secret-type=repository" = Ok items
    ∧ findRepoCreds repoUrl items = Some creds
    ∧ getInlineBundles profileName kubeClient arlonNs = Ok bundles
    ∧ gogit.cloneFault host = None
    ∧ gogit.remote s !! (repoUrl, ref) = Some (head :: older)
    ∧ gogit.worktreeFault host = None
    ∧ copyManifests (content manifests) "." mgmtPath (gogit.checkout head)
      = (Ok (), fs1)
    ∧ copyInlineBundles clusterName repoUrl mgmtPath workloadPath bundles fs1
      = (Ok (), fs2)
    ∧ built = ((gogit.MkdirTemp host).1, auth creds)
    ∧ s1 = clonedSession s (gogit.MkdirTemp host).1 repoUrl ref (auth creds)
             (head :: older) fs2.
Proof.
  intros Hbuild. pose proof Hbuild as H. unfold buildWorkingTree in H.
  apply bind_inv_Ok in H as (items & s' & H1 & H).
  apply orReturn_inv_Ok in H1. unfold pure_call in H1.
  injection H1 as Hlist <-.
  destruct (findRepoCreds repoUrl items) as [creds|] eqn:Hcreds; [|done].
  apply bind_inv_Ok in H as (bundles & s' & H2 & H).
  apply orReturn_inv_Ok in H2. unfold pure_call in H2.
  injection H2 as Hbundles <-.
  cbn zeta in H. apply bind_inv_Ok in H as ([] & s3 & H3 & H).
  apply orReturn_inv_Ok in H3. unfold gogit.PlainCloneContext in H3.
  destruct (gogit.cloneFault host) eqn:Hcf; [done|]. fold ref in H3.
  destruct (gogit.remote s !! (repoUrl, ref)) as [[|head older]|] eqn:Hremote;
    try done.
  clear H3. apply bind_inv_Ok in H as ([] & s4 & H4 & H).
  apply orReturn_inv_Ok in H4. unfold gogit.Worktree in H4.
  destruct (gogit.worktreeFault host) eqn:Hwf; [done|]. clear H4 H.
  rewrite (buildWorkingTree_cloned host s items creds bundles head older)
    in Hbuild by done.
  destruct (copyManifests (content manifests) "." mgmtPath
              (gogit.checkout head)) as [[[]|err] fs1] eqn:Hm; [|done].
  destruct (copyInlineBundles clusterName repoUrl mgmtPath workloadPath
              bundles fs1) as [[[]|err] fs2] eqn:Hb; [|done].
  injection Hbuild as <- <-.
  by exists items, creds, bundles, head, older, fs1, fs2.
Qed.

(** A build is its requests. *)
Lemma build_Ok_iff (bundles : list inlineBundle) (fs fs2 : billy.Filesystem) :
  (∃ fs1, copyManifests (content manifests) "." mgmtPath fs = (Ok (), fs1)
          ∧ copyInlineBundles clusterName repoUrl mgmtPath workloadPath
              bundles fs1 = (Ok (), fs2))
  ↔ Forall (λ b, is_Some (data b)) bundles
    ∧ execOps (buildOps manifests clusterName repoUrl mgmtPath workloadPath
                 bundles) fs = Some fs2.
Proof.
  unfold buildOps. rewrite execOps_app. split.
  - intros (fs1 & Hm & Hb). apply copyManifests_Ok_iff in Hm.
    apply copyInlineBundles_Ok_iff in Hb as [Hall Hb]. by rewrite Hm.
  - intros [Hall H].
    destruct (execOps _ fs) as [fs1|] eqn:Hm; [|done]. exists fs1. split.
    + by apply copyManifests_Ok_iff.
    + by apply copyInlineBundles_Ok_iff.
Qed.

(** C1: a deploy that succeeded, run again with the same inputs on what it
    left at the remote, succeeds again; change detection finds the working
    tree equal to the cloned HEAD, so the second run makes no commit and no
    push and leaves the remote as it is. *)
Theorem deploy_twice_no_change (host host' : gogit.Host)
    (s s1 : gogit.Session) :
  (∀ head older,
     gogit.remote s !! (repoUrl, ref) = Some (head :: older) →
     validTree head) →
  DeployToGit manifests gitutils.CommitChanges kubeClient host argocdNs
    arlonNs clusterName repoUrl repoBranch basePath profileName s
  = (Ok (), s1) →
  gogit.cloneFault host' = None →
  gogit.worktreeFault host' = None →
  ∃ s2 head older again,
    DeployToGit manifests gitutils.CommitChanges kubeClient host' argocdNs
      arlonNs clusterName repoUrl repoBranch basePath profileName s1
    = (Ok (), s2)
    ∧ gogit.remote s2 = gogit.remote s1
    ∧ pushes (gogit.events s2) = pushes (gogit.events s1)
    ∧ gogit.remote s1 !! (repoUrl, ref) = Some (head :: older)
    ∧ gogit.repo s2
      = Some {| gogit.origin := repoUrl; gogit.branch := ref;
                gogit.commits := head :: older;
                gogit.Filesystem := again |}
    ∧ billy.files again = head
    ∧ ∀ r, gogit.repo s2 = Some r →
           gitutils.CommitChanges (gogit.MkdirTemp host').1 r = (Ok false, r).
Proof.
  intros Hvalid Hrun Hcf' Hwf'.
  rewrite DeployToGit_stages in Hrun.
  apply bind_inv_Ok in Hrun as (built & sb & Hbuild & Hrest).
  apply buildWorkingTree_Ok_inv in Hbuild
    as (items & creds & bundles & head & older & fs1 & fs2 & Hlist & Hcreds
        & Hbundles & _ & Hremote & _ & Hm & Hb & -> & ->).
  specialize (Hvalid _ _ Hremote).
  (* what the first run left at the remote *)
  assert (∃ rest, gogit.remote s1 !! (repoUrl, ref)
                  = Some (billy.files fs2 :: rest)) as [rest Hremote1].
  { apply bind_inv_Ok in Hrest as (changed & sc & Hcommit & Hpush).
    apply orReturn_inv_Ok in Hcommit.
    destruct (decide (billy.files fs2 = head)) as [Heq|Hne].
    - erewrite onRepository_run in Hcommit;
        [|reflexivity|by eapply CommitChanges_same].
      injection Hcommit as <- <-. injection Hpush as <-.
      exists older. unfold clonedSession. cbn [gogit.remote].
      by rewrite Heq.
    - erewrite onRepository_run in Hcommit;
        [|reflexivity|by eapply CommitChanges_differ].
      injection Hcommit as <- <-. cbn [negb] in Hpush.
      apply orReturn_inv_Ok in Hpush. unfold gogit.Push in Hpush.
      cbn [gogit.repo gogit.origin gogit.branch gogit.commits gogit.remote
           gogit.events clonedSession gogit.Filesystem] in Hpush.
      destruct (gogit.pushFault host); [done|].
      case_decide; [done|]. injection Hpush as <-.
      exists (head :: older). cbn [gogit.remote]. apply lookup_insert_eq. }
  (* the second run repeats the requests of the first *)
  assert (execOps (buildOps manifests clusterName repoUrl mgmtPath
                     workloadPath bundles) (gogit.checkout head) = Some fs2
          ∧ Forall (λ b, is_Some (data b)) bundles) as [Hops Hpayloads].
  { assert (∃ fs1, copyManifests (content manifests) "." mgmtPath
                     (gogit.checkout head) = (Ok (), fs1)
                   ∧ copyInlineBundles clusterName repoUrl mgmtPath
                       workloadPath bundles fs1 = (Ok (), fs2)) as H
      by eauto.
    by apply build_Ok_iff in H as [? ?]. }
  destruct (replay_checkout _ _ _ Hvalid Hops) as (again & Hagain & Hfiles).
  assert (∃ mid, copyManifests (content manifests) "." mgmtPath
                   (gogit.checkout (billy.files fs2)) = (Ok (), mid)
                 ∧ copyInlineBundles clusterName repoUrl mgmtPath
                     workloadPath bundles mid = (Ok (), again))
    as (mid & Hm2 & Hb2).
  { apply build_Ok_iff. by split. }
  exists (clonedSession s1 (gogit.MkdirTemp host').1 repoUrl ref (auth creds)
            (billy.files fs2 :: rest) again),
    (billy.files fs2), rest, again.
  split.
  2:{ split; [done|]. split.
      { unfold clonedSession. cbn [gogit.events].
        rewrite pushes_app. simpl. apply app_nil_r. }
      split; [done|]. split; [done|]. split; [done|].
      intros r [= <-]. by eapply CommitChanges_same. }
  rewrite DeployToGit_stages.
  erewrite bind_Ok.
  2:{ rewrite (buildWorkingTree_cloned host' s1 items creds bundles
                 (billy.files fs2) rest) by done.
      rewrite Hm2, Hb2. reflexivity. }
  erewrite bind_Ok.
  2:{ apply orReturn_Ok. eapply onRepository_run; [reflexivity|].
      by eapply CommitChanges_same. }
  reflexivity.
Qed.

(** C4 (as the code has it): a bundle whose payload is nil stops the build.
    The copy of the bundles returns an error whatever else the list and the
    worktree hold, and that error names the bundle as soon as the bundles
    before it were copied and its own file was created; a deploy that
    collected such a bundle returns an error, pushes nothing and leaves the
    remote as it was. *)
Theorem missing_payload_stops_build (CommitChanges : string → SE gogit.Repository bool)
    (host : gogit.Host) (before after : list inlineBundle)
    (bundle : inlineBundle) (fs : billy.Filesystem) (s : gogit.Session) :
  data bundle = None →
  isError (copyInlineBundles clusterName repoUrl mgmtPath workloadPath
             (before ++ bundle :: after) fs).1
  ∧ (∀ fs1 fs2 fs3 dst,
       copyInlineBundles clusterName repoUrl mgmtPath workloadPath before fs
       = (Ok (), fs1) →
       billy.MkdirAll (path.Join [workloadPath; name bundle]) fs1
       = (Ok (), fs2) →
       billy.Create (bundlePathOf workloadPath (name bundle)) fs2
       = (Ok dst, fs3) →
       copyInlineBundles clusterName repoUrl mgmtPath workloadPath
         (before ++ bundle :: after) fs
       = (Error ("inline bundle " +:+ name bundle +:+ " has no data"), fs3))
  ∧ (getInlineBundles profileName kubeClient arlonNs
     = Ok (before ++ bundle :: after) →
     let out := DeployToGit manifests CommitChanges kubeClient host argocdNs
                  arlonNs clusterName repoUrl repoBranch basePath profileName
                  s in
     isError out.1
     ∧ gogit.remote out.2 = gogit.remote s
     ∧ pushes (gogit.events out.2) = pushes (gogit.events s)).
Proof.
  intros Hnil.
  assert (∀ fs, isError (copyInlineBundles clusterName repoUrl mgmtPath
                           workloadPath (before ++ bundle :: after) fs).1)
    as Hstop.
  { intros fs'. rewrite copyInlineBundles_forRange.
    apply forRange_bundles_nil. apply Exists_app. right. by left. }
  split; [apply Hstop|]. split.
  - intros fs1 fs2 fs3 dst Hbefore Hdir Hfile.
    rewrite copyInlineBundles_forRange in *. rewrite forRange_app.
    rewrite (bind_Ok _ _ _ _ _ Hbefore). cbn [forRange].
    erewrite bind_Error; [reflexivity|].
    by eapply copyInlineBundle_nil.
  - intros Hbundles out.
    assert (isError (buildWorkingTree manifests kubeClient host argocdNs
                       arlonNs clusterName repoUrl repoBranch basePath
                       profileName s).1) as Hbuild.
    { destruct (buildWorkingTree manifests kubeClient host argocdNs arlonNs
                  clusterName repoUrl repoBranch basePath profileName s)
        as [[built|err] s1] eqn:Hb; [|done].
      apply buildWorkingTree_Ok_inv in Hb
        as (items & creds & bundles & head & older & fs1 & fs2 & _ & _
            & Hbundles' & _ & _ & _ & _ & Hcopy & _).
      rewrite Hbundles in Hbundles'. injection Hbundles' as <-.
      specialize (Hstop fs1). fold mgmtPath workloadPath in Hcopy.
      by rewrite Hcopy in Hstop. }
    unfold out. rewrite DeployToGit_stages.
    destruct (isError_bind_l _
                (λ built,
                   run changed <-
                     orReturn (gogit.onRepository (CommitChanges built.1))
                       (λ err, "failed to commit changes: " +:+ err) in
                   if negb changed then ret ()
                   else orReturn (gogit.Push host built.2)
                          (λ err, "failed to push to remote repository: "
                                  +:+ err)) s Hbuild) as [Herr Hstate].
    split; [exact Herr|]. rewrite Hstate.
    apply (buildWorkingTree_quiet manifests kubeClient host argocdNs arlonNs
             clusterName repoUrl repoBranch basePath profileName s).
Qed.

End Build.

(** ** The stub of a bundle *)

Lemma writeAll_written (l : list (string * bytes)) (k : list string)
    (m m' : gmap (list string) bytes) :
  Exists (λ e, billy.locate e.1 = billy.Inside k) l →
  writeAll l m !! k = writeAll l m' !! k.
Proof.
  intros Hex. revert m m'.
  induction Hex as [e l He|e l Hl IH]; intros m m'; simpl.
  - rewrite He, !writeAll_lookup. by rewrite !lookup_insert_eq.
  - apply IH.
Qed.

Lemma writeAll_keeps (l : list (string * bytes)) (k : list string)
    (m : gmap (list string) bytes) :
  is_Some (m !! k) → is_Some (writeAll l m !! k).
Proof.
  revert m. induction l as [|e l IH]; intros m Hm; [done|]. simpl.
  apply IH. destruct (billy.locate e.1) as [k'| |]; [|done..].
  destruct (decide (k' = k)) as [->|Hne].
  - rewrite lookup_insert_eq. eauto.
  - by rewrite lookup_insert_ne.
Qed.

Lemma writeAll_written_Some (l : list (string * bytes)) (k : list string)
    (m : gmap (list string) bytes) :
  Exists (λ e, billy.locate e.1 = billy.Inside k) l →
  is_Some (writeAll l m !! k).
Proof.
  intros Hex. revert m.
  induction Hex as [e l He|e l Hl IH]; intros m; simpl.
  - rewrite He. apply writeAll_keeps. rewrite lookup_insert_eq. eauto.
  - apply IH.
Qed.

Lemma forRange_snoc_Ok {S A} (l : list A) (x : A) (rest : list A)
    (body : A → SE S unit) (s s' : S) :
  forRange (l ++ x :: rest) body s = (Ok (), s') →
  ∃ mid, forRange (l ++ [x]) body s = (Ok (), mid)
         ∧ forRange rest body mid = (Ok (), s').
Proof.
  change (l ++ x :: rest) with (l ++ [x] ++ rest). rewrite app_assoc.
  rewrite forRange_app. intros H.
  apply bind_inv_Ok in H as ([] & mid & H1 & H2). eauto.
Qed.

Section Stub.

Variable manifests : list DirEntry.
Variable kubeClient : Clientset.
Variables argocdNs arlonNs clusterName repoUrl basePath profileName : string.

Let mgmtPath := path.Join [basePath; clusterName; "mgmt"].
Let workloadPath := path.Join [basePath; clusterName; "workload"].

(** C9: the stub that the build renders for a bundle is the text of the
    template with the cluster name as the name of the destination, the
    project [default] and the target revision [HEAD]; it is in the file
    [<mgmt>/templates/<bundle>.yaml] when the bundle has been copied; and
    the branch of the deploy has no part in it: two builds that differ in
    the branch (and in the host and the remote they run against) hold the
    same stub at that path. *)
Theorem stub_targets_HEAD (before after : list inlineBundle)
    (bundle : inlineBundle) (fs fs' : billy.Filesystem) :
  copyInlineBundles clusterName repoUrl mgmtPath workloadPath
    (before ++ bundle :: after) fs = (Ok (), fs') →
  (∃ rendered k,
     copyInlineBundles clusterName repoUrl mgmtPath workloadPath
       (before ++ [bundle]) fs = (Ok (), rendered)
     ∧ copyInlineBundles clusterName repoUrl mgmtPath workloadPath after
         rendered = (Ok (), fs')
     ∧ billy.locate (appPathOf mgmtPath (name bundle)) = billy.Inside k
     ∧ billy.files rendered !! k
       = Some (list_byte_of_string
                 (stubText clusterName (name bundle) workloadPath repoUrl)))
  ∧ (∃ above,
       stubText clusterName (name bundle) workloadPath repoUrl
       = above +:+ "  destination:
    name: " +:+ clusterName +:+ "
    namespace: default
  project: default
  source:
    repoURL: " +:+ repoUrl +:+ "
    path: " +:+ workloadPath +:+ "/" +:+ name bundle +:+ "
    targetRevision: HEAD
")
  ∧ (∀ (host host' : gogit.Host) (repoBranch repoBranch' : string)
       (s s' s1 s1' : gogit.Session)
       (built built' : string * gogit.BasicAuth),
       getInlineBundles profileName kubeClient arlonNs
       = Ok (before ++ bundle :: after) →
       buildWorkingTree manifests kubeClient host argocdNs arlonNs
         clusterName repoUrl repoBranch basePath profileName s
       = (Ok built, s1) →
       buildWorkingTree manifests kubeClient host' argocdNs arlonNs
         clusterName repoUrl repoBranch' basePath profileName s'
       = (Ok built', s1') →
       ∃ r r' k,
         gogit.repo s1 = Some r ∧ gogit.repo s1' = Some r'
         ∧ billy.locate (appPathOf mgmtPath (name bundle)) = billy.Inside k
         ∧ is_Some (billy.files (gogit.Filesystem r) !! k)
         ∧ billy.files (gogit.Filesystem r) !! k
           = billy.files (gogit.Filesystem r') !! k).
Proof.
  intros Hcopy.
  assert (∃ payload, data bundle = Some payload) as [payload Hpayload].
  { apply copyInlineBundles_Ok_payloads in Hcopy.
    apply Forall_app in Hcopy as [_ Hcopy]. by inversion Hcopy. }
  assert (bundleLayout clusterName repoUrl mgmtPath workloadPath bundle
          = [(bundlePathOf workloadPath (name bundle), payload);
             (appPathOf mgmtPath (name bundle),
              list_byte_of_string
                (stubText clusterName (name bundle) workloadPath repoUrl))])
    as Hlayout.
  { unfold bundleLayout. by rewrite Hpayload. }
  split; [|split].
  - rewrite copyInlineBundles_forRange in Hcopy.
    apply forRange_snoc_Ok in Hcopy as (rendered & Hfirst & Hrest).
    pose proof Hfirst as Hsplit. rewrite forRange_app in Hsplit.
    apply bind_inv_Ok in Hsplit as ([] & fs1 & _ & Hone).
    cbn [forRange] in Hone.
    apply bind_inv_Ok in Hone as ([] & fs2 & Hbody & Hret).
    injection Hret as ->.
    pose proof (copyInlineBundle_ops clusterName repoUrl mgmtPath
                  workloadPath bundle payload fs1 Hpayload) as Hops.
    rewrite Hbody in Hops.
    destruct (execOps _ fs1) as [fs3|] eqn:Hexec; [|done].
    injection Hops as <-.
    unfold bundleOps in Hexec. cbn [execOps] in Hexec.
    destruct (execOp (Mkdir _) fs1) as [d1|]; [|done].
    destruct (execOp (Put (bundlePathOf _ _) _) d1) as [d2|]; [|done].
    destruct (execOp (Put (appPathOf _ _) _) d2) as [d3|] eqn:Hput; [|done].
    injection Hexec as <-.
    apply execOp_Put_Some in Hput as (k & Hloc & _ & _ & _ & ->).
    exists (putAt k (list_byte_of_string
                       (stubText clusterName (name bundle) workloadPath
                          repoUrl)) d2), k.
    rewrite !copyInlineBundles_forRange.
    split; [done|]. split; [done|]. split; [done|].
    unfold putAt. cbn [billy.files]. apply lookup_insert_eq.
  - exists ("
apiVersion: argoproj.io/v1alpha1
kind: Application
metadata:
  name: " +:+ clusterName +:+ "-" +:+ name bundle +:+ "
  namespace: argocd
spec:
  syncPolicy:
    automated:
      prune: true
").
    unfold stubText. rewrite !append_assoc. reflexivity.
  - intros host host' repoBranch repoBranch' s s' s1 s1' built built'
      Hbundles Hbuild Hbuild'.
    apply buildWorkingTree_Ok_inv in Hbuild
      as (items & creds & bundles & head & older & fs1 & fs2 & _ & _ & Hb
          & _ & _ & _ & _ & Hcopy1 & _ & ->).
    apply buildWorkingTree_Ok_inv in Hbuild'
      as (items' & creds' & bundles' & head' & older' & fs1' & fs2' & _ & _
          & Hb' & _ & _ & _ & _ & Hcopy1' & _ & ->).
    rewrite Hbundles in Hb, Hb'. injection Hb as <-. injection Hb' as <-.
    fold mgmtPath workloadPath in Hcopy1, Hcopy1'.
    apply copyInlineBundles_Ok_iff in Hcopy1 as [_ Hops].
    apply copyInlineBundles_Ok_iff in Hcopy1' as [_ Hops'].
    pose proof (execOps_located _ _ _ Hops) as Hlocated.
    apply execOps_files in Hops, Hops'.
    rewrite putsOf_bundles in Hops, Hops', Hlocated.
    rewrite flat_map_app in Hlocated.
    apply Forall_app in Hlocated as [_ Hlocated].
    cbn [flat_map] in Hlocated.
    apply Forall_app in Hlocated as [Hlocated _].
    rewrite Hlayout in Hlocated.
    inversion Hlocated as [|? ? _ Hstub]; subst.
    inversion Hstub as [|? ? [k Hk] _]; subst. cbn [fst] in Hk.
    assert (Exists (λ e, billy.locate e.1 = billy.Inside k)
              (flat_map (bundleLayout clusterName repoUrl mgmtPath
                           workloadPath) (before ++ bundle :: after)))
      as Hwritten.
    { rewrite flat_map_app. apply Exists_app. right. cbn [flat_map].
      apply Exists_app. left. rewrite Hlayout. right. by left. }
    eexists _, _, k. split; [reflexivity|]. split; [reflexivity|].
    split; [done|]. cbn [gogit.Filesystem]. rewrite Hops, Hops'. split.
    + by apply writeAll_written_Some.
    + by apply writeAll_written.
Qed.

End Stub.

(** * The theorems on the small installation *)

Ltac conjuncts := repeat match goal with |- _ ∧ _ => split end.

Example Split_commas : gostrings.Split "a,,b" "," = ["a"; ""; "b"].
Proof. reflexivity. Qed.

Example Clean_samples :
  map path.Clean ["a//b/./c/.."; "/../a"; "../../x"; ""; "a/.."; "/"; "a/b/"]
  = ["a/b"; "/a"; "../../x"; "."; "."; "/"; "a/b"].
Proof. reflexivity. Qed.

Example Join_samples :
  map path.Join [["base"; "c1"; "mgmt"]; [""; "c1"; "mgmt"]; ["."; "manifests"];
                 ["a"; ""]; [""; ""]; ["a"; "../b"]]
  = ["base/c1/mgmt"; "c1/mgmt"; "manifests"; "a"; ""; "b"].
Proof. reflexivity. Qed.

(** The scenario of the spec: the profile names an inline bundle [a] with
    the payload [X] and an external bundle [b]. *)
Example deploy_scenario :
  (Sample.deploy "p1" Sample.session).1 = Ok ()
  ∧ pushes (gogit.events Sample.deployed)
    = [gogit.Pushed Sample.url "refs/heads/main"
         {| gogit.Username := "bot"; gogit.Password := "hunter2" |}]
  ∧ length <$> (gogit.remote Sample.deployed
                  !! (Sample.url, "refs/heads/main")) = Some 2
  ∧ size Sample.pushed = 5
  ∧ Sample.pushed !! ["README.md"] = Some (Sample.text "fleet")
  ∧ Sample.pushed !! ["clusters"; "c1"; "mgmt"; "Chart.yaml"]
    = Some (Sample.text "name: arlon")
  ∧ Sample.pushed !! ["clusters"; "c1"; "mgmt"; "templates"; "cluster.yaml"]
    = Some (Sample.text "kind: Cluster")
  ∧ Sample.pushed !! ["clusters"; "c1"; "workload"; "a"; "a.yaml"]
    = Some (Sample.text "X")
  ∧ Sample.pushed !! ["clusters"; "c1"; "mgmt"; "templates"; "a.yaml"]
    = Some (Sample.text
              (stubText "c1" "a" "clusters/c1/workload" Sample.url)).
Proof. conjuncts; vm_compute; reflexivity. Qed.

(** A run that is known to succeed, with the state it leaves. *)
Lemma run_Ok {S A} (m : SE S A) (s : S) (a : A) :
  (m s).1 = Ok a → m s = (Ok a, (m s).2).
Proof. destruct (m s) as [r s']. simpl. by intros ->. Qed.

Lemma repository_Some (s : gogit.Session) :
  (if gogit.repo s is Some _ then true else false) = true →
  gogit.repo s = Some (Sample.repository s).
Proof. unfold Sample.repository. by destruct (gogit.repo s). Qed.

Ltac computed := vm_compute; reflexivity.
Ltac decided := refine (bool_decide_unpack _ _); vm_compute; exact I.

Lemma deploy_twice_no_change_witness :
  ∃ s2 head older again,
    Sample.deploy "p1" Sample.deployed = (Ok (), s2)
    ∧ gogit.remote s2 = gogit.remote Sample.deployed
    ∧ pushes (gogit.events s2) = pushes (gogit.events Sample.deployed)
    ∧ gogit.remote Sample.deployed
        !! (Sample.url, gogit.NewBranchReferenceName "main")
      = Some (head :: older)
    ∧ gogit.repo s2
      = Some {| gogit.origin := Sample.url;
                gogit.branch := gogit.NewBranchReferenceName "main";
                gogit.commits := head :: older;
                gogit.Filesystem := again |}
    ∧ billy.files again = head
    ∧ ∀ r, gogit.repo s2 = Some r →
           gitutils.CommitChanges (gogit.MkdirTemp Sample.host).1 r
           = (Ok false, r).
Proof.
  apply (deploy_twice_no_change Sample.manifests Sample.client "argocd"
           "arlon" "c1" Sample.url "main" "clusters" "p1" Sample.host
           Sample.host Sample.session Sample.deployed).
  - intros head older H.
    change (gogit.remote Sample.session)
      with ({[ (Sample.url, "refs/heads/main") := [Sample.readme] ]}
              : gmap (string * string) (list gogit.Tree)) in H.
    change (gogit.NewBranchReferenceName "main") with "refs/heads/main" in H.
    rewrite lookup_singleton_eq in H. injection H as <- _. decided.
  - apply (run_Ok (Sample.deploy "p1") Sample.session). computed.
  - reflexivity.
  - reflexivity.
Defined.

Lemma missing_payload_stops_build_witness :
  isError (copyInlineBundles "c1" Sample.url Sample.mgmtPath
             Sample.workloadPath [Sample.inlineA; Sample.noPayload]
             (gogit.checkout Sample.readme)).1.
Proof.
  exact (proj1 (missing_payload_stops_build Sample.manifests Sample.client
                  "argocd" "arlon" "c1" Sample.url "main" "clusters" "p1"
                  gitutils.CommitChanges Sample.host [Sample.inlineA] []
                  Sample.noPayload (gogit.checkout Sample.readme)
                  Sample.session eq_refl)).
Defined.

(** The claim C4 as the spec words it fails on a payload that is there and
    has no byte: the build succeeds and leaves an empty [e.yaml] in the
    workload path. *)
Lemma empty_payload_is_copied :
  getInlineBundles "p2" Sample.client "arlon"
  = Ok [{| name := "e"; data := Some [] |}]
  ∧ (Sample.build "p2" Sample.session).1
    = Ok ("/tmp/arlon-1",
          {| gogit.Username := "bot"; gogit.Password := "hunter2" |})
  ∧ Sample.worktree (Sample.build "p2" Sample.session).2
      !! ["clusters"; "c1"; "workload"; "e"; "e.yaml"] = Some [].
Proof. conjuncts; computed. Qed.

Lemma no_change_no_push_witness :
  let built := ("/tmp/arlon-1",
                {| gogit.Username := "bot"; gogit.Password := "hunter2" |}) in
  let s1 := (Sample.build "p1" Sample.deployed).2 in
  let r := Sample.repository s1 in
  Sample.deploy "p1" Sample.deployed
  = (Ok (), {| gogit.remote := gogit.remote Sample.deployed;
               gogit.events := gogit.events s1;
               gogit.repo := Some (gitutils.CommitChanges built.1 r).2 |})
  ∧ pushes (gogit.events s1) = pushes (gogit.events Sample.deployed).
Proof.
  intros built s1 r.
  apply (no_change_no_push Sample.manifests gitutils.CommitChanges
           Sample.client Sample.host "argocd" "arlon" "c1" Sample.url "main"
           "clusters" "p1" Sample.deployed s1 built r).
  - apply (run_Ok (Sample.build "p1") Sample.deployed). computed.
  - apply (repository_Some s1). computed.
  - apply (run_Ok (gitutils.CommitChanges "/tmp/arlon-1") r). computed.
Defined.

Lemma getInlineBundles_declared_order_witness :
  ∃ inlineBundles,
    getInlineBundles "p1" Sample.client "arlon" = Ok inlineBundles
    ∧ name <$> inlineBundles
      = filter (isInline (SecretsGet Sample.client "arlon"))
          (gostrings.Split "a,b" ",")
    ∧ Forall (λ b, data b
                   = payloadOf (SecretsGet Sample.client "arlon") (name b))
        inlineBundles.
Proof.
  apply (getInlineBundles_declared_order Sample.client "arlon" "p1" "a,b"
           (Sample.profile "a,b")).
  - discriminate.
  - reflexivity.
  - computed.
  - computed.
  - discriminate.
  - repeat constructor.
Defined.

Lemma stub_targets_HEAD_witness :
  ∃ above,
    stubText "c1" "a" Sample.workloadPath Sample.url
    = above +:+ "  destination:
    name: " +:+ "c1" +:+ "
    namespace: default
  project: default
  source:
    repoURL: " +:+ Sample.url +:+ "
    path: " +:+ Sample.workloadPath +:+ "/" +:+ "a" +:+ "
    targetRevision: HEAD
".
Proof.
  refine (proj1 (proj2 (stub_targets_HEAD Sample.manifests Sample.client
                          "argocd" "arlon" "c1" Sample.url "clusters" "p1"
                          [] [] Sample.inlineA (gogit.checkout Sample.readme)
                          (copyInlineBundles "c1" Sample.url Sample.mgmtPath
                             Sample.workloadPath [Sample.inlineA]
                             (gogit.checkout Sample.readme)).2 _))).
  apply (run_Ok (copyInlineBundles "c1" Sample.url Sample.mgmtPath
                   Sample.workloadPath [Sample.inlineA])). computed.
Defined.

Lemma MkdirTemp_error_unread_witness :
  let failing :=
    {| gogit.MkdirTemp := ("", Some "no space left on device");
       gogit.cloneFault := None; gogit.worktreeFault := None;
       gogit.pushFault := None |} in
  let working :=
    {| gogit.MkdirTemp := ("", None);
       gogit.cloneFault := None; gogit.worktreeFault := None;
       gogit.pushFault := None |} in
  DeployToGit Sample.manifests gitutils.CommitChanges Sample.client failing
    "argocd" "arlon" "c1" Sample.url "main" "clusters" "p1" Sample.session
  = DeployToGit Sample.manifests gitutils.CommitChanges Sample.client working
      "argocd" "arlon" "c1" Sample.url "main" "clusters" "p1" Sample.session
  ∧ ∃ later,
      gogit.events
        (DeployToGit Sample.manifests gitutils.CommitChanges Sample.client
           failing "argocd" "arlon" "c1" Sample.url "main" "clusters" "p1"
           Sample.session).2
      = gogit.events Sample.session
        ++ gogit.Cloned "" Sample.url "refs/heads/main"
             {| gogit.Username := "bot"; gogit.Password := "hunter2" |}
           :: later.
Proof.
  apply (MkdirTemp_error_unread Sample.manifests gitutils.CommitChanges
           Sample.client
           {| gogit.MkdirTemp := ("", Some "no space left on device");
              gogit.cloneFault := None; gogit.worktreeFault := None;
              gogit.pushFault := None |}
           "argocd" "arlon" "c1" Sample.url "main"
           "clusters" "p1" Sample.session [Sample.repoSecret]
           (credsOf Sample.repoSecret) [Sample.inlineA]
           "no space left on device").
  - reflexivity.
  - computed.
  - computed.
Defined.

(** * Further properties of the code *)

(** ** Bundle collection: when it fails *)

Lemma rangeBundleItems_first_error (secretsApi : string → result Secret)
    (before after : list string) (b err : string)
    (inlineBundles : list inlineBundle) :
  Forall (λ n, is_ok (secretsApi n) = true) before →
  secretsApi b = Error err →
  rangeBundleItems secretsApi (before ++ b :: after) inlineBundles
  = Error ("failed to get bundle secret " +:+ b +:+ ": " +:+ err).
Proof.
  intros Hbefore Hb. revert inlineBundles.
  induction Hbefore as [|n before Hn _ IH]; intros inlineBundles; simpl.
  - by rewrite Hb.
  - destruct (secretsApi n) as [secr|]; [|done].
    by destruct (decide _).
Qed.

Lemma rangeBundleItems_Ok_inv (secretsApi : string → result Secret)
    (bundleItems : list string) (inlineBundles out : list inlineBundle) :
  rangeBundleItems secretsApi bundleItems inlineBundles = Ok out →
  Forall (λ n, is_ok (secretsApi n) = true) bundleItems.
Proof.
  revert inlineBundles.
  induction bundleItems as [|n rest IH]; intros inlineBundles H; [done|].
  simpl in H. destruct (secretsApi n) as [secr|] eqn:E; [|done].
  constructor; [by rewrite E|].
  destruct (decide _); eauto.
Qed.

Lemma getInlineBundles_Ok_inv (corev1 : Clientset)
    (arlonNs profileName : string) (out : list inlineBundle) :
  getInlineBundles profileName corev1 arlonNs = Ok out →
  profileName = ""
  ∨ ∃ profile bundles,
      ConfigMapsGet corev1 arlonNs profileName = Ok profile
      ∧ ConfigMapLabels profile !! "arlon-type" = Some "profile"
      ∧ ConfigMapData profile !! "bundles" = Some bundles
      ∧ bundles ≠ ""
      ∧ Forall (λ b, is_ok (SecretsGet corev1 arlonNs b) = true)
          (gostrings.Split bundles ",").
Proof.
  unfold getInlineBundles.
  destruct (decide (profileName = "")) as [|Hname]; [by left|].
  intros H. right.
  destruct (ConfigMapsGet corev1 arlonNs profileName) as [profile|]; [|done].
  destruct (decide (index (ConfigMapLabels profile) "arlon-type"
                    ≠ "profile")) as [|Hlabel%dec_stable]; [done|].
  destruct (decide (index (ConfigMapData profile) "bundles" = ""))
    as [|Hbundles]; [done|].
  exists profile, (index (ConfigMapData profile) "bundles").
  split; [done|]. split; [by apply index_eq_Some|].
  split; [by apply index_eq_Some|]. split; [done|].
  by eapply rangeBundleItems_Ok_inv.
Qed.

(** X1: bundle collection succeeds exactly when no profile is named, or
    the profile's config map can be fetched, carries the label
    [arlon-type=profile], declares a bundle list that is not empty, and
    every declared bundle can be fetched, inline or not. *)
Theorem getInlineBundles_succeeds_iff (corev1 : Clientset)
    (arlonNs profileName : string) :
  is_ok (getInlineBundles profileName corev1 arlonNs) = true
  ↔ profileName = ""
    ∨ ∃ profile bundles,
        ConfigMapsGet corev1 arlonNs profileName = Ok profile
        ∧ ConfigMapLabels profile !! "arlon-type" = Some "profile"
        ∧ ConfigMapData profile !! "bundles" = Some bundles
        ∧ bundles ≠ ""
        ∧ Forall (λ b, is_ok (SecretsGet corev1 arlonNs b) = true)
            (gostrings.Split bundles ",").
Proof.
  split.
  - destruct (getInlineBundles profileName corev1 arlonNs) as [out|] eqn:E;
      [|done].
    intros _. by eapply getInlineBundles_Ok_inv.
  - intros [->|(profile & bundles & Hget & Hlabel & Hdata & Hne & Hall)];
      [done|].
    unfold getInlineBundles.
    destruct (decide (profileName = "")); [done|]. rewrite Hget.
    apply index_eq_Some in Hlabel; [|done].
    apply index_eq_Some in Hdata; [|done].
    rewrite Hlabel, Hdata.
    destruct (decide ("profile" ≠ "profile")); [done|].
    destruct (decide (bundles = "")); [done|].
    by rewrite rangeBundleItems_resolved.
Qed.

(** X2: the declared bundles are fetched in the order of the declaration,
    and the first one that cannot be fetched ends the collection with an
    error that names it and carries the error of the fetch; the bundles
    after it have no part in the result. *)
Theorem getInlineBundles_first_unresolved (corev1 : Clientset)
    (arlonNs profileName bundles : string) (profile : ConfigMap)
    (before after : list string) (b err : string) :
  profileName ≠ "" →
  ConfigMapsGet corev1 arlonNs profileName = Ok profile →
  ConfigMapLabels profile !! "arlon-type" = Some "profile" →
  ConfigMapData profile !! "bundles" = Some bundles →
  bundles ≠ "" →
  gostrings.Split bundles "," = before ++ b :: after →
  Forall (λ n, is_ok (SecretsGet corev1 arlonNs n) = true) before →
  SecretsGet corev1 arlonNs b = Error err →
  getInlineBundles profileName corev1 arlonNs
  = Error ("failed to get bundle secret " +:+ b +:+ ": " +:+ err).
Proof.
  intros Hname Hget Hlabel Hdata Hne Hsplit Hbefore Hb.
  unfold getInlineBundles.
  destruct (decide (profileName = "")); [done|]. rewrite Hget.
  apply index_eq_Some in Hlabel; [|done].
  apply index_eq_Some in Hdata; [|done].
  rewrite Hlabel, Hdata.
  destruct (decide ("profile" ≠ "profile")); [done|].
  destruct (decide (bundles = "")); [done|].
  rewrite Hsplit. by apply rangeBundleItems_first_error.
Qed.

(** ** What a deploy sends to the remote *)
Section Calls.

Variable manifests : list DirEntry.
Variable CommitChanges : string → SE gogit.Repository bool.
Variable kubeClient : Clientset.
Variable host : gogit.Host.
Variables argocdNs arlonNs clusterName repoUrl repoBranch basePath
  profileName : string.

Let ref := gogit.NewBranchReferenceName repoBranch.
Let auth (creds : RepoCreds) : gogit.BasicAuth :=
  {| gogit.Username := Username creds; gogit.Password := Password creds |}.

(** Without the credentials or the bundles the build stops where it
    started. *)
Lemma buildWorkingTree_unresolved (s : gogit.Session) :
  match SecretsList kubeClient argocdNs
          "argocd.argoproj.io/secret-type=repository" with
  | Ok items =>
      match findRepoCreds repoUrl items,
            getInlineBundles profileName kubeClient arlonNs with
      | Some _, Ok _ => True
      | _, _ =>
          ∃ err, buildWorkingTree manifests kubeClient host argocdNs arlonNs
                   clusterName repoUrl repoBranch basePath profileName s
                 = (Error err, s)
      end
  | Error _ =>
      ∃ err, buildWorkingTree manifests kubeClient host argocdNs arlonNs
               clusterName repoUrl repoBranch basePath profileName s
             = (Error err, s)
  end.
Proof.
  unfold buildWorkingTree, bind, orReturn, pure_call, fail.
  destruct (SecretsList kubeClient argocdNs _) as [items|]; [|by eexists].
  destruct (findRepoCreds repoUrl items) as [creds|].
  - destruct (getInlineBundles profileName kubeClient arlonNs);
      [done|by eexists].
  - destruct (getInlineBundles profileName kubeClient arlonNs); by eexists.
Qed.

(** So does the deploy. *)
Lemma DeployToGit_unresolved (s : gogit.Session) :
  let out := DeployToGit manifests CommitChanges kubeClient host argocdNs
               arlonNs clusterName repoUrl repoBranch basePath profileName s in
  match SecretsList kubeClient argocdNs
          "argocd.argoproj.io/secret-type=repository" with
  | Ok items =>
      match findRepoCreds repoUrl items,
            getInlineBundles profileName kubeClient arlonNs with
      | Some _, Ok _ => True
      | _, _ => isError out.1 ∧ out.2 = s
      end
  | Error _ => isError out.1 ∧ out.2 = s
  end.
Proof.
  intros out. subst out. rewrite DeployToGit_stages.
  pose proof (buildWorkingTree_unresolved s) as Hstop.
  destruct (SecretsList kubeClient argocdNs _) as [items|].
  2:{ destruct Hstop as [err Hstop]. by rewrite (bind_Error _ _ _ _ _ Hstop). }
  destruct (findRepoCreds repoUrl items) as [creds|].
  2:{ destruct (getInlineBundles profileName kubeClient arlonNs);
        destruct Hstop as [err Hstop];
        by rewrite (bind_Error _ _ _ _ _ Hstop). }
  destruct (getInlineBundles profileName kubeClient arlonNs) as [bundles|];
    [done|].
  destruct Hstop as [err Hstop]. by rewrite (bind_Error _ _ _ _ _ Hstop).
Qed.

(** With them its one call to the remote is the clone. *)
Lemma buildWorkingTree_events (s : gogit.Session) (items : list Secret)
    (creds : RepoCreds) (bundles : list inlineBundle) :
  SecretsList kubeClient argocdNs
    "argocd.argoproj.io/secret-type=repository" = Ok items →
  findRepoCreds repoUrl items = Some creds →
  getInlineBundles profileName kubeClient arlonNs = Ok bundles →
  gogit.events
    (buildWorkingTree manifests kubeClient host argocdNs arlonNs clusterName
       repoUrl repoBranch basePath profileName s).2
  = gogit.events s
    ++ [gogit.Cloned (gogit.MkdirTemp host).1 repoUrl ref (auth creds)].
Proof.
  intros Hlist Hcreds Hbundles. unfold buildWorkingTree.
  erewrite bind_Ok.
  2:{ apply orReturn_Ok. unfold pure_call. by rewrite Hlist. }
  rewrite Hcreds.
  erewrite bind_Ok.
  2:{ apply orReturn_Ok. unfold pure_call. by rewrite Hbundles. }
  set (P := λ s1 : gogit.Session,
              gogit.events s1
              = gogit.events s
                ++ [gogit.Cloned (gogit.MkdirTemp host).1 repoUrl ref
                      (auth creds)]).
  match goal with |- gogit.events ?x = _ => change (P x) end.
  apply bind_keeps.
  { rewrite orReturn_state.
    match goal with
    | |- context [gogit.PlainCloneContext ?h ?d ?u ?a ?r ?s] =>
        destruct (PlainCloneContext_session h d u r a s) as [_ He]
    end.
    exact He. }
  intros _ s3 H3. apply bind_keeps.
  { by rewrite orReturn_state, Worktree_session. }
  intros _ s4 H4. apply bind_keeps.
  { rewrite orReturn_state.
    match goal with
    | |- context [gogit.onRepository ?m ?s] =>
        destruct (onRepository_session m s) as [_ He']
    end.
    unfold P in *. congruence. }
  intros _ s5 H5. apply bind_keeps.
  { rewrite orReturn_state.
    match goal with
    | |- context [gogit.onRepository ?m ?s] =>
        destruct (onRepository_session m s) as [_ He']
    end.
    unfold P in *. congruence. }
  intros _ s6 H6. done.
Qed.

(** X3: the calls that leave the process during a deploy.  As long as the
    credentials or the bundles are not resolved the deploy returns an error
    and the session is as it was: nothing was cloned.  Once they are, it
    clones once, into the directory of [os.MkdirTemp], the repository and
    branch it was given, with the user and password of the matching record;
    after that it pushes at most once, with the same user and password, and
    calls nothing else. *)
Theorem DeployToGit_remote_calls (s : gogit.Session) :
  let out := DeployToGit manifests CommitChanges kubeClient host argocdNs
               arlonNs clusterName repoUrl repoBranch basePath profileName s in
  match SecretsList kubeClient argocdNs
          "argocd.argoproj.io/secret-type=repository" with
  | Ok items =>
      match findRepoCreds repoUrl items,
            getInlineBundles profileName kubeClient arlonNs with
      | Some creds, Ok _ =>
          let cloned :=
            gogit.Cloned (gogit.MkdirTemp host).1 repoUrl
              (gogit.NewBranchReferenceName repoBranch)
              {| gogit.Username := Username creds;
                 gogit.Password := Password creds |} in
          gogit.events out.2 = gogit.events s ++ [cloned]
          ∨ ∃ url branch,
              gogit.events out.2
              = gogit.events s
                ++ [cloned;
                    gogit.Pushed url branch
                      {| gogit.Username := Username creds;
                         gogit.Password := Password creds |}]
      | _, _ => isError out.1 ∧ out.2 = s
      end
  | Error _ => isError out.1 ∧ out.2 = s
  end.
Proof.
  intros out. subst out.
  pose proof (DeployToGit_unresolved s) as Hstop. cbv zeta in Hstop.
  destruct (SecretsList kubeClient argocdNs _) as [items|] eqn:Hlist;
    [|done].
  destruct (findRepoCreds repoUrl items) as [creds|] eqn:Hcreds.
  2:{ by destruct (getInlineBundles profileName kubeClient arlonNs). }
  destruct (getInlineBundles profileName kubeClient arlonNs) as [bundles|]
    eqn:Hbundles; [|done].
  clear Hstop. rewrite DeployToGit_stages.
  pose proof (buildWorkingTree_events s items creds bundles Hlist Hcreds
                Hbundles) as Hclone.
  unfold ref, auth in Hclone.
  cbv zeta. unfold bind, orReturn.
  destruct (buildWorkingTree manifests kubeClient host argocdNs arlonNs
              clusterName repoUrl repoBranch basePath profileName s)
    as [[built|err] s1] eqn:Hb; simpl in Hclone |- *; [|by left].
  assert (built.2 = {| gogit.Username := Username creds;
                        gogit.Password := Password creds |}) as Hauth.
  { apply buildWorkingTree_Ok_inv in Hb
      as (items' & creds' & ? & ? & ? & ? & ? & Hl & Hc & _ & _ & _ & _ & _
          & _ & Hbuilt & _).
    rewrite Hbuilt. simpl. congruence. }
  pose proof (onRepository_session (CommitChanges built.1) s1) as [_ He].
  destruct (gogit.onRepository (CommitChanges built.1) s1)
    as [[changed|err] s2]; simpl in He |- *; [|left; congruence].
  destruct changed; simpl; [|left; congruence].
  unfold gogit.Push. destruct (gogit.repo s2) as [r|]; simpl;
    [|left; congruence].
  right. exists (gogit.origin r), (gogit.branch r).
  rewrite Hauth.
  destruct (gogit.pushFault host); simpl.
  - rewrite He, Hclone, <- app_assoc. reflexivity.
  - case_decide; simpl; rewrite He, Hclone, <- app_assoc; reflexivity.
Qed.

(** X4: a deploy that stops with an error at a step before the push has
    made no push and has left the remote as it was.  Whenever a deploy
    returns an error that is not the error of the push,
    [failed to push to remote repository: ...], the remote holds what it
    held and the pushes made so far are those made before the deploy. *)
Theorem failed_deploy_keeps_remote (s : gogit.Session) :
  let out := DeployToGit manifests CommitChanges kubeClient host argocdNs
               arlonNs clusterName repoUrl repoBranch basePath profileName s in
  isError out.1 →
  (∀ err, out.1 ≠ Error ("failed to push to remote repository: " +:+ err)) →
  gogit.remote out.2 = gogit.remote s
  ∧ pushes (gogit.events out.2) = pushes (gogit.events s).
Proof.
  intros out. subst out. rewrite DeployToGit_stages.
  pose proof (buildWorkingTree_quiet manifests kubeClient host argocdNs
                arlonNs clusterName repoUrl repoBranch basePath profileName s)
    as [Hr He].
  cbv zeta in Hr, He. unfold bind, orReturn.
  destruct (buildWorkingTree manifests kubeClient host argocdNs arlonNs
              clusterName repoUrl repoBranch basePath profileName s)
    as [[built|err] s1]; simpl in Hr, He |- *; [|by intros _ _].
  pose proof (onRepository_session (CommitChanges built.1) s1) as [Hr2 He2].
  destruct (gogit.onRepository (CommitChanges built.1) s1)
    as [[changed|err] s2]; simpl in Hr2, He2 |- *;
    [|intros _ _; split; congruence].
  destruct changed; simpl; [|done].
  destruct (gogit.Push host built.2 s2) as [[[]|err] s3]; simpl; [done|].
  intros _ Hpush. by destruct (Hpush err).
Qed.

(** X5: when change detection leaves the origin and the branch of the
    clone alone, a deploy changes nothing at the remote but the branch it
    was given: every other branch and every other repository holds what it
    held. *)
Theorem deploy_touches_one_branch (s : gogit.Session)
    (url branch : string) :
  (∀ dir r, gogit.origin (CommitChanges dir r).2 = gogit.origin r
            ∧ gogit.branch (CommitChanges dir r).2 = gogit.branch r) →
  (url, branch) ≠ (repoUrl, gogit.NewBranchReferenceName repoBranch) →
  gogit.remote
    (DeployToGit manifests CommitChanges kubeClient host argocdNs arlonNs
       clusterName repoUrl repoBranch basePath profileName s).2
    !! (url, branch)
  = gogit.remote s !! (url, branch).
Proof.
  intros Hkeep Hother. rewrite DeployToGit_stages.
  pose proof (buildWorkingTree_quiet manifests kubeClient host argocdNs
                arlonNs clusterName repoUrl repoBranch basePath profileName s)
    as [Hr _].
  cbv zeta in Hr. unfold bind at 1.
  destruct (buildWorkingTree manifests kubeClient host argocdNs arlonNs
              clusterName repoUrl repoBranch basePath profileName s)
    as [[built|err] s1] eqn:Hb; simpl in Hr |- *; [|by rewrite Hr].
  apply buildWorkingTree_Ok_inv in Hb
    as (? & ? & ? & head & older & ? & fs2 & _ & _ & _ & _ & _ & _ & _ & _
        & _ & ->).
  unfold bind, orReturn, gogit.onRepository, clonedSession. simpl.
  specialize (Hkeep built.1
                {| gogit.origin := repoUrl;
                   gogit.branch := gogit.NewBranchReferenceName repoBranch;
                   gogit.commits := head :: older;
                   gogit.Filesystem := fs2 |}).
  destruct (CommitChanges built.1 _) as [[changed|err] r']; simpl in *;
    [|done].
  destruct Hkeep as [Ho Hbr].
  destruct changed; simpl; [|done].
  unfold gogit.Push. simpl.
  destruct (gogit.pushFault host); simpl; [done|].
  case_decide; simpl; [done|].
  rewrite Ho, Hbr. by rewrite lookup_insert_ne.
Qed.

End Calls.

(** ** What a build never does to the worktree *)

Lemma grows_run {A B} (m : SE billy.Filesystem A)
    (k : A → SE billy.Filesystem B) :
  (∀ fs, grows fs (m fs).2) → (∀ a fs, grows fs (k a fs).2) →
  ∀ fs, grows fs (bind m k fs).2.
Proof.
  intros Hm Hk fs. unfold bind. specialize (Hm fs).
  destruct (m fs) as [[a|err] fs1]; simpl in *; [|done].
  eapply grows_trans; [done|apply Hk].
Qed.

Lemma grows_orReturn {A} (m : SE billy.Filesystem A)
    (errorf : string → string) :
  (∀ fs, grows fs (m fs).2) → ∀ fs, grows fs (orReturn m errorf fs).2.
Proof. intros Hm fs. rewrite orReturn_state. apply Hm. Qed.

Lemma grows_forRange {A} (l : list A) (body : A → SE billy.Filesystem unit) :
  (∀ x fs, grows fs (body x fs).2) → ∀ fs, grows fs (forRange l body fs).2.
Proof.
  intros Hbody. induction l as [|x l IH]; intros fs; [apply grows_refl|].
  cbn [forRange]. by apply grows_run.
Qed.

Lemma mkdirAllAt_grows (k : list string) (fs : billy.Filesystem) :
  grows fs (billy.mkdirAllAt k fs).2.
Proof.
  unfold billy.mkdirAllAt. destruct (existsb _ _); [apply grows_refl|].
  split; simpl; [set_solver|done].
Qed.

Lemma MkdirAll_grows (p : string) (fs : billy.Filesystem) :
  grows fs (billy.MkdirAll p fs).2.
Proof.
  unfold billy.MkdirAll.
  destruct (billy.locate p); [apply mkdirAllAt_grows|apply grows_refl..].
Qed.

Lemma Create_grows (p : string) (fs : billy.Filesystem) :
  grows fs (billy.Create p fs).2.
Proof.
  unfold billy.Create.
  destruct (billy.locate p) as [k| |]; [|apply grows_refl..].
  revert fs. apply grows_run; [apply mkdirAllAt_grows|].
  intros _ fs. destruct (billy.is_dir fs k); [apply grows_refl|].
  split; simpl; [done|]. intros q Hq.
  destruct (decide (q = k)) as [->|Hne].
  - rewrite lookup_insert_eq. eauto.
  - by rewrite lookup_insert_ne.
Qed.

Lemma Write_grows (f : billy.File) (d : bytes) (fs : billy.Filesystem) :
  grows fs (billy.Write f d fs).2.
Proof.
  split; simpl; [done|]. intros q Hq.
  destruct (decide (q = f)) as [->|Hne].
  - rewrite lookup_insert_eq. eauto.
  - by rewrite lookup_insert_ne.
Qed.

Lemma Execute_grows (t : list template.Node) (w : billy.File)
    (data : string → option string) (fs : billy.Filesystem) :
  grows fs (template.Execute t w data fs).2.
Proof.
  unfold template.Execute. revert fs. apply grows_forRange.
  intros [text|field] fs; [apply Write_grows|].
  destruct (data field); [apply Write_grows|apply grows_refl].
Qed.

Lemma copyInlineBundle_grows (tmpl : list template.Node)
    (clusterName repoUrl mgmtPath workloadPath : string)
    (bundle : inlineBundle) (fs : billy.Filesystem) :
  grows fs (copyInlineBundle tmpl clusterName repoUrl mgmtPath workloadPath
              bundle fs).2.
Proof.
  unfold copyInlineBundle. revert fs.
  apply grows_run; [apply grows_orReturn, MkdirAll_grows|]. intros _.
  apply grows_run; [apply grows_orReturn, Create_grows|]. intros dst.
  destruct (data bundle) as [payload|]; [|intros fs; apply grows_refl].
  apply grows_run; [apply grows_orReturn, Write_grows|]. intros _.
  apply grows_run; [apply grows_orReturn, Create_grows|]. intros dst2.
  apply grows_orReturn, Execute_grows.
Qed.

Lemma copyInlineBundles_grows
    (clusterName repoUrl mgmtPath workloadPath : string)
    (bundles : list inlineBundle) (fs : billy.Filesystem) :
  grows fs (copyInlineBundles clusterName repoUrl mgmtPath workloadPath
              bundles fs).2.
Proof.
  unfold copyInlineBundles. case_decide; [apply grows_refl|].
  revert fs. apply grows_run.
  { intros fs. rewrite orReturn_state. apply grows_refl. }
  intros tmpl. apply grows_forRange. apply copyInlineBundle_grows.
Qed.

Lemma copyManifest_grows (mgmtPath : string) (item : DirEntry) :
  ∀ root fs, grows fs (copyManifest root mgmtPath item fs).2.
Proof.
  induction item as [n contents|n entries IH] using DirEntry_tree_ind;
    intros root.
  - cbn [copyManifest].
    apply grows_run; [apply grows_orReturn, Create_grows|]. intros dst.
    apply grows_orReturn, Write_grows.
  - rewrite copyManifest_Directory. unfold copyManifests.
    induction IH as [|i rest Hi _ IHrest]; intros fs; [apply grows_refl|].
    cbn [forRange]. revert fs. apply grows_run; [apply Hi|].
    intros _. apply IHrest.
Qed.

Lemma copyManifests_grows (items : list DirEntry) (root mgmtPath : string)
    (fs : billy.Filesystem) :
  grows fs (copyManifests items root mgmtPath fs).2.
Proof.
  unfold copyManifests. revert fs. apply grows_forRange.
  intros item fs. apply copyManifest_grows.
Qed.

(** X6: copying the embedded manifests and the inline bundles never
    removes anything from the worktree.  Whether a copy succeeds or stops
    with an error, every directory that was there is still there and every
    path that held a file still holds one: files that an earlier deploy
    wrote, such as those of a bundle that the profile no longer names, stay
    in the tree. *)
Theorem copies_never_remove (items : list DirEntry)
    (root clusterName repoUrl mgmtPath workloadPath : string)
    (bundles : list inlineBundle) (fs : billy.Filesystem) :
  let fs1 := (copyManifests items root mgmtPath fs).2 in
  let fs2 := (copyInlineBundles clusterName repoUrl mgmtPath workloadPath
                bundles fs1).2 in
  (billy.dirs fs ⊆ billy.dirs fs1
   ∧ ∀ k, is_Some (billy.files fs !! k) → is_Some (billy.files fs1 !! k))
  ∧ (billy.dirs fs1 ⊆ billy.dirs fs2
     ∧ ∀ k, is_Some (billy.files fs1 !! k) → is_Some (billy.files fs2 !! k)).
Proof.
  intros fs1 fs2. split.
  - apply copyManifests_grows.
  - apply copyInlineBundles_grows.
Qed.

(** ** The errors of a bundle copy *)
Section BundleErrors.

Variables clusterName repoUrl mgmtPath workloadPath : string.

Lemma copyInlineBundle_errors (bundle : inlineBundle)
    (fs fs' : billy.Filesystem) (msg : string) :
  copyInlineBundle appNodes clusterName repoUrl mgmtPath workloadPath bundle fs
  = (Error msg, fs') →
  stopsAt mgmtPath bundle msg.
Proof.
  unfold copyInlineBundle, stopsAt.
  destruct (billy.MkdirAll (path.Join [workloadPath; name bundle]) fs)
    as [[[]|err] fs1] eqn:H1.
  2:{ erewrite bind_Error by (by apply orReturn_Error).
      intros [= <- _]. left. by eexists. }
  erewrite bind_Ok by (by apply orReturn_Ok).
  fold (bundlePathOf workloadPath (name bundle)).
  destruct (billy.Create (bundlePathOf workloadPath (name bundle)) fs1)
    as [[dst|err] fs2] eqn:H2.
  2:{ erewrite bind_Error by (by apply orReturn_Error).
      intros [= <- _]. right. left. by eexists. }
  erewrite bind_Ok by (by apply orReturn_Ok).
  destruct (data bundle) as [payload|].
  2:{ intros [= <- _]. right. right. by left. }
  apply Create_Ok_iff in H2 as (_ & _ & _ & ->).
  erewrite bind_Ok by (apply orReturn_Ok, Write_putAt).
  fold (appPathOf mgmtPath (name bundle)).
  destruct (billy.Create (appPathOf mgmtPath (name bundle))
              (putAt dst ([] ++ payload) fs1)) as [[dst2|err] fs4] eqn:H4.
  2:{ erewrite bind_Error by (by apply orReturn_Error).
      intros [= <- _]. right. right. right. by eexists. }
  erewrite bind_Ok by (by apply orReturn_Ok).
  apply Create_Ok_iff in H4 as (_ & _ & _ & ->).
  destruct (appNodes_texts clusterName (name bundle) workloadPath repoUrl)
    as (texts & Hm & Ht).
  erewrite orReturn_Ok; [done|].
  by rewrite (Execute_created _ _ _ _ _ _ Hm).
Qed.

(** X7: a copy of the inline bundles stops only at a directory or a file
    that the worktree refuses, or at a bundle with no payload, and then at
    the first bundle that cannot be copied.  The template of the stub always
    parses and every field it names is a field of the settings it is
    rendered with, so neither parsing nor rendering is ever the step that
    fails (a write to a file that was opened does not fail in this model of
    the worktree). *)
Theorem copyInlineBundles_errors (bundles : list inlineBundle)
    (fs fs' : billy.Filesystem) (msg : string) :
  copyInlineBundles clusterName repoUrl mgmtPath workloadPath bundles fs
  = (Error msg, fs') →
  ∃ before bundle after,
    bundles = before ++ bundle :: after
    ∧ is_ok (copyInlineBundles clusterName repoUrl mgmtPath workloadPath
               before fs).1 = true
    ∧ ((∃ err, msg = "failed to create directory in working tree: " +:+ err)
       ∨ (∃ err, msg = "failed to create file in working tree: " +:+ err)
       ∨ (data bundle = None
          ∧ msg = "inline bundle " +:+ name bundle +:+ " has no data")
       ∨ (∃ err, msg = "failed to create application file "
                       +:+ path.Join [mgmtPath; "templates";
                                      name bundle +:+ ".yaml"]
                       +:+ ": " +:+ err)).
Proof.
  rewrite copyInlineBundles_forRange. revert fs.
  induction bundles as [|b bundles IH]; intros fs; [done|].
  cbn [forRange]. unfold bind at 1.
  destruct (copyInlineBundle appNodes clusterName repoUrl mgmtPath
              workloadPath b fs) as [[[]|err] fs1] eqn:Hb.
  - intros H. apply IH in H as (before & bundle & after & -> & Hok & Hmsg).
    exists (b :: before), bundle, after. split; [done|]. split; [|done].
    rewrite copyInlineBundles_forRange in Hok |- *. cbn [forRange].
    by rewrite (bind_Ok _ _ _ _ _ Hb).
  - intros [= <- _]. exists [], b, bundles. split; [done|]. split; [done|].
    by eapply copyInlineBundle_errors.
Qed.

End BundleErrors.

(** ** Paths in general *)

Lemma Split_nonempty (s : string) (sep : ascii) : gostrings.Split s sep ≠ [].
Proof.
  induction s as [|c s IH]; [done|]. simpl.
  destruct (decide (c = sep)); [done|].
  by destruct (gostrings.Split s sep).
Qed.

Lemma Split_app_sep (a b : string) (sep : ascii) :
  gostrings.Split (a +:+ String sep b) sep
  = gostrings.Split a sep ++ gostrings.Split b sep.
Proof.
  induction a as [|c a IH].
  - simpl. by rewrite decide_True.
  - rewrite append_cons. cbn [gostrings.Split]. rewrite IH.
    destruct (decide (c = sep)); [done|].
    pose proof (Split_nonempty a sep).
    by destruct (gostrings.Split a sep).
Qed.

Lemma Split_all_noSlash (s : string) :
  Forall (λ e, noSlash e = true) (gostrings.Split s "/").
Proof.
  induction s as [|c s IH]; [by repeat constructor|].
  cbn [gostrings.Split]. destruct (decide (c = "/"%char)) as [|Hc].
  - by constructor.
  - pose proof (Split_nonempty s "/").
    destruct (gostrings.Split s "/") as [|h t]; [done|].
    inversion IH as [|? ? Hh Ht]; subst. constructor; [|done].
    simpl. by rewrite bool_decide_eq_true_2.
Qed.

Lemma Split_Join_noSlash (es : list string) :
  es ≠ [] → Forall (λ e, noSlash e = true) es →
  gostrings.Split (gostrings.Join es "/") "/" = es.
Proof.
  induction es as [|x es IH]; [done|]. intros _ Hall.
  inversion Hall as [|? ? Hx Hes]; subst.
  destruct es as [|y es].
  - by apply Split_noSlash.
  - rewrite Join_cons_cons. rewrite Split_append_slash by done.
    by rewrite IH.
Qed.

Lemma rooted_append (p rest : string) :
  p ≠ "" → path.rooted (p +:+ rest) = path.rooted p.
Proof. destruct p as [|c p]; [done|]. intros _. by rewrite append_cons. Qed.

Lemma rooted_noSlash (x rest : string) :
  x ≠ "" → noSlash x = true → path.rooted (x +:+ rest) = false.
Proof.
  intros Hne Hx. destruct x as [|c x]; [done|]. simpl in Hx.
  apply andb_prop in Hx as [Hc _]. apply bool_decide_eq_true in Hc.
  rewrite append_cons. unfold path.rooted.
  destruct c as [[] [] [] [] [] [] [] []]; try done.
Qed.

(** *** What cleaning keeps *)

Lemma keptStack_noSlash (isRooted : bool) (kept : list string) :
  keptStack isRooted kept →
  Forall (λ e, e ≠ "" ∧ noSlash e = true) kept.
Proof.
  intros (n & names & -> & Hnames & _). apply Forall_app. split.
  - eapply Forall_impl; [|exact Hnames]. intros e He. simpl.
    split; [by apply validName_ne in He as (? & _)|by apply validName_noSlash].
  - apply Forall_forall. intros e He%list_elem_of_In.
    by apply elem_of_replicate in He as [-> _].
Qed.

Lemma elem_step_keptStack (isRooted : bool) (kept : list string) (e : string) :
  noSlash e = true → keptStack isRooted kept →
  keptStack isRooted (path.elem_step isRooted kept e).
Proof.
  intros He (n & names & -> & Hnames & Hroot). unfold path.elem_step.
  destruct (decide (e = "")); [by exists n, names|].
  destruct (decide (e = ".")); [by exists n, names|].
  destruct (decide (e = "..")) as [->|Hdots].
  - destruct names as [|x names].
    + destruct n as [|n]; simpl.
      * destruct isRooted; [by exists 0, []|].
        by exists 1, [].
      * rewrite ?decide_True by done.
        exists (S (S n)), []. split; [done|]. split; [done|].
        intros Hr. by specialize (Hroot Hr).
    + inversion Hnames as [|? ? Hx Hrest]; subst. simpl.
      rewrite decide_False by (by apply validName_ne in Hx as (? & ? & ?)).
      by exists n, names.
  - exists n, (e :: names). split; [done|]. split; [|done].
    constructor; [|done]. unfold validName.
    rewrite He, bool_decide_eq_true_2; done.
Qed.

Lemma fold_elem_step_keptStack (isRooted : bool) (l kept : list string) :
  Forall (λ e, noSlash e = true) l → keptStack isRooted kept →
  keptStack isRooted (fold_left (path.elem_step isRooted) l kept).
Proof.
  revert kept. induction l as [|e l IH]; intros kept Hall Hkept; [done|].
  inversion Hall; subst. simpl. apply IH; [done|].
  by apply elem_step_keptStack.
Qed.

Lemma keptStack_of_path (p : string) :
  keptStack (path.rooted p)
    (fold_left (path.elem_step (path.rooted p)) (gostrings.Split p "/") []).
Proof.
  apply fold_elem_step_keptStack; [apply Split_all_noSlash|].
  by exists 0, [].
Qed.

Lemma elem_steps_dots (n m : nat) :
  fold_left (path.elem_step false) (replicate n "..") (replicate m "..")
  = replicate (n + m) "..".
Proof.
  revert m. induction n as [|n IH]; intros m; [done|]. simpl.
  replace (path.elem_step false (replicate m "..") "..")
    with (replicate (S m) "..").
  - rewrite IH. by replace (n + S m) with (S (n + m)) by lia.
  - unfold path.elem_step. simpl. destruct m as [|m]; [done|]. simpl.
    by rewrite ?decide_True.
Qed.

Lemma rev_replicate {A} (n : nat) (x : A) :
  rev (replicate n x) = replicate n x.
Proof.
  induction n as [|n IH]; [done|]. simpl. rewrite IH.
  symmetry. apply replicate_cons_app.
Qed.

(** The steps that gave a stack give it again on its own elements. *)
Lemma elem_steps_again (isRooted : bool) (kept : list string) :
  keptStack isRooted kept →
  fold_left (path.elem_step isRooted) (rev kept) [] = kept.
Proof.
  intros (n & names & -> & Hnames & Hroot).
  rewrite rev_app_distr, fold_left_app.
  assert (fold_left (path.elem_step isRooted) (rev (replicate n "..")) []
          = replicate n "..") as ->.
  { destruct n as [|n]; [done|]. destruct isRooted.
    - by specialize (Hroot eq_refl).
    - rewrite rev_replicate.
      change (@nil string) with (replicate 0 "..").
      rewrite (elem_steps_dots (S n) 0). by replace (S n + 0) with (S n) by lia. }
  rewrite elem_steps_valid.
  - by rewrite rev_involutive.
  - apply Forall_forall. intros e He. rewrite <- in_rev in He.
    revert e He. by apply Forall_forall.
Qed.

Lemma Join_empty_inv (es : list string) :
  Forall (λ e, e ≠ "") es → gostrings.Join es "/" = "" → es = [].
Proof.
  destruct es as [|x es]; [done|]. intros Hall Hjoin.
  inversion Hall; subst. by apply Join_nonempty in Hjoin.
Qed.

Lemma Clean_elems (isRooted : bool) (es : list string) :
  Forall (λ e, e ≠ "" ∧ noSlash e = true) es →
  fold_left (path.elem_step isRooted) es [] = rev es →
  let cleaned :=
    if isRooted then "/" +:+ gostrings.Join es "/"
    else if decide (gostrings.Join es "/" = "") then "."
         else gostrings.Join es "/" in
  path.elems cleaned = es
  ∧ path.rooted cleaned = isRooted
  ∧ cleaned ≠ "".
Proof.
  intros Hall Hagain cleaned. subst cleaned.
  assert (Forall (λ e, e ≠ "") es) as Hne.
  { eapply Forall_impl; [|exact Hall]. by intros e [? _]. }
  assert (Forall (λ e, noSlash e = true) es) as Hslash.
  { eapply Forall_impl; [|exact Hall]. by intros e [_ ?]. }
  destruct isRooted.
  - change ("/" +:+ gostrings.Join es "/")
      with (String "/" (gostrings.Join es "/")).
    split; [|done]. unfold path.elems. cbn [path.rooted gostrings.Split].
    rewrite decide_True by done. cbn [fold_left].
    change (path.elem_step true [] "") with (@nil string).
    destruct es as [|x es]; [done|].
    rewrite Split_Join_noSlash by done.
    by rewrite Hagain, rev_involutive.
  - destruct (decide (gostrings.Join es "/" = "")) as [Hempty|Hfull].
    + apply Join_empty_inv in Hempty; [|done]. by subst es.
    + destruct es as [|x es]; [done|].
      inversion Hall as [|? ? [Hx1 Hx2] _]; subst.
      destruct (Join_head x es) as [rest Hrest].
      assert (path.rooted (gostrings.Join (x :: es) "/") = false) as Hr.
      { rewrite Hrest. by apply rooted_noSlash. }
      split; [|done]. unfold path.elems. rewrite Hr.
      rewrite Split_Join_noSlash by done.
      by rewrite Hagain, rev_involutive.
Qed.

(** [Clean] is idempotent on the elements, keeps a path rooted or not, and
    never returns the empty string. *)
Lemma Clean_spec (p : string) :
  path.elems (path.Clean p) = path.elems p
  ∧ path.rooted (path.Clean p) = path.rooted p
  ∧ path.Clean p ≠ "".
Proof.
  pose proof (keptStack_of_path p) as Hkept.
  apply Clean_elems.
  - apply keptStack_noSlash in Hkept. unfold path.elems.
    apply Forall_forall. intros e He. rewrite <- in_rev in He.
    revert e He. by apply Forall_forall.
  - unfold path.elems. rewrite rev_involutive.
    by eapply elem_steps_again.
Qed.

Lemma elems_Clean (p : string) : path.elems (path.Clean p) = path.elems p.
Proof. apply Clean_spec. Qed.

Lemma Clean_nonempty (p : string) : path.Clean p ≠ "".
Proof. apply Clean_spec. Qed.

(** Valid names below a path are its own elements and then the names. *)
Lemma elems_below (p : string) (a : list string) :
  p ≠ "" → a ≠ [] → Forall (λ e, validName e = true) a →
  path.elems (p +:+ "/" +:+ gostrings.Join a "/") = path.elems p ++ a.
Proof.
  intros Hp Ha Hall. unfold path.elems.
  rewrite rooted_append by done.
  change ("/" +:+ gostrings.Join a "/")
    with (String "/" (gostrings.Join a "/")).
  rewrite Split_app_sep, Split_Join by done.
  rewrite fold_left_app, elem_steps_valid by done.
  by rewrite rev_app_distr, rev_involutive.
Qed.

Lemma path_Join_two (p q : string) :
  p ≠ "" → path.Join [p; q] = path.Clean (p +:+ "/" +:+ q).
Proof. intros Hp. cbn [path.Join]. by rewrite decide_False. Qed.

Lemma path_Join_nonempty (b c x : string) : x ≠ "" → path.Join [b; c; x] ≠ "".
Proof.
  intros Hx. cbn [path.Join].
  destruct (decide (b = "")); [|apply Clean_nonempty].
  destruct (decide (c = "")); [|apply Clean_nonempty].
  rewrite decide_False by done. apply Clean_nonempty.
Qed.

Lemma elems_Join_below (p : string) (a : list string) :
  p ≠ "" → a ≠ [] → Forall (λ e, validName e = true) a →
  path.elems (path.Join [p; gostrings.Join a "/"]) = path.elems p ++ a.
Proof.
  intros Hp Ha Hall. rewrite path_Join_two by done.
  rewrite elems_Clean. by apply elems_below.
Qed.

Lemma elems_below_name (p n : string) :
  p ≠ "" → validName n = true →
  path.elems (p +:+ "/" +:+ n) = path.elems p ++ [n].
Proof.
  intros Hp Hn. apply (elems_below p [n]); [done..|by constructor].
Qed.

Lemma elems_Join_name (p n : string) :
  p ≠ "" → validName n = true →
  path.elems (path.Join [p; n]) = path.elems p ++ [n].
Proof.
  intros Hp Hn. apply (elems_Join_below p [n]); [done..|by constructor].
Qed.

Lemma locate_Inside (p : string) (k : list string) :
  billy.locate p = billy.Inside k → k = path.elems p.
Proof.
  unfold billy.locate.
  destruct (path.elems p) as [|x [|y l]]; repeat case_match; congruence.
Qed.

Lemma locate_elems (p q : string) :
  path.elems p = path.elems q → billy.locate p = billy.locate q.
Proof. unfold billy.locate. by intros ->. Qed.

(** ** Requests, without an assumption on the worktree *)

Lemma execOp_grows (op : Op) (fs fs' : billy.Filesystem) :
  execOp op fs = Some fs' → grows fs fs'.
Proof.
  destruct op as [p|p d]; simpl.
  - pose proof (MkdirAll_grows p fs) as H.
    destruct (billy.MkdirAll p fs) as [[[]|err] fs1]; [|done].
    by intros [= <-].
  - pose proof (Create_grows p fs) as H.
    destruct (billy.Create p fs) as [[dst|err] fs1]; [|done].
    intros [= <-]. eapply grows_trans; [exact H|apply Write_grows].
Qed.

Lemma execOps_grows (ops : list Op) (fs fs' : billy.Filesystem) :
  execOps ops fs = Some fs' → grows fs fs'.
Proof.
  revert fs. induction ops as [|op ops IH]; intros fs; simpl.
  - intros [= <-]. apply grows_refl.
  - destruct (execOp op fs) as [fs1|] eqn:Hop; [|done]. intros Hrest.
    eapply grows_trans; [by eapply execOp_grows|by apply IH].
Qed.

Lemma execOp_settled (op : Op) (fs fs' : billy.Filesystem) :
  execOp op fs = Some fs' → settled fs' op.
Proof.
  destruct op as [p|p d].
  - intros H%execOp_Mkdir_Some%MkdirAll_Ok_iff. simpl.
    destruct (billy.locate p) as [k| |]; [|done..].
    destruct H as [_ ->]. simpl. intros q Hq. set_solver.
  - intros (k & Hk & _ & _ & _ & ->)%execOp_Put_Some. simpl.
    exists k. split; [done|]. split.
    + rewrite lookup_insert_eq. eauto.
    + intros q Hq. set_solver.
Qed.

(** Every request that was served is settled in what the requests left. *)
Lemma execOps_settled (ops : list Op) (fs fs' : billy.Filesystem) :
  execOps ops fs = Some fs' → Forall (settled fs') ops.
Proof.
  revert fs. induction ops as [|op ops IH]; intros fs; simpl; [done|].
  destruct (execOp op fs) as [fs1|] eqn:Hop; [|done]. intros Hrest.
  constructor; [|by eapply IH].
  eapply settled_grows; [by eapply execOps_grows|by eapply execOp_settled].
Qed.

(** A file that was served found its place free when the requests began:
    no file above it, and no directory at it. *)
Lemma execOps_Put_free (ops : list Op) (fs fs' : billy.Filesystem)
    (p : string) (d : bytes) (k : list string) :
  execOps ops fs = Some fs' → Put p d ∈ ops →
  billy.locate p = billy.Inside k →
  (∀ q, q ∈ billy.prefixes (billy.parent k) → billy.files fs !! q = None)
  ∧ k ∉ billy.dirs fs.
Proof.
  revert fs. induction ops as [|op ops IH]; intros fs; simpl.
  - intros _ Hin. by apply elem_of_nil in Hin.
  - destruct (execOp op fs) as [fs1|] eqn:Hop; [|done].
    intros Hrest Hin Hk. apply elem_of_cons in Hin as [<-|Hin].
    + apply execOp_Put_Some in Hop as (k' & Hk' & Hfree & _ & Hdir & _).
      assert (k' = k) as -> by congruence. done.
    + destruct (IH fs1 Hrest Hin Hk) as [Hfree Hdir].
      apply execOp_grows in Hop as [Hdirs Hfiles]. split.
      * intros q Hq. specialize (Hfree q Hq).
        destruct (billy.files fs !! q) eqn:E; [|done].
        destruct (Hfiles q) as [x Hx]; [by eexists|]. congruence.
      * intros Hin'. by apply Hdir, Hdirs.
Qed.

(** ** A file in the way *)

(** X8: a base artifact whose place in the worktree is taken stops the
    copy of the embedded manifests.  When the cloned tree holds a file
    where the artifact needs a directory, or a directory where the artifact
    itself goes, [copyManifests] returns an error. *)
Theorem blocked_artifact_stops_copy (manifests : list DirEntry)
    (mgmtPath : string) (fs : billy.Filesystem) (e : string * bytes)
    (k q : list string) :
  forallb validEntry manifests = true →
  e ∈ baseLayout mgmtPath manifests →
  billy.locate e.1 = billy.Inside k →
  (q ∈ billy.prefixes (billy.parent k) ∧ is_Some (billy.files fs !! q))
  ∨ k ∈ billy.dirs fs →
  isError (copyManifests (content manifests) "." mgmtPath fs).1.
Proof.
  intros Hvalid He Hk Hblocked.
  destruct (copyManifests (content manifests) "." mgmtPath fs)
    as [[[]|err] fs1] eqn:Hcopy; [|done].
  exfalso. apply copyManifests_Ok_iff in Hcopy.
  assert (Put e.1 e.2 ∈ flat_map (manifestOps "manifests" mgmtPath) manifests)
    as Hput.
  { rewrite <- (putsOf_manifests mgmtPath manifests Hvalid) in He.
    unfold putsOf in He. apply list_elem_of_omap in He as (op & Hop & Heq).
    destruct op as [|p d]; [done|]. by injection Heq as <-. }
  destruct (execOps_Put_free _ _ _ _ _ _ Hcopy Hput Hk) as [Hfree Hdir].
  destruct Hblocked as [[Hq [x Hx]]|Hin]; [|done].
  specialize (Hfree q Hq). congruence.
Qed.

(** ** Where the stub points, and where the root application points *)

Lemma validName_yaml (n : string) :
  validName n = true → validName (n +:+ ".yaml") = true.
Proof.
  intros Hn. unfold validName. apply andb_true_intro. split.
  - apply bool_decide_eq_true.
    pose proof (length_append n ".yaml") as Hlen. simpl in Hlen.
    repeat split; intros Heq; rewrite Heq in Hlen; simpl in Hlen; lia.
  - apply validName_noSlash in Hn. clear -Hn.
    induction n as [|c n IH]; [done|]. rewrite append_cons. simpl in *.
    apply andb_prop in Hn as [Hc Hn]. by rewrite Hc, IH.
Qed.

Lemma artifactsOf_valid (item : DirEntry) :
  validEntry item = true →
  Forall (λ a, a.1 ≠ [] ∧ Forall (λ e, validName e = true) a.1)
    (artifactsOf item).
Proof.
  induction item as [n contents|n entries IH] using DirEntry_tree_ind.
  - simpl. intros [Hn _]%andb_prop. repeat constructor; done.
  - cbn [validEntry artifactsOf embed.Name].
    intros [Hn Hentries]%andb_prop.
    apply Forall_fmap. simpl.
    assert (Forall (λ a, a.1 ≠ [] ∧ Forall (λ e, validName e = true) a.1)
              (flat_map artifactsOf entries)) as Hall.
    { clear Hn. induction IH as [|i rest Hi _ IHrest]; [done|]. simpl in *.
      apply andb_prop in Hentries as [Hv Hrest].
      apply Forall_app. split; [by apply Hi|by apply IHrest]. }
    eapply Forall_impl; [|exact Hall]. intros a [_ Ha]. simpl.
    split; [done|by constructor].
Qed.

Lemma artifacts_valid (manifests : list DirEntry) :
  forallb validEntry manifests = true →
  Forall (λ a, a.1 ≠ [] ∧ Forall (λ e, validName e = true) a.1)
    (flat_map artifactsOf manifests).
Proof.
  induction manifests as [|i rest IH]; [done|]. simpl.
  intros [Hi Hrest]%andb_prop. apply Forall_app.
  split; [by apply artifactsOf_valid|by apply IH].
Qed.

Lemma append_inj_r (a b s : string) : a +:+ s = b +:+ s → a = b.
Proof.
  revert b. induction a as [|c a IH]; intros b H.
  - apply (f_equal String.length) in H. rewrite !length_append in H.
    destruct b; [done|]. simpl in H. lia.
  - destruct b as [|c' b].
    + apply (f_equal String.length) in H. rewrite !length_append in H.
      simpl in H. lia.
    + rewrite !append_cons in H. injection H as -> H. f_equal. by apply IH.
Qed.

(** When every file written to a place has the same content, that content
    is what the place holds. *)
Lemma writeAll_same (l : list (string * bytes)) (k : list string) (d : bytes)
    (m : gmap (list string) bytes) :
  Exists (λ e, billy.locate e.1 = billy.Inside k) l →
  Forall (λ e, billy.locate e.1 = billy.Inside k → e.2 = d) l →
  writeAll l m !! k = Some d.
Proof.
  intros Hex Hall. rewrite writeAll_lookup.
  assert (Exists (λ e, billy.locate e.1 = billy.Inside k) l
          ∨ m !! k = Some d) as Hstart by by left.
  clear Hex. revert Hstart. generalize (m !! k). clear m.
  induction Hall as [|e l He Hl IH]; intros acc Hstart; simpl.
  - destruct Hstart as [Hex|?]; [inversion Hex|done].
  - apply IH. destruct (decide (billy.locate e.1 = billy.Inside k)) as [Hk|Hk].
    + right. by rewrite He.
    + destruct Hstart as [Hex|?]; [|by right]. left.
      by inversion Hex.
Qed.

(** The elements of [Join(b, c, x)] are the same for every name [x], up
    to that name at the end. *)
Lemma Join_three_elems (b c : string) :
  ∃ X, ∀ x, validName x = true → path.elems (path.Join [b; c; x]) = X ++ [x].
Proof.
  assert (∀ (r : bool) kept x, validName x = true →
            path.elem_step r kept x = x :: kept) as Hstep.
  { intros r kept x (H1 & H2 & H3)%validName_ne. unfold path.elem_step.
    by rewrite !decide_False. }
  destruct (decide (b = "")) as [->|Hb].
  - destruct (decide (c = "")) as [->|Hc].
    + exists []. intros x Hx. cbn [path.Join].
      rewrite !decide_True by done.
      rewrite decide_False by (by apply validName_ne in Hx as (? & _)).
      change (gostrings.Join [x] "/") with x. rewrite elems_Clean.
      unfold path.elems. rewrite Split_noSlash by by apply validName_noSlash.
      simpl. by rewrite Hstep.
    + exists (path.elems c). intros x Hx. cbn [path.Join].
      rewrite decide_True by done. rewrite decide_False by done.
      change (gostrings.Join [c; x] "/") with (c +:+ "/" +:+ x).
      rewrite elems_Clean. by apply elems_below_name.
  - exists (rev (fold_left (path.elem_step (path.rooted b))
                   (gostrings.Split b "/" ++ gostrings.Split c "/") [])).
    intros x Hx. cbn [path.Join]. rewrite decide_False by done.
    change (gostrings.Join [b; c; x] "/")
      with (b +:+ String "/" (c +:+ String "/" x)).
    rewrite elems_Clean. unfold path.elems.
    rewrite rooted_append by done.
    rewrite !Split_app_sep, app_assoc, fold_left_app.
    rewrite Split_noSlash by by apply validName_noSlash.
    simpl. by rewrite Hstep.
Qed.

(** The base artifacts as a successful copy leaves them: each at its own
    path below the management path, with its content, and nothing else
    changed. *)
Lemma manifests_contents (manifests : list DirEntry) (mgmtPath : string)
    (fs fs1 : billy.Filesystem) :
  mgmtPath ≠ "" →
  forallb validEntry manifests = true →
  copyManifests (content manifests) "." mgmtPath fs = (Ok (), fs1) →
  (∀ before a after,
     flat_map artifactsOf manifests = before ++ a :: after →
     Forall (λ a', a'.1 ≠ a.1) after →
     billy.files fs1 !! (path.elems mgmtPath ++ a.1) = Some a.2)
  ∧ (∀ k, (∀ a, a ∈ flat_map artifactsOf manifests →
                k ≠ path.elems mgmtPath ++ a.1) →
          billy.files fs1 !! k = billy.files fs !! k).
Proof.
  intros HM Hvalid Hcopy. apply copyManifests_Ok_iff in Hcopy.
  pose proof (execOps_files _ _ _ Hcopy) as Hfiles.
  pose proof (execOps_located _ _ _ Hcopy) as Hloc.
  rewrite putsOf_manifests in Hfiles, Hloc by done.
  pose proof (artifacts_valid manifests Hvalid) as Hnames.
  rewrite Forall_forall in Hnames.
  assert (∀ a, a ∈ flat_map artifactsOf manifests →
            billy.locate (path.Join [mgmtPath; gostrings.Join a.1 "/"])
            = billy.Inside (path.elems mgmtPath ++ a.1)) as Hplace.
  { intros a Ha. rewrite Forall_forall in Hloc.
    destruct (Hloc (path.Join [mgmtPath; gostrings.Join a.1 "/"], a.2))
      as [k Hk].
    { unfold baseLayout. apply in_map_iff. exists a.
      split; [done|]. by apply list_elem_of_In. }
    cbn [fst] in Hk. pose proof (locate_Inside _ _ Hk) as ->.
    destruct (Hnames a) as [Hne Hall]; [by apply list_elem_of_In|].
    by rewrite elems_Join_below in Hk by done. }
  rewrite Hfiles. unfold baseLayout. split.
  - intros before a after Hsplit Hafter.
    assert (∀ a', a' ∈ a :: after → a' ∈ flat_map artifactsOf manifests)
      as Hin.
    { intros a' Ha'. rewrite Hsplit. apply elem_of_app. by right. }
    rewrite Hsplit, fmap_app, fmap_cons.
    apply writeAll_last.
    + cbn [fst]. apply Hplace, Hin. by left.
    + apply Forall_fmap. apply Forall_forall. intros a' Ha'.
      unfold compose. cbn [fst].
      rewrite Hplace by (apply Hin; right; by apply list_elem_of_In).
      intros [= Heq%app_inv_head].
      rewrite Forall_forall in Hafter. by apply (Hafter a').
  - intros k Hk. apply writeAll_other. apply Forall_fmap.
    apply Forall_forall. intros a Ha%list_elem_of_In.
    unfold compose. cbn [fst].
    rewrite Hplace by done. intros [= Heq]. by apply (Hk a).
Qed.

Section Places.

Variables basePath clusterName : string.

Let mgmtPath := path.Join [basePath; clusterName; "mgmt"].
Let workloadPath := path.Join [basePath; clusterName; "workload"].

Lemma workloadPath_nonempty : workloadPath ≠ "".
Proof. by apply path_Join_nonempty. Qed.

Lemma mgmtPath_nonempty : mgmtPath ≠ "".
Proof. by apply path_Join_nonempty. Qed.

(** The names of a bundle's directory and file, element by element. *)
Lemma bundle_elems (n : string) :
  validName n = true →
  path.elems (workloadPath +:+ "/" +:+ n) = path.elems workloadPath ++ [n]
  ∧ path.elems (path.Join [workloadPath; n]) = path.elems workloadPath ++ [n]
  ∧ path.elems (bundlePathOf workloadPath n)
    = path.elems workloadPath ++ [n; n +:+ ".yaml"].
Proof.
  intros Hn. pose proof workloadPath_nonempty as HW.
  pose proof (elems_Join_name workloadPath n HW Hn) as H2.
  split; [by apply elems_below_name|]. split; [done|].
  unfold bundlePathOf. rewrite elems_Join_name.
  - by rewrite H2, <- app_assoc.
  - rewrite path_Join_two by done. apply Clean_nonempty.
  - by apply validName_yaml.
Qed.

Lemma stub_elems (n : string) :
  validName n = true →
  path.elems (appPathOf mgmtPath n)
  = path.elems mgmtPath ++ ["templates"; n +:+ ".yaml"].
Proof.
  intros Hn. pose proof mgmtPath_nonempty as HM.
  unfold appPathOf. cbn [path.Join]. rewrite decide_False by done.
  change (gostrings.Join [mgmtPath; "templates"; n +:+ ".yaml"] "/")
    with (mgmtPath +:+ "/"
          +:+ gostrings.Join ["templates"; n +:+ ".yaml"] "/").
  rewrite elems_Clean. apply elems_below; [done..|].
  constructor; [done|]. constructor; [by apply validName_yaml|done].
Qed.

(** The management path and the workload path differ in their last
    element only. *)
Lemma layout_bases :
  ∃ X, path.elems mgmtPath = X ++ ["mgmt"]
       ∧ path.elems workloadPath = X ++ ["workload"].
Proof.
  destruct (Join_three_elems basePath clusterName) as [X HX].
  exists X. split; by apply HX.
Qed.

Lemma payload_not_below_mgmt (n : string) (rel : list string) :
  path.elems workloadPath ++ [n; n +:+ ".yaml"] ≠ path.elems mgmtPath ++ rel.
Proof.
  destruct layout_bases as (X & -> & ->). rewrite <- !app_assoc.
  by intros [=]%app_inv_head.
Qed.

Lemma payload_place_inj (n n' : string) :
  path.elems workloadPath ++ [n; n +:+ ".yaml"]
  = path.elems workloadPath ++ [n'; n' +:+ ".yaml"] →
  n = n'.
Proof. by intros [=]%app_inv_head. Qed.

Lemma stub_place_inj (n n' : string) :
  path.elems mgmtPath ++ ["templates"; n +:+ ".yaml"]
  = path.elems mgmtPath ++ ["templates"; n' +:+ ".yaml"] →
  n = n'.
Proof. intros [= H]%app_inv_head. by eapply append_inj_r. Qed.

Lemma stubText_path (repoUrl n : string) :
  ∃ above below,
    stubText clusterName n workloadPath repoUrl
    = above +:+ "    path: " +:+ (workloadPath +:+ "/" +:+ n) +:+ below.
Proof.
  exists ("
apiVersion: argoproj.io/v1alpha1
kind: Application
metadata:
  name: " +:+ clusterName +:+ "-" +:+ n +:+ "
  namespace: argocd
spec:
  syncPolicy:
    automated:
      prune: true
  destination:
    name: " +:+ clusterName +:+ "
    namespace: default
  project: default
  source:
    repoURL: " +:+ repoUrl +:+ "
"), "
    targetRevision: HEAD
".
  unfold stubText. rewrite !append_assoc. reflexivity.
Qed.

(** The files of the bundles as a successful copy leaves them: the stub of
    every bundle, the payload of the bundle that comes last under its name,
    and nothing else changed. *)
Lemma bundles_contents (repoUrl : string) (bundles : list inlineBundle)
    (fs fs' : billy.Filesystem) :
  Forall (λ b, validName (name b) = true) bundles →
  copyInlineBundles clusterName repoUrl mgmtPath workloadPath bundles fs
  = (Ok (), fs') →
  (∀ b, b ∈ bundles →
     billy.locate (appPathOf mgmtPath (name b))
     = billy.Inside (path.elems mgmtPath ++ ["templates"; name b +:+ ".yaml"])
     ∧ billy.locate (bundlePathOf workloadPath (name b))
       = billy.Inside (path.elems workloadPath
                       ++ [name b; name b +:+ ".yaml"])
     ∧ billy.files fs'
         !! (path.elems mgmtPath ++ ["templates"; name b +:+ ".yaml"])
       = Some (list_byte_of_string
                 (stubText clusterName (name b) workloadPath repoUrl)))
  ∧ (∀ before b after,
       bundles = before ++ b :: after →
       Forall (λ b', name b' ≠ name b) after →
       is_Some (data b)
       ∧ billy.files fs'
           !! (path.elems workloadPath ++ [name b; name b +:+ ".yaml"])
         = data b)
  ∧ (∀ k, (∀ b, b ∈ bundles →
              k ≠ path.elems workloadPath ++ [name b; name b +:+ ".yaml"]
              ∧ k ≠ path.elems mgmtPath
                    ++ ["templates"; name b +:+ ".yaml"]) →
          billy.files fs' !! k = billy.files fs !! k).
Proof.
  intros Hnames [Hdata Hops]%copyInlineBundles_Ok_iff.
  pose proof (execOps_files _ _ _ Hops) as Hfiles.
  pose proof (execOps_located _ _ _ Hops) as Hloc.
  rewrite putsOf_bundles in Hfiles, Hloc.
  rewrite Forall_forall in Hnames, Hloc, Hdata.
  set (layout := bundleLayout clusterName repoUrl mgmtPath workloadPath)
    in *.
  assert (∀ b, b ∈ bundles →
            billy.locate (appPathOf mgmtPath (name b))
            = billy.Inside (path.elems mgmtPath
                            ++ ["templates"; name b +:+ ".yaml"])
            ∧ billy.locate (bundlePathOf workloadPath (name b))
              = billy.Inside (path.elems workloadPath
                              ++ [name b; name b +:+ ".yaml"]))
    as Hplace.
  { intros b Hb%list_elem_of_In. pose proof (Hnames b Hb) as Hn.
    destruct (bundle_elems (name b) Hn) as (_ & _ & E3).
    pose proof (stub_elems (name b) Hn) as E4. split.
    - destruct (Hloc (appPathOf mgmtPath (name b),
                      list_byte_of_string
                        (stubText clusterName (name b) workloadPath repoUrl)))
        as [k Hk].
      { apply in_flat_map. exists b. split; [done|]. right. by left. }
      cbn [fst] in Hk. pose proof (locate_Inside _ _ Hk) as ->.
      by rewrite <- E4.
    - destruct (Hloc (bundlePathOf workloadPath (name b),
                      default [] (data b))) as [k Hk].
      { apply in_flat_map. exists b. split; [done|]. by left. }
      cbn [fst] in Hk. pose proof (locate_Inside _ _ Hk) as ->.
      by rewrite <- E3. }
  rewrite Hfiles. split; [|split].
  - intros b Hb. destruct (Hplace b Hb) as [HS HP].
    split; [done|]. split; [done|].
    apply writeAll_same.
    + apply List.Exists_exists. eexists. split.
      * apply in_flat_map. exists b. split; [by apply list_elem_of_In|].
        right. left. reflexivity.
      * exact HS.
    + apply Forall_forall. intros e (b' & Hb' & He)%in_flat_map.
      apply list_elem_of_In in Hb'. destruct (Hplace b' Hb') as [HS' HP'].
      destruct He as [<-|[<-|[]]]; cbn [fst snd].
      * rewrite HP'. intros [= Heq]. by apply payload_not_below_mgmt in Heq.
      * rewrite HS'. intros [= Heq%stub_place_inj]. by rewrite Heq.
  - intros before b after -> Hafter.
    assert (b ∈ before ++ b :: after) as Hb
      by (apply elem_of_app; right; by left).
    destruct (Hplace b Hb) as [HS HP].
    destruct (Hdata b) as [payload Hpayload]; [by apply list_elem_of_In|].
    split; [by eexists|].
    rewrite flat_map_app. cbn [flat_map]. unfold layout at 2.
    unfold bundleLayout. cbn [app].
    erewrite (writeAll_last _ _
                (bundlePathOf workloadPath (name b), default [] (data b)));
      [by rewrite Hpayload|exact HP|].
    constructor.
    + cbn [fst]. rewrite HS. intros [= Heq]. symmetry in Heq.
      by apply payload_not_below_mgmt in Heq.
    + apply Forall_forall. intros e (b' & Hb' & He)%in_flat_map.
      assert (b' ∈ before ++ b :: after) as Hin'
        by (apply elem_of_app; right; right; by apply list_elem_of_In).
      destruct (Hplace b' Hin') as [HS' HP'].
      rewrite Forall_forall in Hafter. specialize (Hafter b' Hb').
      destruct He as [<-|[<-|[]]]; cbn [fst].
      * rewrite HP'. by intros [= Heq%payload_place_inj].
      * rewrite HS'. intros [= Heq]. symmetry in Heq.
        by apply payload_not_below_mgmt in Heq.
  - intros k Hk. apply writeAll_other. apply Forall_forall.
    intros e (b' & Hb' & He)%in_flat_map. apply list_elem_of_In in Hb'.
    destruct (Hplace b' Hb') as [HS' HP']. destruct (Hk b' Hb') as [H1 H2].
    destruct He as [<-|[<-|[]]]; cbn [fst].
    + rewrite HP'. by intros [= Heq].
    + rewrite HS'. by intros [= Heq].
Qed.

(** X9: the stub of a bundle and its payload agree on the place, and the
    payload is there.  For bundles whose names are file names, a copy that
    succeeded has left, for each of them: the stub in its file, with a
    [path:] line that names [<workload path>/<bundle>]; that very directory
    in the worktree; and right in it the file [<bundle>.yaml], which holds
    the bytes of the payload of that bundle (of the last one, where several
    bundles of the list have the same name). *)
Theorem stub_path_holds_payload (repoUrl : string)
    (bundles : list inlineBundle) (fs fs' : billy.Filesystem) :
  Forall (λ b, validName (name b) = true) bundles →
  copyInlineBundles clusterName repoUrl mgmtPath workloadPath bundles fs
  = (Ok (), fs') →
  ∀ before b after,
    bundles = before ++ b :: after →
    ∃ dir stub above below,
      billy.locate (appPathOf mgmtPath (name b)) = billy.Inside stub
      ∧ billy.files fs' !! stub
        = Some (list_byte_of_string
                  (above +:+ "    path: "
                   +:+ (workloadPath +:+ "/" +:+ name b) +:+ below))
      ∧ billy.locate (workloadPath +:+ "/" +:+ name b) = billy.Inside dir
      ∧ dir ∈ billy.dirs fs'
      ∧ (Forall (λ b', name b' ≠ name b) after →
         ∃ payload,
           data b = Some payload
           ∧ billy.files fs' !! (dir ++ [name b +:+ ".yaml"]) = Some payload).
Proof.
  intros Hnames Hcopy before b after Hsplit.
  destruct (bundles_contents repoUrl bundles fs fs' Hnames Hcopy)
    as (Hstubs & Hpayloads & _).
  assert (b ∈ bundles) as Hb
    by (rewrite Hsplit; apply elem_of_app; right; by left).
  destruct (Hstubs b Hb) as (HS & HP & Hstub).
  rewrite Forall_forall in Hnames.
  pose proof (Hnames b (proj1 (list_elem_of_In _ _) Hb)) as Hn.
  destruct (bundle_elems (name b) Hn) as (E1 & E2 & E3).
  destruct (stubText_path repoUrl (name b)) as (above & below & Htext).
  exists (path.elems workloadPath ++ [name b]),
    (path.elems mgmtPath ++ ["templates"; name b +:+ ".yaml"]), above, below.
  split; [done|]. split; [by rewrite <- Htext|].
  assert (billy.locate (path.Join [workloadPath; name b])
          = billy.Inside (path.elems workloadPath ++ [name b])) as Hloc.
  { revert HP. unfold billy.locate. rewrite E2, E3.
    generalize (path.elems workloadPath). intros l.
    destruct l as [|x [|y l]]; cbn [app]; repeat case_match;
      congruence. }
  split; [|split].
  - rewrite <- Hloc. apply locate_elems. congruence.
  - apply copyInlineBundles_Ok_iff in Hcopy as [_ Hops].
    apply execOps_settled in Hops. rewrite Forall_forall in Hops.
    pose proof (Hops (Mkdir (path.Join [workloadPath; name b]))) as Hdir.
    cbn [settled] in Hdir. rewrite Hloc in Hdir. apply Hdir.
    + unfold bundlesOps. apply in_flat_map. exists b.
      split; [by apply list_elem_of_In|]. by left.
    + by apply elem_of_prefixes.
  - intros Hafter.
    destruct (Hpayloads before b after Hsplit Hafter) as [[payload Hp] Hfile].
    exists payload. split; [done|]. rewrite <- app_assoc.
    etrans; [exact Hfile|exact Hp].
Qed.

End Places.

(** ** The layout of the working tree *)




Lemma elem_of_putsOf (ops : list Op) (p : string) (d : bytes) :
  (p, d) ∈ putsOf ops ↔ Put p d ∈ ops.
Proof.
  unfold putsOf. rewrite list_elem_of_omap. split.
  - intros (op & Hop & Heq). destruct op; [done|]. by injection Heq as -> ->.
  - intros Hop. by exists (Put p d).
Qed.

Section RootApp.

Variable manifests : list DirEntry.
Variable CommitChanges : string → SE gogit.Repository bool.
Variable kubeClient : Clientset.
Variable host : gogit.Host.
Variables argocdNs arlonNs clusterName repoUrl repoBranch basePath
  profileName clusterSpecName : string.

(** X10: the root application and the deploy agree on where the cluster's
    configuration is.  When [ConstructRootApp] and [DeployToGit] are called
    with the same repository, branch, base path and cluster name and both
    succeed, the repository and the revision that the root application
    names are the ones that the deploy cloned, and in the worktree that the
    deploy handed to change detection every embedded artifact is the file at
    its own relative path below the path that the root application names,
    with its content; the one exception is an artifact
    [templates/<bundle>.yaml] for an inline bundle of the profile, whose
    file holds the stub of that bundle.  The names of the bundles are taken
    to be file names. *)
Theorem root_app_points_at_the_build (app : Application)
    (bundles : list inlineBundle) (s s' : gogit.Session) :
  forallb validEntry manifests = true →
  getInlineBundles profileName kubeClient arlonNs = Ok bundles →
  Forall (λ b, validName (name b) = true) bundles →
  ConstructRootApp kubeClient argocdNs arlonNs clusterName repoUrl repoBranch
    basePath clusterSpecName = Ok app →
  DeployToGit manifests CommitChanges kubeClient host argocdNs arlonNs
    clusterName repoUrl repoBranch basePath profileName s = (Ok (), s') →
  ∃ built s1 r,
    buildWorkingTree manifests kubeClient host argocdNs arlonNs clusterName
      repoUrl repoBranch basePath profileName s = (Ok built, s1)
    ∧ gogit.repo s1 = Some r
    ∧ gogit.origin r = Source_RepoURL app
    ∧ gogit.branch r
      = gogit.NewBranchReferenceName (Source_TargetRevision app)
    ∧ ∀ before a after,
        flat_map artifactsOf manifests = before ++ a :: after →
        Forall (λ a', a'.1 ≠ a.1) after →
        ((∀ b, b ∈ bundles → a.1 ≠ ["templates"; name b +:+ ".yaml"]) →
         billy.files (gogit.Filesystem r)
           !! (path.elems (Source_Path app) ++ a.1)
         = Some a.2)
        ∧ (∀ b, b ∈ bundles → a.1 = ["templates"; name b +:+ ".yaml"] →
             billy.files (gogit.Filesystem r)
               !! (path.elems (Source_Path app) ++ a.1)
             = Some (list_byte_of_string
                       (stubText clusterName (name b)
                          (path.Join [basePath; clusterName; "workload"])
                          repoUrl))).
Proof.
  intros Hvalid Hcollected Hnames Happ Hdeploy.
  rewrite DeployToGit_stages in Hdeploy.
  apply bind_inv_Ok in Hdeploy as (built & s1 & Hbuild & _).
  exists built, s1. pose proof Hbuild as Hinv.
  apply buildWorkingTree_Ok_inv in Hinv
    as (items & creds & bundles' & head & older & fs1 & fs2 & _ & _
        & Hcollected' & _ & _ & _ & Hcopy & Hbundles & _ & ->).
  assert (bundles' = bundles) as -> by congruence.
  eexists. split; [done|]. split; [reflexivity|].
  unfold ConstructRootApp in Happ.
  destruct (ConfigMapsGet kubeClient arlonNs clusterSpecName) as [cm|];
    [|done].
  injection Happ as <-. cbn [Source_RepoURL Source_TargetRevision Source_Path
                             gogit.origin gogit.branch gogit.Filesystem].
  split; [done|]. split; [done|].
  assert (path.Join [basePath; clusterName; "mgmt"] ≠ "") as HM
    by by apply path_Join_nonempty.
  destruct (manifests_contents manifests _ _ fs1 HM Hvalid Hcopy)
    as [Hartifacts _].
  destruct (bundles_contents basePath clusterName repoUrl bundles fs1 fs2
              Hnames Hbundles) as (Hstubs & _ & Hrest).
  intros before a after Hsplit Hlast. split.
  - intros Hfree. rewrite Hrest; [by eapply Hartifacts|].
    intros b Hb. split.
    + intros Heq. symmetry in Heq.
      by apply (payload_not_below_mgmt basePath clusterName) in Heq.
    + intros Heq%app_inv_head. by apply (Hfree b).
  - intros b Hb ->. by apply Hstubs.
Qed.

(** X11: the names of the Helm parameters of the root application are
    pairwise distinct, there are at most seven of them, and the one named
    [clusterName] always holds the cluster name that was passed: no entry
    of the cluster specification, whatever its key, replaces it. *)
Theorem ConstructRootApp_parameter_names (app : Application) :
  ConstructRootApp kubeClient argocdNs arlonNs clusterName repoUrl repoBranch
    basePath clusterSpecName = Ok app →
  NoDup (Name <$> Source_Helm_Parameters app)
  ∧ (length (Source_Helm_Parameters app) ≤ 7)%nat
  ∧ ∀ p, p ∈ Source_Helm_Parameters app → Name p = "clusterName" →
         Value p = clusterName.
Proof.
  unfold ConstructRootApp.
  destruct (ConfigMapsGet kubeClient arlonNs clusterSpecName) as [cm|];
    [|done].
  intros Happ.
  assert (Source_Helm_Parameters app
          = {| Name := "clusterName"; Value := clusterName |}
            :: sizingParameters cm) as ->.
  { injection Happ as <-.
    exact (helmParams_loop cm keys
             [{| Name := "clusterName"; Value := clusterName |}]). }
  unfold sizingParameters. fold keys. cbn [fmap list_fmap Name].
  set (f := λ key : string,
         match ConfigMapData cm !! key with
         | Some val =>
             if decide (val = "") then None
             else Some {| Name := key; Value := val |}
         | None => None
         end).
  assert (sublist (Name <$> omap f keys) keys) as Hsub.
  { apply omap_keyed_sublist. intros k p. unfold f.
    destruct (ConfigMapData cm !! k) as [val|]; [|done].
    case_decide; [done|]. by intros [= <-]. }
  assert (NoDup keys) as Hkeys by decided.
  assert ("clusterName" ∉ keys) as Hfresh by decided.
  split; [|split].
  - constructor; [|by eapply sublist_NoDup].
    intros Hin. by eapply Hfresh, elem_of_sublist.
  - apply sublist_length in Hsub. rewrite length_fmap in Hsub.
    change (length keys) with 6 in Hsub. cbn [length]. lia.
  - intros p [->|Hin]%elem_of_cons; [done|]. intros Hname. exfalso.
    apply Hfresh. rewrite <- Hname.
    eapply elem_of_sublist; [|exact Hsub].
    apply list_elem_of_fmap. eauto.
Qed.

End RootApp.

(** ** Package bundle: deleting a bundle *)
Section DeleteBundle.
Import apiserver bundle.

Lemma deleteBundle_Ok_inv (config : Config) (ns bundleName : string)
    (c c' : Cluster) :
  deleteBundle config ns bundleName c = (Done (Ok ()), c') →
  invalid config = None
  ∧ refused config ns bundleName = None
  ∧ is_Some (secrets c !! (ns, bundleName))
  ∧ c' = {| secrets := delete (ns, bundleName) (secrets c);
            configMaps := configMaps c |}.
Proof.
  unfold deleteBundle, NewForConfigOrDie, orReturn, deleteSecret.
  destruct (invalid config); [done|].
  destruct (refused config ns bundleName); [done|].
  destruct (secrets c !! (ns, bundleName)) as [secr|]; [|done].
  intros [= <-]. eauto.
Qed.

(** X15: the declared names are taken as they stand between the commas.
    A bundle list that starts or ends with a comma, or has two commas in a
    row, declares a bundle whose name is empty, and no such bundle can be
    fetched: on a cluster the collection fails for that profile. *)
Theorem empty_bundle_name_stops_collection (config : Config)
    (list : string → string → result (list Secret)) (c : Cluster)
    (ns profileName bundles : string) (profile : ConfigMap) :
  profileName ≠ "" →
  configMaps c !! (ns, profileName) = Some profile →
  ConfigMapData profile !! "bundles" = Some bundles →
  (∃ rest, bundles = "," +:+ rest)
  ∨ (∃ rest, bundles = rest +:+ ",")
  ∨ (∃ before after, bundles = before +:+ ",," +:+ after) →
  "" ∈ gostrings.Split bundles ","
  ∧ isError (getInlineBundles profileName (clientset config list c) ns).
Proof.
  intros Hname Hprofile Hdata Hshape.
  assert ("" ∈ gostrings.Split bundles ",") as Hin.
  { destruct Hshape as [[rest ->]|[[rest ->]|(before & after & ->)]].
    - change ("," +:+ rest) with (String "," rest).
      cbn [gostrings.Split]. rewrite decide_True by done.
      apply list_elem_of_here.
    - rewrite (Split_app_sep rest "" ","). simpl. set_solver.
    - change (",," +:+ after) with (String "," (String "," after)).
      rewrite (Split_app_sep before (String "," after) ",").
      cbn [gostrings.Split]. rewrite decide_True by done. set_solver. }
  split; [done|].
  destruct (getInlineBundles profileName (clientset config list c) ns)
    as [out|] eqn:E; [|done].
  apply getInlineBundles_Ok_inv in E
    as [?|(profile' & declared & Hget & _ & Hdata' & _ & Hall)]; [done|].
  simpl in Hget, Hall. unfold getConfigMap in Hget.
  destruct (refused config ns profileName); [done|].
  rewrite Hprofile in Hget. injection Hget as <-.
  assert (declared = bundles) as -> by congruence.
  rewrite Forall_forall in Hall.
  apply list_elem_of_In, Hall in Hin. by unfold getSecret, refused in Hin.
Qed.

End DeleteBundle.

Section DeleteAndDeploy.
Import apiserver bundle.

Variable manifests : list DirEntry.
Variable CommitChanges : string → SE gogit.Repository bool.

(** X16: [deleteBundle] does not look at the profiles.  Once it has
    deleted a bundle that a profile of the same namespace still declares,
    collecting the bundles of that profile fails, and so does every deploy
    with that profile, before anything is cloned. *)
Theorem deleted_bundle_stops_deploy (config : Config)
    (ns bundleName : string) (c c' : Cluster)
    (list : string → string → result (list Secret))
    (profileName bundles : string) (profile : ConfigMap)
    (host : gogit.Host)
    (argocdNs clusterName repoUrl repoBranch basePath : string)
    (s : gogit.Session) :
  deleteBundle config ns bundleName c = (Done (Ok ()), c') →
  profileName ≠ "" →
  configMaps c' !! (ns, profileName) = Some profile →
  ConfigMapData profile !! "bundles" = Some bundles →
  bundleName ∈ gostrings.Split bundles "," →
  let kubeClient := clientset config list c' in
  let out := DeployToGit manifests CommitChanges kubeClient host argocdNs ns
               clusterName repoUrl repoBranch basePath profileName s in
  isError (getInlineBundles profileName kubeClient ns)
  ∧ isError out.1
  ∧ out.2 = s.
Proof.
  intros Hdel Hname Hprofile Hdata Hin kubeClient out.
  apply deleteBundle_Ok_inv in Hdel as (Hvalid & Hreq & _ & ->).
  assert (isError (getInlineBundles profileName kubeClient ns)) as Herr.
  { destruct (getInlineBundles profileName kubeClient ns) as [bundles'|]
      eqn:E; [|done].
    apply getInlineBundles_Ok_inv in E
      as [?|(profile' & declared & Hget & _ & Hdata' & _ & Hall)]; [done|].
    simpl in Hget, Hall. unfold getConfigMap in Hget.
    destruct (refused config ns profileName); [done|].
    rewrite Hprofile in Hget. injection Hget as <-.
    assert (declared = bundles) as -> by congruence.
    rewrite Forall_forall in Hall.
    apply list_elem_of_In, Hall in Hin.
    unfold getSecret in Hin. rewrite Hreq in Hin. simpl in Hin.
    by rewrite lookup_delete_eq in Hin. }
  split; [done|].
  pose proof (DeployToGit_unresolved manifests CommitChanges kubeClient host
                argocdNs ns clusterName repoUrl repoBranch basePath
                profileName s) as Hstop.
  cbv zeta in Hstop. fold out in Hstop.
  destruct (SecretsList kubeClient argocdNs _) as [items|]; [|done].
  destruct (getInlineBundles profileName kubeClient ns); [done|].
  by destruct (findRepoCreds repoUrl items).
Qed.

End DeleteAndDeploy.

(** * The further theorems on the small installation *)

Lemma run_to {S A} (m : S → A * S) (s : S) (a : A) :
  (m s).1 = a → m s = (a, (m s).2).
Proof. destruct (m s) as [r s']. simpl. by intros ->. Qed.

Lemma getInlineBundles_first_unresolved_witness :
  getInlineBundles "p3" Fleet.client "arlon"
  = Error ("failed to get bundle secret " +:+ "x" +:+ ": "
           +:+ "secret not found").
Proof.
  apply (getInlineBundles_first_unresolved Fleet.client "arlon" "p3"
           "a,b,x,e" (Sample.profile "a,b,x,e") ["a"; "b"] ["e"] "x"
           "secret not found").
  - done.
  - reflexivity.
  - reflexivity.
  - reflexivity.
  - done.
  - reflexivity.
  - repeat constructor.
  - reflexivity.
Defined.

Lemma failed_deploy_keeps_remote_witness :
  gogit.remote
    (DeployToGit Sample.manifests gitutils.CommitChanges Sample.client
       Fleet.offline "argocd" "arlon" "c1" Sample.url "main" "clusters" "p1"
       Sample.session).2
  = gogit.remote Sample.session
  ∧ pushes (gogit.events
              (DeployToGit Sample.manifests gitutils.CommitChanges
                 Sample.client Fleet.offline "argocd" "arlon" "c1" Sample.url
                 "main" "clusters" "p1" Sample.session).2)
    = pushes (gogit.events Sample.session).
Proof.
  apply (failed_deploy_keeps_remote Sample.manifests gitutils.CommitChanges
           Sample.client Fleet.offline "argocd" "arlon" "c1" Sample.url
           "main" "clusters" "p1" Sample.session).
  - vm_compute. exact I.
  - intros err H.
    assert ((DeployToGit Sample.manifests gitutils.CommitChanges
               Sample.client Fleet.offline "argocd" "arlon" "c1" Sample.url
               "main" "clusters" "p1" Sample.session).1
            = Error "failed to clone repository: authentication required")
      as Hrun by computed.
    rewrite Hrun in H. discriminate H.
Defined.

Lemma deploy_touches_one_branch_witness :
  gogit.remote (Sample.deploy "p1" Sample.session).2
    !! (Sample.url, "refs/heads/staging")
  = gogit.remote Sample.session !! (Sample.url, "refs/heads/staging").
Proof.
  apply (deploy_touches_one_branch Sample.manifests gitutils.CommitChanges
           Sample.client Sample.host "argocd" "arlon" "c1" Sample.url "main"
           "clusters" "p1" Sample.session Sample.url "refs/heads/staging").
  - intros dir r. unfold gitutils.CommitChanges. by case_decide.
  - vm_compute. discriminate.
Defined.

Lemma copyInlineBundles_errors_witness :
  ∃ before bundle after,
    [Sample.inlineA; Sample.noPayload] = before ++ bundle :: after
    ∧ is_ok (copyInlineBundles "c1" Sample.url Sample.mgmtPath
               Sample.workloadPath before (gogit.checkout Sample.readme)).1
      = true
    ∧ ((∃ err, "inline bundle n has no data"
               = "failed to create directory in working tree: " +:+ err)
       ∨ (∃ err, "inline bundle n has no data"
                 = "failed to create file in working tree: " +:+ err)
       ∨ (data bundle = None
          ∧ "inline bundle n has no data"
            = "inline bundle " +:+ name bundle +:+ " has no data")
       ∨ (∃ err, "inline bundle n has no data"
                 = "failed to create application file "
                   +:+ path.Join [Sample.mgmtPath; "templates";
                                  name bundle +:+ ".yaml"]
                   +:+ ": " +:+ err)).
Proof.
  apply (copyInlineBundles_errors "c1" Sample.url Sample.mgmtPath
           Sample.workloadPath [Sample.inlineA; Sample.noPayload]
           (gogit.checkout Sample.readme)
           (copyInlineBundles "c1" Sample.url Sample.mgmtPath
              Sample.workloadPath [Sample.inlineA; Sample.noPayload]
              (gogit.checkout Sample.readme)).2
           "inline bundle n has no data").
  apply (run_to (copyInlineBundles "c1" Sample.url Sample.mgmtPath
                   Sample.workloadPath [Sample.inlineA; Sample.noPayload])
           (gogit.checkout Sample.readme)).
  computed.
Defined.

Lemma stub_path_holds_payload_witness :
  ∃ dir stub above below,
    billy.locate (appPathOf Sample.mgmtPath (name Sample.inlineA))
    = billy.Inside stub
    ∧ billy.files
        (copyInlineBundles "c1" Sample.url Sample.mgmtPath
           Sample.workloadPath [Sample.inlineA]
           (gogit.checkout Sample.readme)).2 !! stub
      = Some (list_byte_of_string
                (above +:+ "    path: "
                 +:+ (Sample.workloadPath +:+ "/" +:+ name Sample.inlineA)
                 +:+ below))
    ∧ billy.locate (Sample.workloadPath +:+ "/" +:+ name Sample.inlineA)
      = billy.Inside dir
    ∧ dir ∈ billy.dirs
              (copyInlineBundles "c1" Sample.url Sample.mgmtPath
                 Sample.workloadPath [Sample.inlineA]
                 (gogit.checkout Sample.readme)).2
    ∧ (Forall (λ b', name b' ≠ name Sample.inlineA) [] →
       ∃ payload,
         data Sample.inlineA = Some payload
         ∧ billy.files
             (copyInlineBundles "c1" Sample.url Sample.mgmtPath
                Sample.workloadPath [Sample.inlineA]
                (gogit.checkout Sample.readme)).2
             !! (dir ++ [name Sample.inlineA +:+ ".yaml"])
           = Some payload).
Proof.
  apply (stub_path_holds_payload "clusters" "c1" Sample.url [Sample.inlineA]
           (gogit.checkout Sample.readme)
           (copyInlineBundles "c1" Sample.url Sample.mgmtPath
              Sample.workloadPath [Sample.inlineA]
              (gogit.checkout Sample.readme)).2
           ltac:(repeat constructor)
           (run_to (copyInlineBundles "c1" Sample.url Sample.mgmtPath
                      Sample.workloadPath [Sample.inlineA])
              (gogit.checkout Sample.readme) (Ok ()) ltac:(computed))
           [] Sample.inlineA [] eq_refl).
Defined.

Lemma root_app_points_at_the_build_witness :
  ∃ app,
    ConstructRootApp Sample.client "argocd" "arlon" "c1" Sample.url "main"
      "clusters" "p1" = Ok app
    ∧ ∃ built s1 r,
        Sample.build "p1" Sample.session = (Ok built, s1)
        ∧ gogit.repo s1 = Some r
        ∧ gogit.origin r = Source_RepoURL app
        ∧ gogit.branch r
          = gogit.NewBranchReferenceName (Source_TargetRevision app)
        ∧ ∀ before a after,
            flat_map artifactsOf Sample.manifests = before ++ a :: after →
            Forall (λ a', a'.1 ≠ a.1) after →
            ((∀ b, b ∈ [Sample.inlineA] →
                   a.1 ≠ ["templates"; name b +:+ ".yaml"]) →
             billy.files (gogit.Filesystem r)
               !! (path.elems (Source_Path app) ++ a.1)
             = Some a.2)
            ∧ (∀ b, b ∈ [Sample.inlineA] →
                 a.1 = ["templates"; name b +:+ ".yaml"] →
                 billy.files (gogit.Filesystem r)
                   !! (path.elems (Source_Path app) ++ a.1)
                 = Some (list_byte_of_string
                           (stubText "c1" (name b) Sample.workloadPath
                              Sample.url))).
Proof.
  eexists. split; [reflexivity|].
  apply (root_app_points_at_the_build Sample.manifests
           gitutils.CommitChanges Sample.client Sample.host "argocd" "arlon"
           "c1" Sample.url "main" "clusters" "p1" "p1" _ [Sample.inlineA]
           Sample.session Sample.deployed).
  - computed.
  - computed.
  - repeat constructor.
  - reflexivity.
  - apply (run_to (Sample.deploy "p1") Sample.session). computed.
Defined.

Lemma ConstructRootApp_parameter_names_witness :
  ∃ app,
    ConstructRootApp
      {| SecretsList := SecretsList Sample.client;
         SecretsGet := SecretsGet Sample.client;
         ConfigMapsGet := λ ns configMapName,
           Ok {| ConfigMapLabels := ∅;
                 ConfigMapData := {[ "region" := "eu-west-1";
                                     "nodeCount" := "3";
                                     "clusterName" := "other" ]} |} |}
      "argocd" "arlon" "c1" Sample.url "main" "clusters" "spec" = Ok app
    ∧ NoDup (Name <$> Source_Helm_Parameters app)
    ∧ (length (Source_Helm_Parameters app) ≤ 7)%nat
    ∧ ∀ p, p ∈ Source_Helm_Parameters app → Name p = "clusterName" →
           Value p = "c1".
Proof.
  eexists. split; [reflexivity|].
  apply (ConstructRootApp_parameter_names
           {| SecretsList := SecretsList Sample.client;
              SecretsGet := SecretsGet Sample.client;
              ConfigMapsGet := λ ns configMapName,
                Ok {| ConfigMapLabels := ∅;
                      ConfigMapData := {[ "region" := "eu-west-1";
                                          "nodeCount" := "3";
                                          "clusterName" := "other" ]} |} |}
           "argocd" "arlon" "c1" Sample.url "main" "clusters" "spec").
  reflexivity.
Defined.

Lemma deleted_bundle_stops_deploy_witness :
  isError (getInlineBundles "p1"
             (apiserver.clientset Fleet.config Fleet.list Fleet.deleted)
             "arlon")
  ∧ isError
      (DeployToGit Sample.manifests gitutils.CommitChanges
         (apiserver.clientset Fleet.config Fleet.list Fleet.deleted)
         Sample.host "argocd" "arlon" "c1" Sample.url "main" "clusters" "p1"
         Sample.session).1
  ∧ (DeployToGit Sample.manifests gitutils.CommitChanges
       (apiserver.clientset Fleet.config Fleet.list Fleet.deleted)
       Sample.host "argocd" "arlon" "c1" Sample.url "main" "clusters" "p1"
       Sample.session).2
    = Sample.session.
Proof.
  apply (deleted_bundle_stops_deploy Sample.manifests gitutils.CommitChanges
           Fleet.config "arlon" "a" Fleet.cluster Fleet.deleted Fleet.list
           "p1" "a,b" (Sample.profile "a,b") Sample.host "argocd" "c1"
           Sample.url "main" "clusters" Sample.session).
  - apply (run_to (bundle.deleteBundle Fleet.config "arlon" "a")
             Fleet.cluster).
    computed.
  - done.
  - computed.
  - reflexivity.
  - decided.
Defined.

Lemma empty_bundle_name_stops_collection_witness :
  "" ∈ gostrings.Split "a," ","
  ∧ isError (getInlineBundles "p4"
               (apiserver.clientset Fleet.config Fleet.list Fleet.cluster)
               "arlon").
Proof.
  apply (empty_bundle_name_stops_collection Fleet.config Fleet.list
           Fleet.cluster "arlon" "p4" "a," (Sample.profile "a,")).
  - done.
  - computed.
  - reflexivity.
  - right. left. by exists "a".
Defined.

Lemma blocked_artifact_stops_copy_witness :
  isError (copyManifests (content Sample.manifests) "." Sample.mgmtPath
             (gogit.checkout Fleet.taken)).1.
Proof.
  apply (blocked_artifact_stops_copy Sample.manifests Sample.mgmtPath
           (gogit.checkout Fleet.taken)
           (path.Join [Sample.mgmtPath; "Chart.yaml"],
            Sample.text "name: arlon")
           ["clusters"; "c1"; "mgmt"; "Chart.yaml"] ["clusters"]).
  - computed.
  - decided.
  - computed.
  - left. split; [decided|]. eexists. computed.
Defined.
